(** * Consort admin backend: storage paths, rate limiting, middleware

    A shallow embedding of the upload utilities
    ([slotBasedUpload], [firebaseAuth]), of the request [middleware] with
    the headers of next.config.js, and of the admin upload route, followed
    by the properties checked against them.

    Conventions of the embedding.
    - A JavaScript string is a [string]; its characters are the 8-bit
      characters of [ascii] (the path components, header values and file
      names the code handles are ASCII).
    - A thrown exception is the [Throw] case of [result]; an [async] function
      is the function that computes what its promise settles to.
    - [Date.now()], the identity provider and the object store are inputs:
      they are fields of an environment record, and the object store's
      contents are threaded explicitly. *)

From Stdlib Require Import ZArith List Ascii String Bool Lia.
From stdpp Require Import base option list gmap strings pretty.

Set Warnings "-register-all".

Open Scope string_scope.
Open Scope Z_scope.

(* ===================================================================== *)
(** * Part I. The program *)
(* ===================================================================== *)

(** ** JavaScript values used by all modules *)
Module JS.

(** What a [throw] carries: an [Error] with its message, or anything else
    (the code distinguishes the two with [instanceof Error]). *)
Inductive exn : Type :=
| Error (message : string)
| Thrown.

Inductive result (A : Type) : Type :=
| Ok (a : A)
| Throw (e : exn).
Arguments Ok {A} a.
Arguments Throw {A} e.

Definition is_throw {A} (r : result A) : bool :=
  match r with Ok _ => false | Throw _ => true end.

Definition bind {A B} (r : result A) (k : A -> result B) : result B :=
  match r with Ok a => k a | Throw e => Throw e end.

(** [error instanceof Error ? error.message : fallback] *)
Definition message_or (fallback : string) (e : exn) : string :=
  match e with Error m => m | Thrown => fallback end.

(** *** Character classes of the regular expressions in the sources *)
Definition code (c : ascii) : N := N_of_ascii c.

Definition in_range (lo hi c : ascii) : bool :=
  ((code lo <=? code c) && (code c <=? code hi))%N.

Definition is_alnum (c : ascii) : bool :=
  in_range "a" "z" c || in_range "A" "Z" c || in_range "0" "9" c.

(** [[a-zA-Z0-9_-]] *)
Definition is_word (c : ascii) : bool :=
  is_alnum c || Ascii.eqb c "_" || Ascii.eqb c "-".

(** [[a-zA-Z0-9\-_\.]] *)
Definition is_segment_char (c : ascii) : bool :=
  is_word c || Ascii.eqb c ".".

(** *** String methods *)
Definition chars (s : string) : list ascii := list_ascii_of_string s.

(** [s.startsWith(p)] *)
Definition startsWith (s p : string) : bool := String.prefix p s.

(** [s.endsWith("/")] and the like, for a one-character suffix *)
Fixpoint endsWithChar (s : string) (c : ascii) : bool :=
  match s with
  | EmptyString => false
  | String a EmptyString => Ascii.eqb a c
  | String _ s' => endsWithChar s' c
  end.

(** [s.includes(sub)] *)
Fixpoint includes (s sub : string) : bool :=
  String.prefix sub s ||
  match s with
  | EmptyString => false
  | String _ s' => includes s' sub
  end.

Definition lower (c : ascii) : ascii :=
  if in_range "A" "Z" c then ascii_of_N (code c + 32) else c.

(** [s.toLowerCase()] *)
Fixpoint toLowerCase (s : string) : string :=
  match s with
  | EmptyString => EmptyString
  | String c s' => String (lower c) (toLowerCase s')
  end.

(** [s.split(sep)] for a one-character separator: never empty. *)
Fixpoint split (sep : ascii) (s : string) : list string :=
  match s with
  | EmptyString => [EmptyString]
  | String c s' =>
      if Ascii.eqb c sep then EmptyString :: split sep s'
      else match split sep s' with
           | [] => [String c EmptyString]
           | h :: t => String c h :: t
           end
  end.

(** [l.join(sep)] *)
Fixpoint join (sep : string) (l : list string) : string :=
  match l with
  | [] => EmptyString
  | [x] => x
  | x :: l' => x ++ sep ++ join sep l'
  end.

(** [s.replace(/[^CLASS]/g, by)] : every character outside the class is
    replaced. *)
Fixpoint replace_outside (class : ascii -> bool) (by_ : ascii) (s : string) : string :=
  match s with
  | EmptyString => EmptyString
  | String c s' =>
      String (if class c then c else by_) (replace_outside class by_ s')
  end.

(** The tail of a match of [\.[^/.]+$] after its dot: one or more
    characters, none of them a slash or a dot, up to the end. *)
Fixpoint extension_chars (s : string) : bool :=
  match s with
  | EmptyString => true
  | String c s' =>
      negb (Ascii.eqb c "/") && negb (Ascii.eqb c ".") && extension_chars s'
  end.

Definition extension_tail (s : string) : bool :=
  match s with EmptyString => false | _ => extension_chars s end.

(** [s.replace(/\.[^/.]+$/, '')] : the leftmost match is removed. *)
Fixpoint strip_extension (s : string) : string :=
  match s with
  | EmptyString => EmptyString
  | String c s' =>
      if Ascii.eqb c "." && extension_tail s' then EmptyString
      else String c (strip_extension s')
  end.

(** [s.substring(0, n)] *)
Fixpoint take (n : nat) (s : string) : string :=
  match n, s with
  | S n', String c s' => String c (take n' s')
  | _, _ => EmptyString
  end.

(** [l.pop()] on a fresh array: its last element *)
Definition pop (l : list string) : string := List.last l EmptyString.

(** [l.includes(x)] *)
Definition array_includes (l : list string) (x : string) : bool :=
  existsb (String.eqb x) l.

(** A browser [File]: what the code reads of it. *)
Record File : Type := mkFile {
  name : string;
  type : string;
  size : Z;
  content : string
}.

(** JSON, as [JSON.parse] returns it and [JSON.stringify] takes it. The
    numbers met here (NumericDate claims, sizes, durations) are whole. *)
Inductive json : Type :=
| JNull
| JBool (b : bool)
| JNumber (n : Z)
| JString (s : string)
| JArray (l : list json)
| JObject (o : list (string * json)).

End JS.
Export JS.

(** ** firebase/firebaseAuth: [uploadDoc] and [removeFileObjects] *)
Module FirebaseAuth.

(** The object store: the object written last at a path is the one kept. *)
Abbreviation Storage := (gmap string File).

(** What the browser-side code takes from its surroundings. *)
Record Env : Type := mkEnv {
  (** [auth.currentUser], by uid *)
  currentUser : option string;
  (** the value [Date.now()] returns inside the upload made for a path *)
  Date_now : string -> Z;
  (** [uploadBytes(ref(storage, fullPath), file)] : [None] when the object
      was stored, the thrown value otherwise *)
  uploadBytes : string -> File -> option exn;
  (** [getDownloadURL(ref)] *)
  getDownloadURL : string -> result string
}.

(** [path.split('/').filter(segment => segment.length > 0)
        .map(segment => segment.replace(/[^a-zA-Z0-9\-_\.]/g, '_')).join('/')] *)
Definition sanitizedPath (path : string) : string :=
  join "/"
    (List.map (replace_outside is_segment_char "_")
       (List.filter (fun segment => negb (String.eqb segment ""))
          (split "/" path))).

(** [`${sanitizedFileName}_${timestamp}.${fileExtension}`] *)
Definition uniqueFileName (file : File) (timestamp : Z) : string :=
  let fileExtension := pop (split "." (name file)) in
  let baseFileName := strip_extension (name file) in
  let sanitizedFileName := replace_outside is_word "_" baseFileName in
  sanitizedFileName ++ "_" ++ pretty timestamp ++ "." ++ fileExtension.

(** [`${sanitizedPath}/${uniqueFileName}`], the path handed to [ref]. *)
Definition fullPath (env : Env) (path : string) (file : File) : string :=
  sanitizedPath path ++ "/" ++ uniqueFileName file (Date_now env path).

(** [uploadDoc(path, file)]. The first guard ([!file], a [name] that is not
    a string) is excluded by the type [File]; [userIdentifier] is computed
    and not used. The [catch] logs and rethrows. *)
Definition uploadDoc (env : Env) (path : string) (file : File)
    (st : Storage) : result string * Storage :=
  match currentUser env with
  | None => (Throw (Error "User must be authenticated to upload files"), st)
  | Some _ =>
      let target := fullPath env path file in
      match uploadBytes env target file with
      | Some e => (Throw e, st)
      | None => (getDownloadURL env target, <[target := file]> st)
      end
  end.

(** *** Values handed to [removeFileObjects] *)
Inductive prim : Type :=
| PUndefined
| PNull
| PBoolean (b : bool)
| PNumber (bits : Z)      (* a double, by its bits: never inspected *)
| PString (s : string).

(** The values of the form data: primitives, [File]s, arrays, plain objects
    and [Date]s (the forms add [createdAt] and [updatedAt]). A plain object
    is the list of its own enumerable properties; a [Date] has none. *)
Inductive value : Type :=
| VPrim (p : prim)
| VFile (f : File)
| VArray (l : list value)
| VObject (o : list (string * value))
| VDate (time : Z).

Definition isFile (v : value) : bool :=
  match v with VFile _ => true | _ => false end.

(** What the loop body leaves under a key whose value is [x]:
    [None] when the key is deleted. [recur] is the recursive call. *)
Definition processField (recur : value -> list (string * value))
    (x : value) : option value :=
  match x with
  | VFile _ => None
  | VArray l =>
      Some (VArray
              (List.filter (fun item => negb (isFile item))
                 (List.map (fun item =>
                              match item with
                              | VArray _ | VObject _ | VDate _ => VObject (recur item)
                              | _ => item
                              end) l)))
  | VObject _ | VDate _ => Some (VObject (recur x))
  | VPrim _ => Some x
  end.

(** [removeFileObjects(v)] for [v] an object, or an array or a [Date] met
    where an object is expected: the spread [{ ...v }] of an array has its
    indices as keys, and that of a [Date] has no key. *)
Fixpoint removeFileObjectsOf (v : value) : list (string * value) :=
  match v with
  | VObject o =>
      (fix loop (o : list (string * value)) : list (string * value) :=
         match o with
         | [] => []
         | (key, x) :: o' =>
             match processField removeFileObjectsOf x with
             | Some y => (key, y) :: loop o'
             | None => loop o'
             end
         end) o
  | VArray l =>
      (fix loop (i : nat) (l : list value) : list (string * value) :=
         match l with
         | [] => []
         | x :: l' =>
             match processField removeFileObjectsOf x with
             | Some y => (pretty i, y) :: loop (S i) l'
             | None => loop (S i) l'
             end
         end) 0%nat l
  | _ => []
  end.

Definition removeFileObjects (obj : list (string * value)) : list (string * value) :=
  removeFileObjectsOf (VObject obj).

End FirebaseAuth.

(** ** admin/forms/utils/fileUploadSecurity

    The uploaders import this module and call two of its functions,
    [FileUploadSecurity.validateFile] and
    [FileUploadSecurity.getSecureExtension]. Both are parameters here: a
    [Security] record gives what they return. *)
Module FileUploadSecurity.

Record ValidationResult : Type := mkValidation {
  isValid : bool;
  errors : list string;
  warnings : list string;
  sanitizedName : option string
}.

Record Security : Type := mkSecurity {
  (** [await FileUploadSecurity.validateFile(file, getStandardUploadConfig())] *)
  validateFile : File -> result ValidationResult;
  (** [FileUploadSecurity.getSecureExtension(file.type)] *)
  getSecureExtension : string -> string
}.

End FileUploadSecurity.

(** ** admin/forms/utils/slotBasedUpload *)
Module SlotBasedUpload.
Import FirebaseAuth.
Import FileUploadSecurity.

Record SlotConfig : Type := mkSlotConfig {
  maxSlots : nat;
  basePath : string;
  filePrefix : string
}.

Record UploadSlot : Type := mkUploadSlot {
  slotIndex : nat;
  path : string;
  filename : string;
  url : string
}.

Record SlotUploadResult : Type := mkSlotUploadResult {
  uploadedSlots : list UploadSlot;
  errors : list string
}.

(** [SLOT_CONFIGS] *)
Definition productGallery : SlotConfig := mkSlotConfig 8 "portfolio" "photo".
Definition productResources : SlotConfig := mkSlotConfig 3 "portfolio" "resource".
Definition marketingHighlights : SlotConfig := mkSlotConfig 10 "portfolio" "highlight".
Definition solutionSections : SlotConfig := mkSlotConfig 8 "solutions" "section".
Definition resourceSections : SlotConfig := mkSlotConfig 6 "resources" "section".
Definition postSections : SlotConfig := mkSlotConfig 10 "posts" "section".
Definition singleFile : SlotConfig := mkSlotConfig 1 "" "file".

(** [/^[a-zA-Z0-9_-]+$/.test(input)] *)
Definition test_word (input : string) : bool :=
  negb (String.eqb input "") && forallb is_word (chars input).

Definition sanitizePathComponent (input fieldName : string) : result string :=
  if String.eqb input "" then
    Throw (Error (fieldName ++ " must be a non-empty string"))
  else if negb (test_word input) then
    Throw (Error (fieldName ++ " contains invalid characters. Only letters, numbers, hyphens, and underscores allowed."))
  else if (100 <? String.length input)%nat then
    Throw (Error (fieldName ++ " is too long (max 100 characters)"))
  else Ok input.

(** An optional string argument tested with [if (s)]: absent and empty
    both count as not given. *)
Definition truthy (s : option string) : option string :=
  match s with
  | Some s' => if String.eqb s' "" then None else Some s'
  | None => None
  end.

Section Uploads.
Context (sec : Security) (env : Env).

Definition generateCustomFilename (slug fileType : string) (file : File)
    (index : option nat) (sanitizedOriginalName : option string) : result string :=
  bind (sanitizePathComponent slug "slug") (fun safeSlug =>
  bind (sanitizePathComponent fileType "fileType") (fun safeFileType =>
  let extension := getSecureExtension sec (type file) in
  let baseName :=
    match truthy sanitizedOriginalName with
    | Some original =>
        let sanitizedBase := take 20 (strip_extension original) in
        safeSlug ++ "_" ++ safeFileType ++ "_" ++ sanitizedBase
    | None => safeSlug ++ "_" ++ safeFileType
    end in
  match index with
  | Some i => Ok (baseName ++ "_" ++ pretty (i + 1)%nat ++ extension)
  | None => Ok (baseName ++ extension)
  end)).

Definition generateSlotPath (config : SlotConfig) (documentId filename : string)
    (subPath : option string) : result string :=
  bind (sanitizePathComponent documentId "documentId") (fun safeDocumentId =>
  let safeBasePath := basePath config in
  match truthy subPath with
  | Some sub =>
      bind (sanitizePathComponent sub "subPath") (fun safeSubPath =>
      Ok (safeBasePath ++ "/" ++ safeDocumentId ++ "/" ++ safeSubPath ++ "/" ++ filename))
  | None => Ok (safeBasePath ++ "/" ++ safeDocumentId ++ "/" ++ filename)
  end).

(** [`File validation failed: ${validationResult.errors.join(', ')}`] *)
Definition validationFailed (r : ValidationResult) : exn :=
  Error ("File validation failed: " ++ join ", " (FileUploadSecurity.errors r)).

(** [uploadSingleFileWithTimeout(file, path, 15000)]. The timer is real
    time: an upload that loses the race is one of the uploads
    [uploadBytes] reports as failed. *)
Definition uploadSingleFileWithTimeout (file : File) (path : string)
    (st : Storage) : result string * Storage :=
  match validateFile sec file with
  | Throw e => (Throw e, st)
  | Ok validationResult =>
      if negb (isValid validationResult)
      then (Throw (validationFailed validationResult), st)
      else uploadDoc env path file st
  end.

(** The state the callbacks of [uploadToSlots] share: the [errors] array
    they push to, and the object store. *)
Definition Shared : Type := list string * Storage.

(** The [async (file, index) => ...] callback of [uploadToSlots]: what its
    promise settles to ([None] is [null]). *)
Definition uploadSlot (config : SlotConfig) (documentId slug fileType : string)
    (subPath : option string) (startIndex : nat)
    (file : option File) (index : nat) (sh : Shared)
    : result (option UploadSlot) * Shared :=
  let '(errs, st) := sh in
  match file with
  | None => (Ok None, sh)
  | Some file =>
      let validated :=
        match validateFile sec file with
        | Throw e => Throw e
        | Ok validationResult =>
            if negb (isValid validationResult)
            then Throw (validationFailed validationResult)
            else Ok validationResult
        end in
      match validated with
      | Throw validationError =>
          (Ok None,
           (errs ++ ["Slot " ++ pretty (startIndex + index + 1)%nat ++ ": "
                       ++ message_or "File validation failed" validationError]%string,
            st)%list)
      | Ok validationResult =>
          let slotIndex := (startIndex + index + 1)%nat in
          match generateCustomFilename slug fileType file (Some index)
                  (sanitizedName validationResult) with
          | Throw e => (Throw e, sh)
          | Ok filename =>
              match generateSlotPath config documentId filename subPath with
              | Throw e => (Throw e, sh)
              | Ok slotPath =>
                  match uploadSingleFileWithTimeout file slotPath st with
                  | (Ok url, st') =>
                      (Ok (Some (mkUploadSlot slotIndex slotPath filename url)),
                       (errs, st'))
                  | (Throw error, st') =>
                      (Ok None,
                       (errs ++ ["Failed to upload to slot " ++ pretty slotIndex ++ ": "
                                   ++ message_or "Unknown error" error]%string,
                        st')%list)
                  end
              end
          end
      end
  end.

(** [files.map(callback)] : the callbacks run in index order, each to its
    end, on the shared state. *)
Fixpoint mapAsync {A B : Type} (callback : A -> nat -> Shared -> result B * Shared)
    (files : list A) (index : nat) (sh : Shared) : list (result B) * Shared :=
  match files with
  | [] => ([], sh)
  | file :: rest =>
      let '(r, sh1) := callback file index sh in
      let '(rs, sh2) := mapAsync callback rest (S index) sh1 in
      (r :: rs, sh2)
  end.

(** [await Promise.all(promises)] : the values in order, or a rejection. *)
Fixpoint Promise_all {A : Type} (promises : list (result A)) : result (list A) :=
  match promises with
  | [] => Ok []
  | Throw e :: _ => Throw e
  | Ok a :: rest => bind (Promise_all rest) (fun l => Ok (a :: l))
  end.

Definition uploadToSlots (files : list (option File)) (config : SlotConfig)
    (documentId slug fileType : string) (subPath : option string)
    (startIndex : nat) (st : Storage) : result SlotUploadResult * Storage :=
  if (maxSlots config <? length files)%nat then
    (Throw (Error ("Too many files: " ++ pretty (length files)
                     ++ ". Maximum allowed: " ++ pretty (maxSlots config))), st)
  else
    let '(uploadPromises, (errs, st')) :=
      mapAsync (uploadSlot config documentId slug fileType subPath startIndex)
        files 0%nat ([], st) in
    (bind (Promise_all uploadPromises) (fun results =>
       Ok (mkSlotUploadResult (omap id results) errs)), st').

(** *** [ProductSlotUploader.uploadGallery] *)
Definition isThumbnail (file : File) : bool :=
  negb (includes (name file) "-720.webp") && includes (name file) "-320.webp".

Definition mainPath (safeProductId : string) (slotNumber : nat) : string :=
  "portfolio/" ++ safeProductId ++ "/gallery/main/slot_" ++ pretty slotNumber ++ ".webp".

Definition thumbnailPath (safeProductId : string) (slotNumber : nat) : string :=
  "portfolio/" ++ safeProductId ++ "/gallery/thumbnails/slot_" ++ pretty slotNumber ++ ".webp".

(** The two [map] callbacks: upload to the slot path; the [catch] logs
    and rethrows. *)
Definition uploadGallerySlot (slotPath : nat -> string) (file : File) (index : nat)
    (sh : Shared) : result string * Shared :=
  let '(errs, st) := sh in
  let '(r, st') := uploadSingleFileWithTimeout file (slotPath (index + 1)%nat) st in
  (r, (errs, st')).

Definition uploadGallery (files : list File) (productId productSlug : string)
    (st : Storage) : result (list string) * Storage :=
  match sanitizePathComponent productId "productId" with
  | Throw e => (Throw e, st)
  | Ok safeProductId =>
      let mainFiles := List.filter (fun f => negb (isThumbnail f)) files in
      let thumbnailFiles := List.filter isThumbnail files in
      let '(mainUploadPromises, sh1) :=
        mapAsync (uploadGallerySlot (mainPath safeProductId)) mainFiles 0%nat ([], st) in
      let '(thumbnailUploadPromises, (_, st')) :=
        mapAsync (uploadGallerySlot (thumbnailPath safeProductId)) thumbnailFiles 0%nat sh1 in
      (bind (Promise_all (mainUploadPromises ++ thumbnailUploadPromises)%list) (fun _ =>
       Promise_all mainUploadPromises), st')
  end.

End Uploads.

End SlotBasedUpload.

(** ** middleware *)
Module Middleware.

(** [process.env], the clock and the platform's decoders. *)
Record Env : Type := mkEnv {
  NODE_ENV : string;
  NEXT_PUBLIC_FIREBASE_PROJECT_ID : option string;
  (** [Date.now()], in milliseconds *)
  Date_now : Z;
  (** [JSON.parse(atob(s))] : [None] when either throws *)
  JSON_parse_atob : string -> option json
}.

Record NextRequest : Type := mkRequest {
  (** [request.nextUrl.pathname] *)
  pathname : string;
  method : string;
  (** [request.headers.get(name)], names in lower case *)
  headers : gmap string string;
  (** [request.cookies.get(name)?.value] *)
  cookies : gmap string string;
  (** scheme and authority of [request.url] *)
  urlOrigin : string
}.

Inductive Body : Type :=
| Next                         (* [NextResponse.next()] : go on to the route *)
| Redirect (location : string) (* [NextResponse.redirect(url)] *)
| Text (body : option string). (* [new NextResponse(body, init)] *)

Record NextResponse : Type := mkResponse {
  body : Body;
  status : Z;
  responseHeaders : gmap string string
}.

(** [value.key] on a decoded value: [Ok None] is [undefined]; reading a
    property of [null] throws a [TypeError]. The keys read here are no
    properties of strings, numbers, booleans or arrays. *)
Definition prop (v : json) (key : string) : result (option json) :=
  match v with
  | JNull => Throw (Error ("Cannot read properties of null (reading '" ++ key ++ "')"))
  | JObject o => Ok (snd <$> List.find (fun kv => String.eqb (fst kv) key) o)
  | _ => Ok None
  end.

(** [!x] is [negb (truthy x)] *)
Definition truthy (x : option json) : bool :=
  match x with
  | None | Some JNull => false
  | Some (JBool b) => b
  | Some (JNumber n) => negb (n =? 0)
  | Some (JString s) => negb (String.eqb s "")
  | Some (JArray _) | Some (JObject _) => true
  end.

(** [!x || typeof x !== 'string' || x.length < n] is the negation of: *)
Definition stringOfLength (n : nat) (x : option json) : bool :=
  match x with
  | Some (JString s) => negb (String.eqb s "") && (n <=? String.length s)%nat
  | _ => false
  end.

Record Validation : Type := mkValidation {
  isValid : bool;
  reason : option string
}.

Definition invalid (why : string) : result Validation :=
  Ok (mkValidation false (Some why)).

(** [parts[i].replace(/-/g, '+').replace(/_/g, '/')] *)
Fixpoint base64 (s : string) : string :=
  match s with
  | EmptyString => EmptyString
  | String c s' =>
      String (if Ascii.eqb c "-" then "+"%char
              else if Ascii.eqb c "_" then "/"%char else c) (base64 s')
  end.

Section WithEnv.
Context (env : Env).

Definition production : bool := String.eqb (NODE_ENV env) "production".

(** [process.env.NEXT_PUBLIC_FIREBASE_PROJECT_ID], when set and not empty *)
Definition projectId : option string :=
  match NEXT_PUBLIC_FIREBASE_PROJECT_ID env with
  | Some p => if String.eqb p "" then None else Some p
  | None => None
  end.

(** Steps 5 to 10 of the validation, on the decoded payload; [now] is
    [Math.floor(Date.now() / 1000)]. *)
Definition validatePayload (payload : json) : result Validation :=
  bind (prop payload "iss") (fun iss =>
  if negb (truthy iss) then invalid "Invalid issuer - must be Firebase securetoken" else
  match iss with
  | Some (JString issuer) =>
      if negb (startsWith issuer "https://securetoken.google.com/")
      then invalid "Invalid issuer - must be Firebase securetoken" else
      bind (prop payload "aud") (fun aud =>
      if negb (stringOfLength 3 aud)
      then invalid "Missing or invalid audience (project ID)" else
      bind (prop payload "sub") (fun sub =>
      if negb (stringOfLength 10 sub)
      then invalid "Missing or invalid subject (user ID)" else
      bind (prop payload "exp") (fun exp =>
      bind (prop payload "iat") (fun iat =>
      match exp, iat with
      | Some (JNumber exp), Some (JNumber iat) =>
          if (exp =? 0) || (iat =? 0)
          then invalid "Missing or invalid expiry/issued times" else
          let now := Date_now env / 1000 in
          if exp <=? now then invalid "Token has expired" else
          if now + 300 <? iat then invalid "Token issued in future (clock skew)" else
          let tokenAge := now - iat in
          if 3600 <? tokenAge then invalid "Token is too old (>1 hour)" else
          let projectOk :=
            match projectId with
            | Some project =>
                if negb (String.eqb issuer ("https://securetoken.google.com/" ++ project))
                then Some "Token issuer does not match project"
                else if negb (match aud with
                              | Some (JString a) => String.eqb a project
                              | _ => false
                              end)
                then Some "Token audience does not match project"
                else None
            | None => None
            end in
          match projectOk with
          | Some why => invalid why
          | None =>
              bind (prop payload "firebase") (fun firebase =>
              if truthy firebase
                 && negb (match firebase with
                          | Some (JObject _) | Some (JArray _) | Some JNull => true
                          | _ => false
                          end)
              then invalid "Invalid firebase claims structure" else
              bind (prop payload "auth_time") (fun auth_time =>
              if truthy auth_time
                 && match auth_time with
                    | Some (JNumber t) => now <? t
                    | _ => true
                    end
              then invalid "Invalid authentication time"
              else Ok (mkValidation true None)))
          end
      | _, _ => invalid "Missing or invalid expiry/issued times"
      end))))
  | _ =>
      (* a truthy issuer that is no string has no [startsWith] *)
      Throw (Error "payload.iss.startsWith is not a function")
  end).

Definition validateHeader (header : json) : result (option string) :=
  bind (prop header "alg") (fun alg =>
  if negb (match alg with Some (JString a) => String.eqb a "RS256" | _ => false end)
  then Ok (Some "Invalid algorithm - Firebase uses RS256") else
  bind (prop header "kid") (fun kid =>
  if negb (stringOfLength 10 kid)
  then Ok (Some "Missing or invalid key ID (kid)")
  else Ok None)).

Definition validateFirebaseTokenStructure (token : string) : Validation :=
  let attempt : result Validation :=
    match split "." token with
    | [p0; p1; _] =>
        match JSON_parse_atob env (base64 p0) with
        | None => invalid "Invalid JWT header encoding"
        | Some header =>
            bind (validateHeader header) (fun headerProblem =>
            match headerProblem with
            | Some why => invalid why
            | None =>
                match JSON_parse_atob env (base64 p1) with
                | None => invalid "Invalid JWT payload encoding"
                | Some payload => validatePayload payload
                end
            end)
        end
    | _ => invalid "Invalid JWT structure - must have 3 parts"
    end in
  match attempt with
  | Ok v => v
  | Throw e =>
      mkValidation false (Some ("Token validation error: " ++ message_or "undefined" e))
  end.

(** *** Headers *)
Definition cspDirectives : list string :=
  [ "default-src 'self'";
    "script-src 'self' 'unsafe-inline' 'unsafe-eval' https://www.googletagmanager.com https://www.google-analytics.com https://www.gstatic.com";
    "style-src 'self' 'unsafe-inline' https://fonts.googleapis.com";
    "img-src 'self' data: blob: https: http: https://res.cloudinary.com https://firebasestorage.googleapis.com";
    "font-src 'self' data: https://fonts.gstatic.com";
    "connect-src 'self' https://*.googleapis.com https://*.firebaseapp.com https://*.cloudfunctions.net https://firebaseinstallations.googleapis.com https://res.cloudinary.com https://www.google-analytics.com https://analytics.google.com wss: ws: http://localhost:* https://localhost:*";
    "media-src 'self' https: data:";
    "object-src 'none'";
    "base-uri 'self'";
    "form-action 'self'";
    "frame-ancestors 'self'";
    "worker-src 'self' blob:";
    "manifest-src 'self'" ].

(** The source lists the directives twice, once per branch of the test
    on [NODE_ENV], with the same text. *)
Definition securityHeaders : list (string * string) :=
  [ ("X-DNS-Prefetch-Control", "on");
    ("X-Content-Type-Options", "nosniff");
    ("X-Frame-Options", "SAMEORIGIN");
    ("X-XSS-Protection", "1; mode=block");
    ("Referrer-Policy", "strict-origin-when-cross-origin");
    ("Permissions-Policy", "camera=(), microphone=(), geolocation=(), interest-cohort=()");
    ("Content-Security-Policy",
     if production then join "; " cspDirectives else join "; " cspDirectives) ].

(** [Object.entries(h).forEach(([key, value]) => response.headers.set(key, value))] *)
Definition setAll (h : list (string * string)) (m : gmap string string) : gmap string string :=
  List.fold_left (fun m kv => <[fst kv := snd kv]> m) h m.

Definition suspiciousBots : list string :=
  [ "semrush"; "ahrefs"; "mj12bot"; "dotbot"; "seznambot";
    "yandexbot"; "bingbot"; "slurp"; "facebookexternalhit";
    "crawler"; "spider"; "scraper"; "wget"; "curl" ].

Definition allowedOrigins : list string :=
  if production
  then [ "https://consortdigital.com"; "https://www.consortdigital.com" ]
  else [ "http://localhost:3000"; "https://localhost:3000" ].

(** [AUTH_COOKIE_CONFIG.FIREBASE_TOKEN] *)
Definition FIREBASE_TOKEN_COOKIE : string := "firebaseToken".

(** [NextResponse.redirect(new URL('/auth', request.url))] *)
Definition redirectToAuth (request : NextRequest) : NextResponse :=
  let url := urlOrigin request ++ "/auth" in
  mkResponse (Redirect url) 307 {[ "Location" := url ]}.

(** [NextResponse.next()] *)
Definition next : NextResponse :=
  mkResponse Next 200 {[ "x-middleware-next" := "1" ]}.

(** [allowedOrigins.includes(origin || '') ? origin! : 'null'] *)
Definition allowOrigin (origin : option string) : string :=
  if array_includes allowedOrigins (default "" origin)
  then default "" origin else "null".

Definition preflight (origin : option string) (methods allowHeaders : string) : NextResponse :=
  mkResponse (Text None) 200
    (<["Vary" := "Origin"]>
     (<["Access-Control-Max-Age" := "3600"]>
      (<["Access-Control-Allow-Credentials" := "true"]>
       (<["Access-Control-Allow-Headers" := allowHeaders]>
        (<["Access-Control-Allow-Methods" := methods]>
         (<["Access-Control-Allow-Origin" := allowOrigin origin]>
          (setAll securityHeaders ∅))))))).

Definition withCors (origin : option string) : NextResponse :=
  let response := next in
  mkResponse (body response) (status response)
    (<["Access-Control-Allow-Credentials" := "true"]>
     (<["Access-Control-Allow-Origin" := allowOrigin origin]>
      (setAll securityHeaders (responseHeaders response)))).

Definition isSuspiciousBot (userAgent : string) : bool :=
  existsb (fun bot => includes (toLowerCase userAgent) (toLowerCase bot)) suspiciousBots.

(** [middleware(request)]. [ip], [startTime] and [isPublicRoute] only feed
    the log or are not used. *)
Definition middleware (request : NextRequest) : NextResponse :=
  let pathname := pathname request in
  let origin := headers request !! "origin" in
  let userAgent := default "" (headers request !! "user-agent") in
  if isSuspiciousBot userAgent && negb (startsWith pathname "/api/") && production then
    mkResponse (Text (Some "Access Denied")) 403
      {[ "content-type" := "text/plain;charset=UTF-8" ]}
  else
  let adminPage : option NextResponse :=
    if startsWith pathname "/admin" && negb (startsWith pathname "/api/admin") then
      match cookies request !! FIREBASE_TOKEN_COOKIE with
      | None => Some (redirectToAuth request)
      | Some firebaseToken =>
          if String.eqb firebaseToken "" then Some (redirectToAuth request)
          else if negb (isValid (validateFirebaseTokenStructure firebaseToken))
          then Some (redirectToAuth request)
          else None
      end
    else None in
  match adminPage with
  | Some response => response
  | None =>
      if startsWith pathname "/api/admin/"
         || (startsWith pathname "/api/admin/" && endsWithChar pathname "/") then
        if String.eqb (method request) "OPTIONS"
        then preflight origin "POST, GET, OPTIONS" "Content-Type, Authorization, Cookie"
        else withCors origin
      else if startsWith pathname "/api/auth/" || startsWith pathname "/api/public/" then
        if String.eqb (method request) "OPTIONS"
        then preflight origin "GET, POST, OPTIONS" "Content-Type, Authorization"
        else withCors origin
      else
        let response := next in
        mkResponse (body response) (status response)
          (setAll securityHeaders (responseHeaders response))
  end.

End WithEnv.

End Middleware.

(** ** next.config.js: the headers of every route, and the response sent *)
Module NextConfig.
Import Middleware.

Definition cspDirectives : list string :=
  [ "default-src 'self'";
    "script-src 'self' 'unsafe-inline' https://www.googletagmanager.com https://www.google-analytics.com";
    "style-src 'self' 'unsafe-inline' https://fonts.googleapis.com";
    "img-src 'self' data: blob:";
    "font-src 'self' https://fonts.gstatic.com data:";
    "connect-src 'self' https://*.googleapis.com https://*.firebaseapp.com https://firebaseinstallations.googleapis.com https://www.google-analytics.com wss:";
    "object-src 'none'";
    "base-uri 'self'";
    "form-action 'self'";
    "frame-ancestors 'none'";
    "manifest-src 'self'" ].

(** [securityHeaders] of next.config.js *)
Definition securityHeaders : list (string * string) :=
  [ ("X-DNS-Prefetch-Control", "on");
    ("X-XSS-Protection", "1; mode=block");
    ("X-Frame-Options", "SAMEORIGIN");
    ("X-Content-Type-Options", "nosniff");
    ("Referrer-Policy", "strict-origin-when-cross-origin");
    ("Permissions-Policy", "camera=(), microphone=(), geolocation=(), interest-cohort=()");
    ("Content-Security-Policy", join "; " cspDirectives) ].

(** [headers()] at a pathname. It has one entry, whose [headers] are
    [securityHeaders] and whose [source] is a slash followed by a group
    that takes any characters: it matches every pathname that starts with
    a slash, as the pathname of a request does. *)
Definition headers (pathname : string) : list (string * string) :=
  if startsWith pathname "/" then securityHeaders else [].


End NextConfig.

(** ** app/api/admin/upload/route *)
Module UploadRoute.
Import FileUploadSecurity.

(** *** The in-memory limiter *)
Record RateRecord : Type := mkRecord {
  count : Z;
  resetTime : Z;
  violations : Z
}.

Record RateLimit : Type := mkRateLimit {
  success : bool;
  limit : Z;
  remaining : Z;
  reset : Z
}.

Definition windowMs : Z := 60 * 1000.
Definition maxRequests : Z := 20.

(** [record = uploadRateLimitStore.get(key)], after the clean-up of an
    expired record and the initialisation of a new one. *)
Definition liveRecord (key : string) (now : Z)
    (store : gmap string RateRecord) : RateRecord * gmap string RateRecord :=
  let '(record, store) :=
    match store !! key with
    | Some r => if resetTime r <? now then (None, delete key store) else (Some r, store)
    | None => (None, store)
    end in
  match record with
  | Some r => (r, store)
  | None =>
      let r := mkRecord 0 (now + windowMs) 0 in
      (r, <[key := r]> store)
  end.

(** [checkUploadRateLimit(key)], with [now] the value of [Date.now()].
    [record] is the object held by the map: the assignments to its fields
    change the stored record on both paths. *)
Definition checkUploadRateLimit (key : string) (now : Z)
    (store : gmap string RateRecord) : RateLimit * gmap string RateRecord :=
  let '(record, store) := liveRecord key now store in
  if maxRequests <=? count record then
    let violations' := violations record + 1 in
    let resetTime' :=
      if 3 <=? violations'
      then Z.max (resetTime record) (now + windowMs * 3)
      else resetTime record in
    (mkRateLimit false maxRequests 0 resetTime',
     <[key := mkRecord (count record) resetTime' violations']> store)
  else
    let count' := count record + 1 in
    (mkRateLimit true maxRequests (maxRequests - count') (resetTime record),
     <[key := mkRecord count' (resetTime record) (violations record)]> store).

(** *** Requests, responses, server state *)
Record AuthenticatedUser : Type := mkUser {
  uid : string;
  email : string
}.

Record NextRequest : Type := mkRequest {
  (** [parseInt(request.headers.get('content-length'))], when the header is
      there and starts with a number *)
  contentLength : option Z;
  (** [await request.formData()], then its [file] and [path] entries *)
  formData : result (option File * option string)
}.

Record Response : Type := mkResponse {
  status : Z;
  headers : gmap string string;
  (** the value handed to [JSON.stringify] *)
  body : json
}.

Record Server : Type := mkServer {
  uploadRateLimitStore : gmap string RateRecord;
  storage : gmap string File
}.

Record Env : Type := mkEnv {
  (** [validateFirebaseToken(request)] of utils/serverAuth *)
  validateFirebaseToken : NextRequest -> result (option AuthenticatedUser);
  (** [getClientIP(request)] *)
  getClientIP : NextRequest -> string;
  (** the value of the n-th call of [Date.now()] while the request is served *)
  Date_now : nat -> Z;
  security : Security;
  (** [isPathAllowed], [UPLOAD_CONFIG.ALLOWED_PATHS], [getCorsHeaders()] of
      forms/utils/uploadConfig *)
  isPathAllowed : string -> bool;
  ALLOWED_PATHS : list string;
  corsHeaders : list (string * string);
  uploadBytes : string -> File -> option exn;
  getDownloadURL : string -> result string
}.

Definition headersOf (l : list (string * string)) : gmap string string :=
  List.fold_left (fun m kv => <[fst kv := snd kv]> m) l ∅.

Definition error (status : Z) (headers : gmap string string)
    (name message : string) : Response :=
  mkResponse status headers
    (JObject [("error", JString name); ("message", JString message)]).

(** [Math.ceil((reset - now) / 1000)] *)
Definition retryAfter (reset now : Z) : Z := - ((- (reset - now)) / 1000).

(** [(size / 1024 / 1024).toFixed(2)] : the quotient is exact in a double,
    and [toFixed] rounds half up. *)
Definition megabytes (size : Z) : string :=
  let n := (200 * size + 1048576) / 2097152 in
  let cents := n mod 100 in
  pretty (n / 100) ++ "." ++ (if cents <? 10 then "0" else "") ++ pretty cents.

Section WithEnv.
Context (env : Env).

(** [handleFileUpload(request, user)]; [tick] counts the calls of
    [Date.now()] made so far. *)
Definition handleFileUpload (tick : nat) (request : NextRequest)
    (user : AuthenticatedUser) (sv : Server) : Response * Server :=
  let startTime := Date_now env tick in
  let responseHeaders :=
    <["Content-Type" := "application/json"]> (headersOf (corsHeaders env)) in
  match formData request with
  | Throw _ =>
      (error 400 responseHeaders "Bad Request"
         "Invalid form data format. Please check your file and try again.", sv)
  | Ok (Some file, Some path) =>
      if String.eqb path "" then
        (error 400 responseHeaders "Bad Request" "File and path are required", sv)
      else if 10 * 1024 * 1024 <? size file then
        (error 400 responseHeaders "File Too Large"
           ("File size " ++ megabytes (size file)
              ++ "MB exceeds maximum allowed size of 10MB"), sv)
      else if size file =? 0 then
        (error 400 responseHeaders "Bad Request" "File is empty", sv)
      else
      match validateFile (security env) file with
      | Throw _ =>
          (error 400 responseHeaders "File Validation Failed"
             "Unable to validate file. Please ensure the file is not corrupted and try again.",
           sv)
      | Ok validationResult =>
          if negb (isValid validationResult) then
            (mkResponse 400 responseHeaders
               (JObject
                  ([("error", JString "File Validation Failed");
                    ("message", JString (join ", " (errors validationResult)))]
                   ++ match warnings validationResult with
                      | [] => []
                      | ws => [("warnings", JArray (List.map JString ws))]
                      end)%list), sv)
          else if negb (isPathAllowed env path) then
            (error 400 responseHeaders "Invalid Path"
               ("Path not allowed. Must start with one of: "
                  ++ join ", " (ALLOWED_PATHS env)), sv)
          else
            let sanitizedPath := FirebaseAuth.sanitizedPath path in
            let userIdentifier := replace_outside is_alnum "_" (uid user) in
            let timestamp := Date_now env (tick + 1)%nat in
            let uniqueFileName := FirebaseAuth.uniqueFileName file timestamp in
            let fullPath :=
              "admin-uploads/" ++ userIdentifier ++ "/" ++ sanitizedPath
                ++ "/" ++ uniqueFileName in
            let failed :=
              mkResponse 500 (headersOf (corsHeaders env))
                (JObject
                   [("error", JString "Upload Failed");
                    ("message", JString "File upload failed. Please try again or contact support if the problem persists.")]) in
            match uploadBytes env fullPath file with
            | Some _ => (failed, sv)
            | None =>
                let sv' :=
                  mkServer (uploadRateLimitStore sv) (<[fullPath := file]> (storage sv)) in
                match getDownloadURL env fullPath with
                | Throw _ => (failed, sv')
                | Ok downloadURL =>
                    let uploadTime := Date_now env (tick + 2)%nat - startTime in
                    (mkResponse 200 responseHeaders
                       (JObject
                          [("success", JBool true);
                           ("message", JString "File uploaded successfully");
                           ("data",
                            JObject
                              [("url", JString downloadURL);
                               ("path", JString fullPath);
                               ("filename", JString uniqueFileName);
                               ("size", JNumber (size file));
                               ("type", JString (type file));
                               ("uploadTime", JNumber uploadTime)])]), sv')
                end
            end
      end
  | Ok _ =>
      (error 400 responseHeaders "Bad Request" "File and path are required", sv)
  end.

Definition json_headers : gmap string string :=
  {[ "Content-Type" := "application/json" ]}.

(** [secureUploadWrapper(handler, request)] *)
Definition secureUploadWrapper
    (handler : nat -> NextRequest -> AuthenticatedUser -> Server -> Response * Server)
    (request : NextRequest) (sv : Server) : Response * Server :=
  let ip := getClientIP env request in
  match validateFirebaseToken env request with
  | Throw _ =>
      (error 500 json_headers "Security check failed"
         "Unable to process request due to security validation error", sv)
  | Ok None =>
      (error 401 json_headers "Authentication required"
         "Please log in to access this resource", sv)
  | Ok (Some user) =>
      let rateLimitKey := "upload_" ++ ip ++ "_" ++ uid user in
      let '(rateLimitResult, store') :=
        checkUploadRateLimit rateLimitKey (Date_now env 1%nat) (uploadRateLimitStore sv) in
      let sv' := mkServer store' (storage sv) in
      if negb (success rateLimitResult) then
        (mkResponse 429
           (<["Retry-After" :=
                pretty (retryAfter (reset rateLimitResult) (Date_now env 3%nat))]>
              json_headers)
           (JObject
              [("error", JString "Rate limit exceeded");
               ("message", JString "Too many upload requests. Please wait before trying again.");
               ("retryAfter",
                JNumber (retryAfter (reset rateLimitResult) (Date_now env 2%nat)))]),
         sv')
      else if match contentLength request with
              | Some n => 10 * 1024 * 1024 <? n
              | None => false
              end then
        (error 413 json_headers "File too large" "File size exceeds 10MB limit", sv')
      else handler 2%nat request user sv'
  end.

(** [POST] *)
Definition POST (request : NextRequest) (sv : Server) : Response * Server :=
  secureUploadWrapper handleFileUpload request sv.

End WithEnv.

End UploadRoute.

(** ** admin/forms/utils/slotBasedUpload: clean-up and the other uploaders *)
Module SlotUploaders.
Import FirebaseAuth.
Import FileUploadSecurity.
Import SlotBasedUpload.

(** An [itemRef] of a listing: its [name] and its [fullPath]. *)
Record Reference : Type := mkReference {
  itemName : string;
  itemFullPath : string
}.

(** The object store as the clean-up functions reach it. *)
Record Bucket : Type := mkBucket {
  (** [(await listAll(ref(storage, directory))).items] *)
  listAll : string -> result (list Reference);
  (** [await deleteObject(itemRef)], by full path: [None] when the object was
      deleted, the thrown value otherwise *)
  deleteObject : string -> option exn
}.

(** The [async (itemRef) => ...] callback of both clean-up functions: the
    [catch] logs (or ignores an object that is not found) and goes on. *)
Definition deleteItem (bucket : Bucket) (st : Storage) (itemRef : Reference) : Storage :=
  match deleteObject bucket (itemFullPath itemRef) with
  | None => delete (itemFullPath itemRef) st
  | Some _ => st
  end.

(** [clearDirectoryFiles(directoryPath)]: it returns nothing and its [catch]
    swallows every exception, so what it computes is the store it leaves. *)
Definition clearDirectoryFiles (bucket : Bucket) (directoryPath : string)
    (st : Storage) : Storage :=
  match listAll bucket directoryPath with
  | Throw _ => st
  | Ok items => List.fold_left (deleteItem bucket) items st
  end.

(** [`${safeSlug}_${safeFileType}_${slotNumber}.`] *)
Definition slotPattern (safeSlug safeFileType : string) (slotNumber : nat) : string :=
  safeSlug ++ "_" ++ safeFileType ++ "_" ++ pretty slotNumber ++ ".".

(** The [filter] callback of [clearUnusedSlots]: the loop over the slot
    numbers from [usedSlotCount + 1] to [config.maxSlots]. *)
Definition isUnusedSlotFile (safeSlug safeFileType : string)
    (usedSlotCount maxSlots : nat) (fileName : string) : bool :=
  existsb (fun slotNumber => startsWith fileName (slotPattern safeSlug safeFileType slotNumber))
    (List.seq (usedSlotCount + 1) (maxSlots - usedSlotCount)).

(** [clearUnusedSlots(config, documentId, slug, fileType, usedSlotCount, subPath)] *)
Definition clearUnusedSlots (bucket : Bucket) (config : SlotConfig)
    (documentId slug fileType : string) (usedSlotCount : nat)
    (subPath : option string) (st : Storage) : Storage :=
  let prepared : result (string * string * string) :=
    bind (sanitizePathComponent documentId "documentId") (fun safeDocumentId =>
    bind (sanitizePathComponent slug "slug") (fun safeSlug =>
    bind (sanitizePathComponent fileType "fileType") (fun safeFileType =>
    bind (match truthy subPath with
          | Some sub =>
              bind (sanitizePathComponent sub "subPath") (fun safeSubPath =>
              Ok (basePath config ++ "/" ++ safeDocumentId ++ "/" ++ safeSubPath))
          | None => Ok (basePath config ++ "/" ++ safeDocumentId)
          end) (fun directory =>
    Ok (safeSlug, safeFileType, directory))))) in
  match prepared with
  | Throw _ => st
  | Ok (safeSlug, safeFileType, directory) =>
      match listAll bucket directory with
      | Throw _ => st
      | Ok items =>
          List.fold_left (deleteItem bucket)
            (List.filter
               (fun itemRef =>
                  isUnusedSlotFile safeSlug safeFileType usedSlotCount
                    (maxSlots config) (itemName itemRef))
               items)
            st
      end
  end.

(** [{ datasheetUrl?: string; brochureUrl?: string; caseStudyUrl?: string }] *)
Record ResourceUrls : Type := mkResourceUrls {
  datasheetUrl : option string;
  brochureUrl : option string;
  caseStudyUrl : option string
}.

(** [highlight.visuals] : a [File] or an array of them *)
Inductive Visuals : Type :=
| OneFile (file : File)
| Files (files : list File).

(** [Array.isArray(highlight.visuals) ? highlight.visuals : [highlight.visuals]] *)
Definition visualsArray (visuals : Visuals) : list File :=
  match visuals with
  | OneFile file => [file]
  | Files files => files
  end.

(** [`portfolio/${safeProductId}/highlights/h${highlightNumber}_v${visualNumber}.webp`] *)
Definition highlightPath (safeProductId : string) (highlightNumber visualNumber : nat)
    : string :=
  "portfolio/" ++ safeProductId ++ "/highlights/h" ++ pretty highlightNumber
    ++ "_v" ++ pretty visualNumber ++ ".webp".

(** [results.sort((a, b) => a.highlightIndex - b.highlightIndex)] : the sort
    is stable; an element goes before the first one with a larger index. *)
Fixpoint insertByIndex (x : nat * list string) (l : list (nat * list string))
    : list (nat * list string) :=
  match l with
  | [] => [x]
  | y :: l' => if (fst x <=? fst y)%nat then x :: l else y :: insertByIndex x l'
  end.

Definition sortByIndex (l : list (nat * list string)) : list (nat * list string) :=
  List.fold_right insertByIndex [] l.

Section Uploaders.
Context (sec : Security) (env : Env).

(** [`solutions/${safeSolutionId}/sections/section_${sectionNumber}`] *)
Definition sectionPath (safeSolutionId : string) (sectionNumber : nat) : string :=
  "solutions/" ++ safeSolutionId ++ "/sections/section_" ++ pretty sectionNumber.

(** The [map] callback of [uploadSectionImages], of [uploadMultipleFiles]
    and of the visuals of a highlight: the upload to the slot of the index. *)
Definition uploadToSlotPath (slotPath : nat -> string) (file : File) (index : nat)
    (sh : Shared) : result string * Shared :=
  let '(errs, st) := sh in
  let '(r, st') := uploadSingleFileWithTimeout sec env file (slotPath (index + 1)%nat) st in
  (r, (errs, st')).

(** [SolutionSlotUploader.uploadHeroImage(file, solutionId, solutionSlug)] *)
Definition uploadHeroImage (file : File) (solutionId solutionSlug : string)
    (st : Storage) : result string * Storage :=
  match sanitizePathComponent solutionId "solutionId" with
  | Throw e => (Throw e, st)
  | Ok safeSolutionId =>
      match sanitizePathComponent solutionSlug "solutionSlug" with
      | Throw e => (Throw e, st)
      | Ok safeSolutionSlug =>
          let secureExtension := getSecureExtension sec (type file) in
          let customFileName := safeSolutionSlug ++ "_hero" ++ secureExtension in
          let path := "solutions/" ++ safeSolutionId ++ "/hero/" ++ customFileName in
          uploadSingleFileWithTimeout sec env file path st
      end
  end.

(** [SolutionSlotUploader.uploadBrochure(file, solutionId, solutionSlug)] *)
Definition uploadBrochure (file : File) (solutionId solutionSlug : string)
    (st : Storage) : result string * Storage :=
  match sanitizePathComponent solutionId "solutionId" with
  | Throw e => (Throw e, st)
  | Ok safeSolutionId =>
      match sanitizePathComponent solutionSlug "solutionSlug" with
      | Throw e => (Throw e, st)
      | Ok safeSolutionSlug =>
          let secureExtension := getSecureExtension sec (type file) in
          let customFileName := safeSolutionSlug ++ "_brochure" ++ secureExtension in
          let path := "solutions/" ++ safeSolutionId ++ "/brochure/" ++ customFileName in
          uploadSingleFileWithTimeout sec env file path st
      end
  end.

(** [SolutionSlotUploader.uploadSectionImages(files, solutionId, solutionSlug)] *)
Definition uploadSectionImages (files : list File) (solutionId solutionSlug : string)
    (st : Storage) : result (list string) * Storage :=
  match sanitizePathComponent solutionId "solutionId" with
  | Throw e => (Throw e, st)
  | Ok safeSolutionId =>
      let '(uploadPromises, (_, st')) :=
        mapAsync (uploadToSlotPath (sectionPath safeSolutionId)) files 0%nat ([], st) in
      (Promise_all uploadPromises, st')
  end.

(** [GenericSlotUploader.uploadSingleFile(file, category, itemId, fileType, itemSlug)] *)
Definition uploadSingleFile (file : File) (category itemId fileType : string)
    (itemSlug : option string) (st : Storage) : result string * Storage :=
  let prepared : result string :=
    bind (sanitizePathComponent category "category") (fun safeCategory =>
    bind (sanitizePathComponent itemId "itemId") (fun safeItemId =>
    bind (sanitizePathComponent fileType "fileType") (fun safeFileType =>
    bind (match truthy itemSlug with
          | Some given => sanitizePathComponent given "itemSlug"
          | None => Ok safeItemId
          end) (fun slug =>
    let secureExtension := getSecureExtension sec (type file) in
    let customFileName := slug ++ "_" ++ safeFileType ++ secureExtension in
    Ok (safeCategory ++ "/" ++ safeItemId ++ "/" ++ safeFileType ++ "/" ++ customFileName))))) in
  match prepared with
  | Throw e => (Throw e, st)
  | Ok path => uploadSingleFileWithTimeout sec env file path st
  end.

(** [`${safeCategory}/${safeItemId}/${safeFileType}/slot_${slotNumber}`] *)
Definition genericSlotPath (safeCategory safeItemId safeFileType : string)
    (slotNumber : nat) : string :=
  safeCategory ++ "/" ++ safeItemId ++ "/" ++ safeFileType ++ "/slot_" ++ pretty slotNumber.

(** [GenericSlotUploader.uploadMultipleFiles(files, category, itemId, fileType, itemSlug)] *)
Definition uploadMultipleFiles (files : list File) (category itemId fileType : string)
    (itemSlug : option string) (st : Storage) : result (list string) * Storage :=
  let prepared : result (nat -> string) :=
    bind (sanitizePathComponent category "category") (fun safeCategory =>
    bind (sanitizePathComponent itemId "itemId") (fun safeItemId =>
    bind (sanitizePathComponent fileType "fileType") (fun safeFileType =>
    Ok (genericSlotPath safeCategory safeItemId safeFileType)))) in
  match prepared with
  | Throw e => (Throw e, st)
  | Ok slotPath =>
      let '(uploadPromises, (_, st')) :=
        mapAsync (uploadToSlotPath slotPath) files 0%nat ([], st) in
      (Promise_all uploadPromises, st')
  end.

(** [`portfolio/${safeProductId}/resources/${safeProductSlug}_${kind}${secureExtension}`],
    which the source writes out for each of the three kinds. *)
Definition resourcePath (safeProductId safeProductSlug kind : string) (file : File) : string :=
  let secureExtension := getSecureExtension sec (type file) in
  let customFileName := safeProductSlug ++ "_" ++ kind ++ secureExtension in
  "portfolio/" ++ safeProductId ++ "/resources/" ++ customFileName.

(** One of the three [if (file) { uploadPromises.push(...) }] blocks: the
    upload, [then] the pair of its kind and its URL. *)
Definition pushResource (safeProductId safeProductSlug kind : string)
    (file : option File) (pushed : list (result (string * string)) * Storage)
    : list (result (string * string)) * Storage :=
  let '(uploadPromises, st) := pushed in
  match file with
  | None => (uploadPromises, st)
  | Some file =>
      let path := resourcePath safeProductId safeProductSlug kind file in
      let '(r, st') := uploadSingleFileWithTimeout sec env file path st in
      ((uploadPromises ++ [bind r (fun url => Ok (kind, url))])%list, st')
  end.

(** The callback of [results.forEach] *)
Definition assign (resourceUrls : ResourceUrls) (result : string * string) : ResourceUrls :=
  let '(kind, url) := result in
  let resourceUrls :=
    if String.eqb kind "datasheet"
    then mkResourceUrls (Some url) (brochureUrl resourceUrls) (caseStudyUrl resourceUrls)
    else resourceUrls in
  let resourceUrls :=
    if String.eqb kind "brochure"
    then mkResourceUrls (datasheetUrl resourceUrls) (Some url) (caseStudyUrl resourceUrls)
    else resourceUrls in
  if String.eqb kind "casestudy"
  then mkResourceUrls (datasheetUrl resourceUrls) (brochureUrl resourceUrls) (Some url)
  else resourceUrls.

(** [ProductSlotUploader.uploadResources(datasheetFile, brochureFile,
    caseStudyFile, productId, productSlug)] *)
Definition uploadResources (datasheetFile brochureFile caseStudyFile : option File)
    (productId productSlug : string) (st : Storage) : result ResourceUrls * Storage :=
  match sanitizePathComponent productId "productId" with
  | Throw e => (Throw e, st)
  | Ok safeProductId =>
      match sanitizePathComponent productSlug "productSlug" with
      | Throw e => (Throw e, st)
      | Ok safeProductSlug =>
          let push := pushResource safeProductId safeProductSlug in
          let '(uploadPromises, st') :=
            push "casestudy" caseStudyFile
              (push "brochure" brochureFile
                 (push "datasheet" datasheetFile ([], st))) in
          (bind (Promise_all uploadPromises) (fun results =>
             Ok (List.fold_left assign results (mkResourceUrls None None None))), st')
      end
  end.

(** The callback of [highlights.forEach]: the uploads of the visuals of one
    highlight (their [catch] logs and rethrows), and the promise pushed. *)
Definition uploadHighlight (safeProductId : string) (highlight : Visuals)
    (highlightIndex : nat) (sh : Shared) : result (nat * list string) * Shared :=
  let '(highlightUploadPromises, sh') :=
    mapAsync
      (uploadToSlotPath (highlightPath safeProductId (highlightIndex + 1)%nat))
      (visualsArray highlight) 0%nat sh in
  (bind (Promise_all highlightUploadPromises) (fun urls => Ok (highlightIndex, urls)), sh').

(** [ProductSlotUploader.uploadHighlightVisuals(highlights, productId, productSlug)] *)
Definition uploadHighlightVisuals (highlights : list Visuals)
    (productId productSlug : string) (st : Storage)
    : result (list (list string)) * Storage :=
  match sanitizePathComponent productId "productId" with
  | Throw e => (Throw e, st)
  | Ok safeProductId =>
      let '(uploadPromises, (_, st')) :=
        mapAsync (uploadHighlight safeProductId) highlights 0%nat ([], st) in
      (bind (Promise_all uploadPromises) (fun results =>
         Ok (List.map snd (sortByIndex results))), st')
  end.

End Uploaders.

End SlotUploaders.

(** ** firebase/firebaseAuth: [sendOTP] and [verifyOTP] *)
Module PhoneAuth.

Section Firebase.
(** The objects of firebase/auth the two functions keep in [window]. *)
Context {RecaptchaVerifier ConfirmationResult : Type}.

Record Window : Type := mkWindow {
  recaptchaVerifier : option RecaptchaVerifier;
  confirmationResult : option ConfirmationResult;
  lastOtpSent : option Z
}.

Record Env : Type := mkEnv {
  (** [new RecaptchaVerifier(auth, "recaptcha-container", ...)] *)
  new_RecaptchaVerifier : result RecaptchaVerifier;
  (** what the promise of [signInWithPhoneNumber(auth, fullNumber, appVerifier)]
      settles to *)
  signInWithPhoneNumber : string -> RecaptchaVerifier -> result ConfirmationResult;
  (** [(await confirmationResult.confirm(otp)).user], then its
      [await getIdToken()] and its [phoneNumber] *)
  confirm : ConfirmationResult -> string -> result (string * option string)
}.

(** The objects the two functions return. *)
Inductive Outcome : Type :=
| Failed (error : option string)   (* [{ success: false, error }] *)
| Sent                             (* [{ success: true }] *)
| Verified (idToken : string) (phoneNumber : option string).

Definition OTP_RATE_LIMIT_MS : Z := 30000.
Definition OTP_EXPIRY_MS : Z := 5 * 60 * 1000.

(** [error.message] of a caught value *)
Definition message (e : exn) : option string :=
  match e with Error m => Some m | Thrown => None end.

(** [window.lastOtpSent && test(window.lastOtpSent)] : a time stamp that is
    not there, or is 0, is falsy. *)
Definition sentAnd (w : Window) (test : Z -> bool) : bool :=
  match lastOtpSent w with
  | Some last => negb (last =? 0) && test last
  | None => false
  end.

(** [Math.ceil((OTP_RATE_LIMIT_MS - (now - last)) / 1000)] *)
Definition remainingSeconds (now last : Z) : Z :=
  - ((- (OTP_RATE_LIMIT_MS - (now - last))) / 1000).

(** [sendOTP(phoneNumber)]; [now] is the value of [Date.now()] at the
    rate-limit check and [sentAt] its value when the promise of
    [signInWithPhoneNumber] is fulfilled. *)
Definition sendOTP (env : Env) (phoneNumber : string) (now sentAt : Z)
    (w : Window) : Outcome * Window :=
  let fullNumber := "+91" ++ phoneNumber in
  if sentAnd w (fun last => now - last <? OTP_RATE_LIMIT_MS) then
    (Failed (Some ("Please wait "
                     ++ pretty (remainingSeconds now (default 0 (lastOtpSent w)))
                     ++ " seconds before requesting another OTP")), w)
  else
    match match recaptchaVerifier w with
          | Some verifier => Ok verifier
          | None => new_RecaptchaVerifier env
          end with
    | Throw _ => (Failed (Some "Something went wrong"), w)
    | Ok appVerifier =>
        let w1 := mkWindow (Some appVerifier) (confirmationResult w) (lastOtpSent w) in
        match signInWithPhoneNumber env fullNumber appVerifier with
        | Ok confirmation =>
            (Sent, mkWindow (Some appVerifier) (Some confirmation) (Some sentAt))
        | Throw error => (Failed (message error), w1)
        end
    end.

(** [verifyOTP(otp)]; it leaves [window] as it is. *)
Definition verifyOTP (env : Env) (otp : string) (now : Z) (w : Window) : Outcome :=
  match confirmationResult w with
  | None => Failed (Some "No OTP request found. Please request a new OTP.")
  | Some confirmation =>
      if sentAnd w (fun last => OTP_EXPIRY_MS <? now - last) then
        Failed (Some "OTP has expired. Please request a new OTP.")
      else
        match confirm env confirmation otp with
        | Ok (idToken, phoneNumber) => Verified idToken phoneNumber
        | Throw error => Failed (message error)
        end
  end.

End Firebase.

Arguments Window : clear implicits.
Arguments Env : clear implicits.

End PhoneAuth.

(** ** app/api/admin/upload/route: the timer that empties the limiter *)
Module UploadRouteTimer.
Import UploadRoute.

(** The callback of [setInterval(..., 5 * 60 * 1000)], run when [Date.now()]
    is [now]: a record is deleted once its window has been over for more
    than five minutes. *)
Definition cleanup (now : Z) (store : gmap string RateRecord) : gmap string RateRecord :=
  filter (fun entry : string * RateRecord => ~ (resetTime (snd entry) + 300000 < now)) store.

End UploadRouteTimer.

(* ===================================================================== *)
(** * Part I, continued. What the properties are stated with *)
(* ===================================================================== *)

(** ** Path components *)
Module PathSpec.

(** A component the naming scheme must refuse: empty, longer than 100
    characters, or with a character outside [[A-Za-z0-9_-]]. *)
Definition unsafe (s : string) : Prop :=
  s = "" \/ (100 < String.length s)%nat \/
  exists c, In c (chars s) /\ is_word c = false.

(** A component made of 1 to 100 characters of [[A-Za-z0-9_-]]. *)
Definition safe (s : string) : Prop :=
  s <> "" /\ (String.length s <= 100)%nat /\
  forall c, In c (chars s) -> is_word c = true.

(** Every character of the string is in the class. *)
Definition all (class : ascii -> bool) (s : string) : bool :=
  forallb class (chars s).

Definition not_slash (c : ascii) : bool := negb (Ascii.eqb c "/").

End PathSpec.

(** ** Outcome of [uploadToSlots] *)
Module SlotSpec.
Import FirebaseAuth FileUploadSecurity SlotBasedUpload PathSpec.

Section Call.
Context (sec : Security) (env : Env)
        (config : SlotConfig) (documentId slug fileType : string)
        (subPath : option string) (startIndex : nat).

(** The file passes [validateFile]. *)
Definition validates (file : File) : Prop :=
  exists r, validateFile sec file = Ok r /\ isValid r = true.

(** Every path component of the call is one [sanitizePathComponent] takes. *)
Definition components_ok : Prop :=
  safe documentId /\ safe slug /\ safe fileType /\
  match truthy subPath with Some sub => safe sub | None => True end.

(** The entry owed to the file at [index]: it validated, its name and slot
    path were formed, a user was signed in, the store took the object and
    gave its URL. [None] for a [null] file and for a file that failed. *)
Definition expectedSlot (index : nat) (file : option File) : option UploadSlot :=
  match file with
  | None => None
  | Some f =>
      match validateFile sec f with
      | Ok r =>
          if isValid r then
            match generateCustomFilename sec slug fileType f (Some index) (sanitizedName r) with
            | Ok filename =>
                match generateSlotPath config documentId filename subPath with
                | Ok path =>
                    match currentUser env,
                          uploadBytes env (fullPath env path f) f,
                          getDownloadURL env (fullPath env path f) with
                    | Some _, None, Ok url =>
                        Some (mkUploadSlot (startIndex + index + 1) path filename url)
                    | _, _, _ => None
                    end
                | Throw _ => None
                end
            | Throw _ => None
            end
          else None
      | Throw _ => None
      end
  end.

(** A file that is there and got no entry. *)
Definition failed (index : nat) (file : option File) : bool :=
  match file, expectedSlot index file with
  | Some _, None => true
  | _, _ => false
  end.

(** What the promise of the file at [index] settles to, and the messages its
    callback pushes, from a state with no message and an empty store. *)
Definition settles (index : nat) (file : option File) : result (option UploadSlot) :=
  fst (uploadSlot sec env config documentId slug fileType subPath startIndex
         file index ([], ∅)).

Definition reports (index : nat) (file : option File) : list string :=
  fst (snd (uploadSlot sec env config documentId slug fileType subPath startIndex
              file index ([], ∅))).

End Call.

End SlotSpec.

(** ** Reading a value inside a form object *)
Module FormSpec.
Import FirebaseAuth.

(** A [File] at any depth. *)
Fixpoint hasFile (v : value) : bool :=
  match v with
  | VPrim _ | VDate _ => false
  | VFile _ => true
  | VArray l => existsb hasFile l
  | VObject o => existsb (fun kv => hasFile (snd kv)) o
  end.

(** [o[key]] on an object *)
Definition property (key : string) (o : list (string * value)) : option value :=
  snd <$> List.find (fun kv => String.eqb (fst kv) key) o.

(** A path into a value: property names and array indices. *)
Inductive step : Type :=
| Key (key : string)
| Index (i : nat).

Fixpoint get (p : list step) (v : value) : option value :=
  match p with
  | [] => Some v
  | s :: p' =>
      match s, v with
      | Key k, VObject o =>
          match property k o with Some x => get p' x | None => None end
      | Index i, VArray l =>
          match l !! i with Some x => get p' x | None => None end
      | _, _ => None
      end
  end.

(** The number of [File]s among the first [i] elements of an array. *)
Definition filesBefore (i : nat) (l : list value) : nat :=
  length (List.filter isFile (firstn i l)).

(** Where the value at path [p] of the input is found in the output. Keys of
    objects stay. An element of an array that is a field moves down by the
    number of [File]s before it. An array that is an element of an array has
    been spread into an object: its indices have become keys. *)
Inductive place : Type :=
| Spread   (* the value [removeFileObjects] is applied to *)
| Field.   (* the value of a property *)

Fixpoint relocate (m : place) (v : value) (p : list step) : list step :=
  match p with
  | [] => []
  | s :: p' =>
      match m, v, s with
      | _, VObject o, Key k =>
          Key k :: match property k o with
                   | Some x => relocate Field x p'
                   | None => []
                   end
      | Spread, VArray l, Index i =>
          Key (pretty i) :: match l !! i with
                            | Some x => relocate Field x p'
                            | None => []
                            end
      | Field, VArray l, Index i =>
          Index (i - filesBefore i l) :: match l !! i with
                                          | Some y => relocate Spread y p'
                                          | None => []
                                          end
      | _, _, _ => []
      end
  end.

(** The two loops of [removeFileObjectsOf], by name. *)
Fixpoint fields (o : list (string * value)) : list (string * value) :=
  match o with
  | [] => []
  | (key, x) :: o' =>
      match processField removeFileObjectsOf x with
      | Some y => (key, y) :: fields o'
      | None => fields o'
      end
  end.

Fixpoint indexed (i : nat) (l : list value) : list (string * value) :=
  match l with
  | [] => []
  | x :: l' =>
      match processField removeFileObjectsOf x with
      | Some y => (pretty i, y) :: indexed (S i) l'
      | None => indexed (S i) l'
      end
  end.

(** What an element of an array field becomes. *)
Definition item (y : value) : value :=
  match y with
  | VArray _ | VObject _ | VDate _ => VObject (removeFileObjectsOf y)
  | _ => y
  end.

End FormSpec.

(** ** Requests served by the limiter *)
Module RateSpec.
Import UploadRoute.

(** The limiter serving, in order, requests given by key and by the value of
    [Date.now()] at each: the decisions and the store left. *)
Fixpoint serve (store : gmap string RateRecord) (trace : list (string * Z))
    : list bool * gmap string RateRecord :=
  match trace with
  | [] => ([], store)
  | (key, now) :: rest =>
      let '(r, store') := checkUploadRateLimit key now store in
      let '(ds, store'') := serve store' rest in
      (success r :: ds, store'')
  end.

(** From an empty store. *)
Definition decisions (trace : list (string * Z)) : list bool :=
  fst (serve ∅ trace).

(** The clock does not go back along the trace. *)
Fixpoint time_ordered (trace : list (string * Z)) : bool :=
  match trace with
  | (_, t) :: (((_, t') :: _) as rest) => (t <=? t') && time_ordered rest
  | _ => true
  end.

(** The requests for [key] in a trace, and those of them that were allowed. *)
Definition requestsFor (key : string) (trace : list (string * Z)) : nat :=
  length (List.filter (fun kt => String.eqb (fst kt) key) trace).

Definition allowedFor (key : string) (trace : list (string * Z))
    (ds : list bool) : nat :=
  length (List.filter (fun e => String.eqb (fst (fst e)) key && snd e)
            (zip trace ds)).

(** The allowed requests for [key] made at a time from [lo] to [hi]. *)
Definition allowedBetween (key : string) (lo hi : Z) (trace : list (string * Z))
    (ds : list bool) : nat :=
  length (List.filter
            (fun e => String.eqb (fst (fst e)) key && snd e
                      && (lo <=? snd (fst e)) && (snd (fst e) <=? hi))
            (zip trace ds)).

(** A sliding window, in the words of the claim: a request is allowed exactly
    when fewer than 20 requests for its key were allowed in the 60 seconds
    before it. *)
Definition sliding_window (trace : list (string * Z)) : Prop :=
  forall i key now,
    trace !! i = Some (key, now) ->
    (decisions trace !! i = Some true <->
     (allowedBetween key (now - windowMs) now
        (firstn i trace) (firstn i (decisions trace)) < 20)%nat).

End RateSpec.

(** ** Tokens and responses of the middleware *)
Module MiddlewareSpec.
Import Middleware.

(** The member [key] of a decoded object; nothing for any other value. *)
Definition member (v : json) (key : string) : option json :=
  match v with
  | JObject o => snd <$> List.find (fun kv => String.eqb (fst kv) key) o
  | _ => None
  end.

(** [undefined], [null], [false], [0] and the empty string. *)
Definition falsy (x : option json) : Prop :=
  x = None \/ x = Some JNull \/ x = Some (JBool false) \/
  x = Some (JNumber 0) \/ x = Some (JString "").

Definition isObject (x : option json) : Prop :=
  (exists o, x = Some (JObject o)) \/ (exists l, x = Some (JArray l)).

Definition issuerPrefix : string := "https://securetoken.google.com/".

(** The header the validation accepts: algorithm RS256 and a key id of at
    least 10 characters. *)
Definition headerAccepted (header : json) : Prop :=
  member header "alg" = Some (JString "RS256") /\
  exists kid, member header "kid" = Some (JString kid) /\
              (10 <= String.length kid)%nat.

(** The payload the validation accepts, at [now] seconds. *)
Definition payloadAccepted (env : Env) (payload : json) : Prop :=
  let now := Date_now env / 1000 in
  exists iss aud sub exp iat,
    member payload "iss" = Some (JString iss) /\
    startsWith iss issuerPrefix = true /\
    member payload "aud" = Some (JString aud) /\ (3 <= String.length aud)%nat /\
    member payload "sub" = Some (JString sub) /\ (10 <= String.length sub)%nat /\
    member payload "exp" = Some (JNumber exp) /\ exp <> 0 /\
    member payload "iat" = Some (JNumber iat) /\ iat <> 0 /\
    now < exp /\ iat <= now + 300 /\ now - iat <= 3600 /\
    (forall project, projectId env = Some project ->
       iss = issuerPrefix ++ project /\ aud = project) /\
    (falsy (member payload "firebase") \/ isObject (member payload "firebase")) /\
    (falsy (member payload "auth_time") \/
     exists t, member payload "auth_time" = Some (JNumber t) /\ t <= now).

(** The token the validation accepts: three parts separated by dots, of
    which the first two decode to an accepted header and payload. *)
Definition tokenAccepted (env : Env) (token : string) : Prop :=
  exists p0 p1 p2 header payload,
    split "." token = [p0; p1; p2] /\
    JSON_parse_atob env (base64 p0) = Some header /\
    headerAccepted header /\
    JSON_parse_atob env (base64 p1) = Some payload /\
    payloadAccepted env payload.

(** The structure of a token in the words of the claim on admin pages:
    three parts, an RS256 header with a kid, the issuer of the project, an
    audience and a subject that are not empty, numeric [exp] and [iat], not
    expired, issued no more than one hour ago. *)
Definition claimedStructure (env : Env) (token : string) : Prop :=
  let now := Date_now env / 1000 in
  exists p0 p1 p2 header payload kid project aud sub exp iat,
    split "." token = [p0; p1; p2] /\
    JSON_parse_atob env (base64 p0) = Some header /\
    JSON_parse_atob env (base64 p1) = Some payload /\
    member header "alg" = Some (JString "RS256") /\
    member header "kid" = Some (JString kid) /\ kid <> "" /\
    NEXT_PUBLIC_FIREBASE_PROJECT_ID env = Some project /\
    member payload "iss" = Some (JString (issuerPrefix ++ project)) /\
    member payload "aud" = Some (JString aud) /\ aud <> "" /\
    member payload "sub" = Some (JString sub) /\ sub <> "" /\
    member payload "exp" = Some (JNumber exp) /\
    member payload "iat" = Some (JNumber iat) /\
    now < exp /\ now - iat <= 3600.

(** A validation step that returned, and returned [isValid: true]. *)
Definition accepted (r : result Validation) : bool :=
  match r with Ok v => isValid v | Throw _ => false end.

(** The request is one the bot filter blocks. *)
Definition blockedBot (env : Env) (request : NextRequest) : bool :=
  production env
  && isSuspiciousBot (default "" (headers request !! "user-agent"))
  && negb (startsWith (pathname request) "/api/").

(** The response carries every security header with its value. *)
Definition carriesSecurityHeaders (env : Env) (response : NextResponse) : Prop :=
  forall name value,
    In (name, value) (securityHeaders env) ->
    responseHeaders response !! name = Some value.

(** The headers the claims name. *)
Definition namedSecurityHeaders : list string :=
  [ "X-Content-Type-Options"; "X-Frame-Options"; "X-XSS-Protection";
    "Referrer-Policy"; "Permissions-Policy"; "Content-Security-Policy" ].

(** The origins allowed, in the words of the claim. *)
Definition allowedList (env : Env) : list string :=
  if String.eqb (NODE_ENV env) "production"
  then [ "https://consortdigital.com"; "https://www.consortdigital.com" ]
  else [ "http://localhost:3000"; "https://localhost:3000" ].

End MiddlewareSpec.

(** ** The limiter over a trace, by key *)
Module LimiterSpec.
Import UploadRoute RateSpec UploadRouteTimer.

(** The decisions made on the requests for [key] of a trace, in order. *)
Definition decisionsFor (key : string) (trace : list (string * Z))
    (ds : list bool) : list bool :=
  List.map snd (List.filter (fun e => String.eqb (fst (fst e)) key) (zip trace ds)).

(** The requests of a trace that are for [key]. *)
Definition requestsOf (key : string) (trace : list (string * Z)) : list (string * Z) :=
  List.filter (fun kt => String.eqb (fst kt) key) trace.

(** The stores agree, up to records whose window was over at [now]. *)
Definition agree_from (now : Z) (s1 s2 : gmap string RateRecord) : Prop :=
  forall k,
    s1 !! k = s2 !! k \/
    (s1 !! k = None /\ exists r, s2 !! k = Some r /\ resetTime r < now).

(** Every record counts between 0 and [maxRequests]. *)
Definition counts_bounded (store : gmap string RateRecord) : Prop :=
  forall k r, store !! k = Some r -> 0 <= count r <= maxRequests.

End LimiterSpec.

(** ** Values [removeFileObjects] leaves as they are *)
Module PlainSpec.
Import FirebaseAuth.

Definition isArray (v : value) : bool :=
  match v with VArray _ => true | _ => false end.

(** A value with no [File] and no [Date] at any depth, and no array that is
    an element of an array. *)
Fixpoint plain (v : value) : bool :=
  match v with
  | VPrim _ => true
  | VFile _ | VDate _ => false
  | VArray l => forallb (fun x => negb (isArray x) && plain x) l
  | VObject o => forallb (fun kv => plain (snd kv)) o
  end.

End PlainSpec.

(** ** Sanitized paths *)
Module SegmentSpec.
Import FirebaseAuth.

(** The segments [sanitizedPath] joins. *)
Definition segments (path : string) : list string :=
  List.map (replace_outside is_segment_char "_")
    (List.filter (fun segment => negb (String.eqb segment "")) (split "/" path)).

(** A segment as [sanitizedPath] leaves it: not empty, and made of
    [[a-zA-Z0-9\-_\.]]. *)
Definition clean (segment : string) : Prop :=
  segment <> "" /\ PathSpec.all is_segment_char segment = true.

End SegmentSpec.

(** ** Outcome of one upload *)
Module UploadSpec.
Import FirebaseAuth FileUploadSecurity SlotBasedUpload.

(** What the promise of one upload settles to; it does not depend on the
    objects already stored. *)
Definition uploadOutcome (sec : Security) (env : Env) (file : File)
    (path : string) : result string :=
  fst (uploadSingleFileWithTimeout sec env file path ∅).

End UploadSpec.

(** ** Windows of the limiter *)
Module WindowSpec.
Import UploadRoute RateSpec.

(** A bound on the requests for [key] that can still be allowed at times
    from [lo] to [lo + windowMs], when the requests to come are made at
    [earliest] or later: what is left of the window of the record when it
    reaches the end of the interval; that and one more window when it ends
    inside the interval; otherwise two windows less the request that opens
    the first, which is made before the interval if the second window is to
    start inside it. *)
Definition budget (key : string) (lo : Z) (store : gmap string RateRecord)
    (earliest : Z) : Z :=
  let hi := lo + windowMs in
  if hi <? earliest then 0
  else match store !! key with
       | None => 2 * maxRequests - 1
       | Some r =>
           if hi <=? resetTime r then maxRequests - count r
           else if lo <=? resetTime r then 2 * maxRequests - count r
           else 2 * maxRequests - 1
       end.

End WindowSpec.

(* ===================================================================== *)
(** * Part II. Properties *)
(* ===================================================================== *)

(** ** Strings *)
Module StringFacts.

Lemma app_cons (c : ascii) (s t : string) : String c s ++ t = String c (s ++ t).
Proof. reflexivity. Qed.

Lemma app_nil (t : string) : "" ++ t = t.
Proof. reflexivity. Qed.

Lemma prefix_spec (p s : string) :
  String.prefix p s = true <-> exists r, s = p ++ r.
Proof.
  revert s. induction p as [|c p IH]; intros s.
  - destruct s; simpl; split; eauto.
  - destruct s as [|d s]; simpl.
    + split; [discriminate | intros [r Hr]; discriminate].
    + destruct (Ascii.ascii_dec c d) as [->|Hne].
      * rewrite IH. split; intros [r Hr]; exists r; rewrite app_cons in *; congruence.
      * split; [discriminate | intros [r Hr]; rewrite app_cons in Hr; congruence].
Qed.

Lemma startsWith_app (p r : string) : startsWith (p ++ r) p = true.
Proof. apply prefix_spec. eauto. Qed.

Lemma length_app (s t : string) :
  String.length (s ++ t) = (String.length s + String.length t)%nat.
Proof. induction s; rewrite ?app_cons, ?app_nil; simpl; congruence. Qed.

Lemma app_inv_head (s t u : string) : s ++ t = s ++ u -> t = u.
Proof.
  induction s; rewrite ?app_cons, ?app_nil; intros H;
    [assumption | injection H; auto].
Qed.

Lemma app_assoc (s t u : string) : (s ++ t) ++ u = s ++ t ++ u.
Proof. induction s; rewrite ?app_cons, ?app_nil; congruence. Qed.

Lemma chars_app (s t : string) : chars (s ++ t) = (chars s ++ chars t)%list.
Proof.
  induction s; rewrite ?app_cons, ?app_nil; unfold chars in *; simpl; congruence.
Qed.

Lemma chars_inj (s t : string) : chars s = chars t -> s = t.
Proof.
  unfold chars. intros H.
  rewrite <- (string_of_list_ascii_of_string s), <- (string_of_list_ascii_of_string t).
  congruence.
Qed.

Lemma app_inv_tail (s t u : string) : s ++ u = t ++ u -> s = t.
Proof.
  intros H. apply chars_inj. apply (List.app_inv_tail (chars u)).
  rewrite <- !chars_app. congruence.
Qed.

(** A word character is neither a slash nor a dot. *)
Lemma is_word_not_separator (c : ascii) :
  is_word c = true -> c <> "/"%char /\ c <> "."%char.
Proof. intros H; split; intros ->; vm_compute in H; discriminate. Qed.

End StringFacts.

(** ** Path components ([sanitizePathComponent], [generateSlotPath],
       [generateCustomFilename]) *)
Module PathComponents.
Import FileUploadSecurity SlotBasedUpload StringFacts.
Export PathSpec.

Lemma safe_not_unsafe (s : string) : safe s -> ~ unsafe s.
Proof.
  intros (Hne & Hlen & Hall) [He | [Hl | (c & Hin & Hc)]].
  - contradiction.
  - lia.
  - rewrite (Hall c Hin) in Hc. discriminate.
Qed.

Lemma forallb_false_witness {A} (f : A -> bool) (l : list A) :
  forallb f l = false -> exists x, In x l /\ f x = false.
Proof.
  induction l as [|a l IH]; simpl; [discriminate|].
  destruct (f a) eqn:Ha; simpl.
  - intros H. destruct (IH H) as (x & Hx & Hf). eauto.
  - intros _. eauto.
Qed.

(** The three tests of [sanitizePathComponent] are exactly [unsafe]. *)
Lemma sanitize_Ok (input fieldName : string) :
  safe input -> sanitizePathComponent input fieldName = Ok input.
Proof.
  intros (Hne & Hlen & Hall). unfold sanitizePathComponent, test_word.
  destruct (String.eqb_spec input "") as [->|_]; [contradiction|].
  assert (forallb is_word (chars input) = true) as ->
    by (apply forallb_forall; exact Hall).
  simpl. destruct (Nat.ltb_spec 100 (String.length input)); [lia | reflexivity].
Qed.

Lemma sanitize_Throw (input fieldName : string) :
  unsafe input -> is_throw (sanitizePathComponent input fieldName) = true.
Proof.
  intros Hu. unfold sanitizePathComponent, test_word.
  destruct (String.eqb_spec input "") as [->|Hne]; [reflexivity|].
  simpl. destruct (forallb is_word (chars input)) eqn:Hall; simpl; [|reflexivity].
  destruct (Nat.ltb_spec 100 (String.length input)); [reflexivity|].
  destruct Hu as [He | [Hl | (c & Hin & Hc)]]; [contradiction | lia |].
  rewrite forallb_forall in Hall. rewrite (Hall c Hin) in Hc. discriminate.
Qed.

Lemma sanitize_cases (input fieldName : string) :
  (safe input /\ sanitizePathComponent input fieldName = Ok input) \/
  (unsafe input /\ is_throw (sanitizePathComponent input fieldName) = true).
Proof.
  unfold sanitizePathComponent, test_word, safe, unsafe.
  destruct (String.eqb_spec input "") as [->|Hne]; [right; auto|].
  simpl. destruct (forallb is_word (chars input)) eqn:Hall; simpl.
  - destruct (Nat.ltb_spec 100 (String.length input)).
    + right. auto.
    + left. rewrite forallb_forall in Hall. auto.
  - right. split; [|reflexivity]. right; right.
    apply forallb_false_witness. exact Hall.
Qed.

Lemma sanitize_inv (input fieldName out : string) :
  sanitizePathComponent input fieldName = Ok out -> out = input /\ safe input.
Proof.
  intros H. destruct (sanitize_cases input fieldName) as [[Hs Ho] | [_ Ht]].
  - rewrite Ho in H. injection H as <-. auto.
  - rewrite H in Ht. discriminate.
Qed.

Lemma safe_no_separator (s : string) :
  safe s -> forall c, In c (chars s) -> c <> "/"%char /\ c <> "."%char.
Proof. intros (_ & _ & Hall) c Hc. apply is_word_not_separator. auto. Qed.

End PathComponents.

Module SlotPaths.
Import FileUploadSecurity SlotBasedUpload StringFacts PathComponents.

(** C8, as stated, fails for a [subPath]: an empty one is an unsafe
    component, yet [generateSlotPath] takes it for an absent argument and
    returns a path. It fails for the file name too, which is not a checked
    component: [generateCustomFilename] copies the start of
    [sanitizedOriginalName] into it, and [generateSlotPath] takes the name as
    it is given, dots and slashes included. *)
Lemma empty_subPath_is_not_rejected :
  let sec := mkSecurity (fun _ => Throw Thrown) (fun _ => ".webp") in
  let file := mkFile "a.png" "image/png" 3 "abc" in
  (unsafe "" /\
   generateSlotPath productGallery "doc1" "photo_1.webp" (Some "")
     = Ok "portfolio/doc1/photo_1.webp") /\
  (generateCustomFilename sec "radio" "photo" file (Some 0%nat) (Some "../../x.png")
     = Ok "radio_photo_../../x_1.webp" /\
   generateSlotPath productGallery "doc1" "radio_photo_../../x_1.webp" None
     = Ok "portfolio/doc1/radio_photo_../../x_1.webp").
Proof.
  intros sec file. split; split; try reflexivity. left. reflexivity.
Qed.

(** C8, amended. [generateSlotPath] throws for every unsafe [documentId]
    and every unsafe non-empty [subPath] (an empty [subPath] counts as
    absent), and [generateCustomFilename] for every unsafe [slug] or
    [fileType]. A path that is returned is the trusted base path, the
    [documentId], the [subPath] when one is given, and the file name, joined
    by slashes; the [documentId] and [subPath] in it are safe components:
    1 to 100 characters of [[A-Za-z0-9_-]], hence without a slash or a dot.
    A file name that is returned starts with the safe [slug] and
    [fileType]; the rest of it is not checked. *)
Theorem slot_path_components_are_sanitized
    (sec : Security) (config : SlotConfig)
    (documentId filename slug fileType : string)
    (subPath original : option string) (file : File) (index : option nat) :
  (unsafe documentId ->
     is_throw (generateSlotPath config documentId filename subPath) = true) /\
  (forall sub, subPath = Some sub -> sub <> "" -> unsafe sub ->
     is_throw (generateSlotPath config documentId filename subPath) = true) /\
  (unsafe slug \/ unsafe fileType ->
     is_throw (generateCustomFilename sec slug fileType file index original) = true) /\
  (forall p, generateSlotPath config documentId filename subPath = Ok p ->
     safe documentId /\
     match truthy subPath with
     | Some sub =>
         safe sub /\
         p = basePath config ++ "/" ++ documentId ++ "/" ++ sub ++ "/" ++ filename
     | None => p = basePath config ++ "/" ++ documentId ++ "/" ++ filename
     end) /\
  (forall n, generateCustomFilename sec slug fileType file index original = Ok n ->
     safe slug /\ safe fileType /\
     exists rest, n = slug ++ "_" ++ fileType ++ rest) /\
  (forall s, safe s ->
     forall c, In c (chars s) -> c <> "/"%char /\ c <> "."%char).
Proof.
  refine (conj _ (conj _ (conj _ (conj _ (conj _ _))))).
  - intros Hu. unfold generateSlotPath.
    destruct (sanitizePathComponent documentId "documentId") eqn:Hd; [|reflexivity].
    apply sanitize_inv in Hd as [_ Hs]. destruct (safe_not_unsafe _ Hs Hu).
  - intros sub -> Hne Hu. unfold generateSlotPath.
    destruct (sanitizePathComponent documentId "documentId"); [|reflexivity].
    simpl. destruct (String.eqb_spec sub ""); [contradiction|].
    destruct (sanitizePathComponent sub "subPath") eqn:Hsub; [|reflexivity].
    apply sanitize_inv in Hsub as [_ Hs]. destruct (safe_not_unsafe _ Hs Hu).
  - intros Hu. unfold generateCustomFilename.
    destruct (sanitizePathComponent slug "slug") eqn:Hslug; [|reflexivity].
    simpl. destruct (sanitizePathComponent fileType "fileType") eqn:Hft; [|reflexivity].
    apply sanitize_inv in Hslug as [_ Hs1]. apply sanitize_inv in Hft as [_ Hs2].
    destruct Hu as [Hu|Hu]; [destruct (safe_not_unsafe _ Hs1 Hu)
                            | destruct (safe_not_unsafe _ Hs2 Hu)].
  - intros p H. unfold generateSlotPath in H.
    destruct (sanitizePathComponent documentId "documentId") eqn:Hd;
      [|discriminate]. apply sanitize_inv in Hd as [-> Hsafe]. simpl in H.
    split; [exact Hsafe|].
    destruct (truthy subPath) as [sub|].
    + destruct (sanitizePathComponent sub "subPath") eqn:Hsub; [|discriminate].
      apply sanitize_inv in Hsub as [-> Hs]. simpl in H. split; congruence.
    + congruence.
  - intros n H. unfold generateCustomFilename in H.
    destruct (sanitizePathComponent slug "slug") eqn:Hslug; [|discriminate].
    apply sanitize_inv in Hslug as [-> Hs1]. simpl in H.
    destruct (sanitizePathComponent fileType "fileType") eqn:Hft; [|discriminate].
    apply sanitize_inv in Hft as [-> Hs2]. simpl in H.
    split; [exact Hs1|]. split; [exact Hs2|].
    destruct (truthy original), index; injection H as <-;
      rewrite ?app_assoc; eauto.
  - exact safe_no_separator.
Qed.

(** The theorem at a traversal attempt in each argument, and at a
    well-formed call. *)
Lemma slot_path_components_witness :
  is_throw (generateSlotPath productGallery "../secrets" "a.webp" None) = true /\
  is_throw (generateSlotPath productGallery "doc1" "a.webp" (Some "x/../y")) = true /\
  is_throw (generateCustomFilename (mkSecurity (fun _ => Throw Thrown) (fun _ => ".webp"))
              "my slug" "photo" (mkFile "a.png" "image/png" 3 "abc") (Some 0%nat) None)
    = true /\
  safe "doc1" /\ safe "gallery".
Proof.
  set (sec := mkSecurity (fun _ => Throw Thrown) (fun _ => ".webp")).
  set (file := mkFile "a.png" "image/png" 3 "abc").
  destruct (slot_path_components_are_sanitized sec productGallery
              "../secrets" "a.webp" "my slug" "photo" (Some "x/../y") None
              file (Some 0%nat)) as (_ & Hsub & Hname & _).
  destruct (slot_path_components_are_sanitized sec productGallery
              "../secrets" "a.webp" "my slug" "photo" None None
              file (Some 0%nat)) as (Hdoc & _).
  destruct (slot_path_components_are_sanitized sec productGallery
              "doc1" "a.webp" "slug" "photo" (Some "gallery") None
              file (Some 0%nat)) as (_ & _ & _ & Hshape & _).
  split; [|split; [|split]].
  - apply Hdoc. right; right. exists "."%char. split; [simpl; auto | reflexivity].
  - apply (Hsub "x/../y" eq_refl); [discriminate|].
    right; right. exists "/"%char. split; [simpl; auto | reflexivity].
  - apply Hname. left. right; right. exists " "%char.
    split; [simpl; auto 10 | reflexivity].
  - destruct (Hshape "portfolio/doc1/gallery/a.webp" eq_refl) as (Hd & Hs & _).
    exact (conj Hd Hs).
Defined.

End SlotPaths.

(** ** [uploadToSlots] *)
Module SlotUploads.
Import FirebaseAuth FileUploadSecurity SlotBasedUpload StringFacts PathComponents.
Import SlotSpec.

(** [Promise.all] rejects exactly when one of the promises does; otherwise
    it yields their values in order. *)
Lemma Promise_all_Ok {A} (l : list (result A)) (vs : list A) :
  Promise_all l = Ok vs -> l = List.map Ok vs.
Proof.
  revert vs. induction l as [|[a|e] l IH]; intros vs H; simpl in H.
  - injection H as <-. reflexivity.
  - destruct (Promise_all l) as [vs'|]; [|discriminate].
    injection H as <-. simpl. f_equal. auto.
  - discriminate.
Qed.

Lemma Promise_all_is_throw {A} (l : list (result A)) :
  is_throw (Promise_all l) = true <->
  exists i r, l !! i = Some r /\ is_throw r = true.
Proof.
  induction l as [|[a|e] l IH]; simpl.
  - split; [discriminate | intros (i & r & H & _); discriminate].
  - destruct (Promise_all l) as [vs|e]; simpl in *.
    + split; [discriminate|]. intros ([|i] & r & H & Hr); simpl in H.
      * injection H as <-. discriminate.
      * apply IH. eauto.
    + split; [|reflexivity]. intros _.
      destruct (proj1 IH eq_refl) as (i & r & H & Hr). exists (S i), r. auto.
  - split; [|reflexivity]. intros _. exists 0%nat, (Throw e). auto.
Qed.

Lemma Promise_all_values {A B} (files : list A)
    (g : nat -> A -> result B) (e : nat -> A -> B) (vs : list B) :
  Promise_all (imap g files) = Ok vs ->
  (forall i file x, files !! i = Some file -> g i file = Ok x -> x = e i file) ->
  vs = imap e files.
Proof.
  revert g e vs. induction files as [|file files IH]; intros g e vs H Hge; simpl in *.
  - injection H as <-. reflexivity.
  - destruct (g 0%nat file) as [x|] eqn:Hg; [|discriminate].
    destruct (Promise_all (imap (g ∘ S) files)) as [vs'|] eqn:Hall; [|discriminate].
    injection H as <-. f_equal.
    + apply (Hge 0%nat file x); auto.
    + apply (IH (g ∘ S) (e ∘ S)); [assumption|].
      intros i f y Hi Hy. apply (Hge (S i) f y); auto.
Qed.

Lemma length_concat_imap {A B} (files : list A)
    (r : nat -> A -> list B) (b : nat -> A -> bool) :
  (forall i file, files !! i = Some file ->
     length (r i file) = if b i file then 1%nat else 0%nat) ->
  length (concat (imap r files)) = length (List.filter (fun x => x) (imap b files)).
Proof.
  revert r b. induction files as [|file files IH]; intros r b H; simpl; [reflexivity|].
  rewrite List.length_app, (H 0%nat file eq_refl).
  rewrite (IH (r ∘ S) (b ∘ S)) by (intros i f Hi; apply (H (S i) f); auto).
  destruct (b 0%nat file); reflexivity.
Qed.

Section Call.
Context (sec : Security) (env : Env)
        (config : SlotConfig) (documentId slug fileType : string)
        (subPath : option string) (startIndex : nat).

Local Abbreviation callback :=
  (uploadSlot sec env config documentId slug fileType subPath startIndex).
Local Abbreviation ok := (components_ok documentId slug fileType subPath).

Local Abbreviation settles :=
  (SlotSpec.settles sec env config documentId slug fileType subPath startIndex).
Local Abbreviation reports :=
  (SlotSpec.reports sec env config documentId slug fileType subPath startIndex).

Lemma uploadSlot_state_independent file index errs st :
  fst (callback file index (errs, st)) = settles index file /\
  fst (snd (callback file index (errs, st))) = (errs ++ reports index file)%list.
Proof.
  unfold settles, reports, uploadSlot.
  destruct file as [f|]; simpl; [|rewrite app_nil_r; auto].
  destruct (validateFile sec f) as [r|e] eqn:Hv; simpl; [|auto].
  destruct (isValid r) eqn:Hr; simpl; [|auto].
  destruct (generateCustomFilename sec slug fileType f (Some index) (sanitizedName r));
    simpl; [|rewrite app_nil_r; auto].
  destruct (generateSlotPath config documentId a subPath);
    simpl; [|rewrite app_nil_r; auto].
  unfold uploadSingleFileWithTimeout, uploadDoc. rewrite Hv, Hr. simpl.
  destruct (currentUser env); simpl; [|auto].
  destruct (uploadBytes env (fullPath env a0 f) f); simpl; [auto|].
  destruct (getDownloadURL env (fullPath env a0 f)); simpl;
    rewrite ?app_nil_r; auto.
Qed.

Lemma mapAsync_uploadSlot files index errs st :
  fst (mapAsync callback files index (errs, st))
    = imap (fun i => settles (index + i)) files /\
  fst (snd (mapAsync callback files index (errs, st)))
    = (errs ++ concat (imap (fun i => reports (index + i)) files))%list.
Proof.
  revert index errs st. induction files as [|file files IH]; intros index errs st.
  - simpl. rewrite app_nil_r. auto.
  - cbn [mapAsync].
    destruct (uploadSlot_state_independent file index errs st) as [H1 H2].
    destruct (callback file index (errs, st)) as [r [errs1 st1]]. simpl in H1, H2.
    destruct (IH (S index) errs1 st1) as [H3 H4].
    destruct (mapAsync callback files (S index) (errs1, st1)) as [rs [errs2 st2]].
    simpl in H3, H4 |- *. subst.
    rewrite Nat.add_0_r. split.
    + f_equal. apply imap_ext. intros i x _. simpl. f_equal. lia.
    + rewrite <- List.app_assoc. do 3 f_equal.
      apply imap_ext. intros i x _. simpl. f_equal. lia.
Qed.

Lemma generateCustomFilename_cases (f : File) (index : option nat)
    (original : option string) :
  (safe slug /\ safe fileType /\
   exists n, generateCustomFilename sec slug fileType f index original = Ok n) \/
  (~ (safe slug /\ safe fileType) /\
   exists e, generateCustomFilename sec slug fileType f index original = Throw e).
Proof.
  unfold generateCustomFilename.
  destruct (sanitize_cases slug "slug") as [[Hs ->] | [Hu Ht]]; simpl.
  - destruct (sanitize_cases fileType "fileType") as [[Hs' ->] | [Hu Ht]]; simpl.
    + left. split; [assumption | split; [assumption|]].
      destruct (truthy original), index; eauto.
    + right. split; [intros [_ Hs']; exact (safe_not_unsafe _ Hs' Hu)|].
      destruct (sanitizePathComponent fileType "fileType"); [discriminate | eauto].
  - right. split; [intros [Hs _]; exact (safe_not_unsafe _ Hs Hu)|].
    destruct (sanitizePathComponent slug "slug"); [discriminate | eauto].
Qed.

Lemma generateSlotPath_cases (filename : string) :
  let sub_ok := match truthy subPath with Some sub => safe sub | None => True end in
  (safe documentId /\ sub_ok /\
   exists p, generateSlotPath config documentId filename subPath = Ok p) \/
  (~ (safe documentId /\ sub_ok) /\
   exists e, generateSlotPath config documentId filename subPath = Throw e).
Proof.
  unfold generateSlotPath.
  destruct (sanitize_cases documentId "documentId") as [[Hs ->] | [Hu Ht]]; simpl.
  - destruct (truthy subPath) as [sub|].
    + destruct (sanitize_cases sub "subPath") as [[Hs' ->] | [Hu Ht]]; simpl.
      * left. eauto.
      * right. split; [intros [_ Hs']; exact (safe_not_unsafe _ Hs' Hu)|].
        destruct (sanitizePathComponent sub "subPath"); [discriminate | eauto].
    + left. eauto.
  - right. split; [intros [Hs _]; exact (safe_not_unsafe _ Hs Hu)|].
    destruct (sanitizePathComponent documentId "documentId"); [discriminate | eauto].
Qed.

(** One promise: it rejects exactly when its file validated and a path
    component is refused; when it fulfils, its value is the expected entry
    and one message was pushed for a file that failed. *)
Lemma settles_spec (index : nat) (file : option File) :
  (is_throw (settles index file) = true <->
     ~ ok /\ exists f, file = Some f /\ validates sec f) /\
  (forall x, settles index file = Ok x ->
     x = expectedSlot sec env config documentId slug fileType subPath startIndex
           index file /\
     length (reports index file)
       = if failed sec env config documentId slug fileType subPath startIndex
              index file then 1%nat else 0%nat).
Proof.
  unfold settles, reports, failed, expectedSlot, uploadSlot, validates, components_ok.
  destruct file as [f|]; simpl.
  2:{ split; [split; [discriminate | intros (_ & f & Hf & _); discriminate]|].
      intros x [= <-]. auto. }
  destruct (validateFile sec f) as [r|e] eqn:Hv; simpl.
  2:{ split; [split; [discriminate|]|].
      - intros (_ & f' & [= <-] & r & Hr & _). congruence.
      - intros x [= <-]. auto. }
  destruct (isValid r) eqn:Hr; simpl.
  2:{ split; [split; [discriminate|]|].
      - intros (_ & f' & [= <-] & r' & Hr' & Hval). congruence.
      - intros x [= <-]. auto. }
  destruct (generateCustomFilename_cases f (Some index) (sanitizedName r))
    as [(Hs1 & Hs2 & n & ->) | (Hbad & e & ->)]; simpl.
  2:{ split; [split; [|reflexivity]|discriminate].
      intros _. split; [tauto | eauto]. }
  destruct (generateSlotPath_cases n) as [(Hs3 & Hs4 & p & ->) | (Hbad & e & ->)];
    simpl.
  2:{ split; [split; [|reflexivity]|discriminate].
      intros _. split; [tauto | eauto]. }
  unfold uploadSingleFileWithTimeout, uploadDoc. rewrite Hv, Hr. simpl.
  destruct (currentUser env); simpl.
  2:{ split; [split; [discriminate | tauto]|]. intros x [= <-]. auto. }
  destruct (uploadBytes env (fullPath env p f) f); simpl.
  { split; [split; [discriminate | tauto]|]. intros x [= <-]. auto. }
  destruct (getDownloadURL env (fullPath env p f)); simpl.
  - split; [split; [discriminate | tauto]|]. intros x [= <-]. auto.
  - split; [split; [discriminate | tauto]|]. intros x [= <-]. auto.
Qed.

(** C9, as stated, fails: a call within [maxSlots] throws when its slug is
    refused and a file passed validation, because the file name is formed
    outside the [try] blocks of the callback. *)
Lemma uploadToSlots_throws_within_maxSlots :
  let sec := mkSecurity (fun f => Ok (mkValidation true [] [] None)) (fun _ => ".webp") in
  let env := mkEnv (Some "uid-1") (fun _ => 1000) (fun _ _ => None) (fun p => Ok p) in
  let files := [Some (mkFile "a.webp" "image/webp" 4 "RIFF")] in
  (length files <= maxSlots productGallery)%nat /\
  fst (uploadToSlots sec env files productGallery "doc1" "my slug" "photo" None 0 ∅)
    = Throw (Error "slug contains invalid characters. Only letters, numbers, hyphens, and underscores allowed.").
Proof. split; [vm_compute; lia | reflexivity]. Qed.

(** C9, amended. [uploadToSlots] throws exactly when it is given more files
    than [config.maxSlots], or when a path component (documentId, slug,
    fileType, a non-empty subPath) is refused by [sanitizePathComponent] and
    some file passed validation. When it returns, [uploadedSlots] holds, in
    file order, exactly one entry (slot index, path, file name, URL) per
    file that validated and was uploaded, [null] files being skipped, and
    [errors] holds one message per file that is there and failed validation
    or upload. *)
Theorem uploadToSlots_outcome (files : list (option File)) (st : Storage) :
  let call :=
    uploadToSlots sec env files config documentId slug fileType subPath startIndex st in
  (is_throw (fst call) = true <->
     (maxSlots config < length files)%nat \/
     (~ ok /\ exists i f, files !! i = Some (Some f) /\ validates sec f)) /\
  (forall res, fst call = Ok res ->
     uploadedSlots res
       = omap id (imap (expectedSlot sec env config documentId slug fileType
                          subPath startIndex) files) /\
     length (errors res)
       = length (List.filter (fun x => x)
                   (imap (failed sec env config documentId slug fileType
                            subPath startIndex) files))).
Proof.
  intros call. subst call. unfold uploadToSlots.
  destruct (Nat.ltb_spec (maxSlots config) (length files)) as [Hmany|Hfew].
  { simpl. split; [tauto | discriminate]. }
  destruct (mapAsync_uploadSlot files 0 [] st) as [Hp He].
  destruct (mapAsync callback files 0 ([], st)) as [promises [errs st']].
  simpl in Hp, He. subst promises errs. simpl.
  set (promises := imap (fun i => settles i) files).
  assert (is_throw (bind (Promise_all promises)
                      (fun results => Ok (mkSlotUploadResult (omap id results)
                         (concat (imap (fun i => reports i) files)))))
          = is_throw (Promise_all promises)) as Hbind
    by (destruct (Promise_all promises); reflexivity).
  split.
  - rewrite Hbind, Promise_all_is_throw. split.
    + intros (i & r & Hi & Hr). right. unfold promises in Hi.
      rewrite list_lookup_imap in Hi.
      destruct (files !! i) as [file|] eqn:Hfile; [|discriminate].
      injection Hi as <-.
      apply (proj1 (settles_spec i file)) in Hr as (Hok & f & -> & Hval). eauto.
    + intros [Hmany | (Hok & i & f & Hi & Hval)]; [lia|].
      exists i, (settles i (Some f)). split.
      * unfold promises. rewrite list_lookup_imap, Hi. reflexivity.
      * apply (proj1 (settles_spec i (Some f))). eauto.
  - intros res Hres.
    destruct (Promise_all promises) as [results|] eqn:Hall; [|discriminate].
    injection Hres as <-. simpl.
    assert (forall i file, files !! i = Some file ->
              exists x, settles i file = Ok x) as Hfulfil.
    { intros i file Hi. destruct (settles i file) as [x|e] eqn:Hs; [eauto|].
      assert (is_throw (Promise_all promises) = true) as Habs.
      { apply Promise_all_is_throw. exists i, (Throw e). split; [|reflexivity].
        unfold promises. rewrite list_lookup_imap, Hi. simpl. congruence. }
      rewrite Hall in Habs. discriminate. }
    split.
    + f_equal. apply (Promise_all_values files (fun i => settles i)); [exact Hall|].
      intros i file x _ Hx. apply (proj2 (settles_spec i file) x Hx).
    + apply length_concat_imap. intros i file Hi.
      destruct (Hfulfil i file Hi) as [x Hx].
      apply (proj2 (settles_spec i file) x Hx).
Qed.

End Call.

(** The theorem at a call with a [null] file, a file that uploads and one
    that fails validation. *)
Lemma uploadToSlots_outcome_witness :
  let sec :=
    mkSecurity
      (fun f => Ok (mkValidation (negb (String.eqb (type f) "text/html")) ["type"] [] None))
      (fun _ => ".webp") in
  let env := FirebaseAuth.mkEnv (Some "uid-1") (fun _ => 1000) (fun _ _ => None)
               (fun p => Ok ("https://cdn/" ++ p)) in
  let good := mkFile "a.webp" "image/webp" 4 "RIFF" in
  let bad := mkFile "b.html" "text/html" 4 "<ht>" in
  exists res,
    fst (uploadToSlots sec env [None; Some good; Some bad] productGallery
           "doc1" "radio" "photo" (Some "gallery") 0 ∅) = Ok res /\
    uploadedSlots res
      = [mkUploadSlot 2 "portfolio/doc1/gallery/radio_photo_2.webp"
           "radio_photo_2.webp"
           "https://cdn/portfolio/doc1/gallery/radio_photo_2.webp/a_1000.webp"] /\
    length (errors res) = 1%nat.
Proof.
  intros sec env good bad. eexists. split; [reflexivity|].
  apply (proj2 (uploadToSlots_outcome sec env productGallery "doc1" "radio" "photo"
                  (Some "gallery") 0 [None; Some good; Some bad] ∅)).
  reflexivity.
Defined.

End SlotUploads.

(** ** [removeFileObjects] *)
Module FormObjects.
Import FirebaseAuth FormSpec.

(** Induction on values, through the arrays and objects they nest. *)
Lemma value_nested_ind (P : value -> Prop) :
  (forall p, P (VPrim p)) ->
  (forall f, P (VFile f)) ->
  (forall l, Forall P l -> P (VArray l)) ->
  (forall o, Forall (fun kv => P (snd kv)) o -> P (VObject o)) ->
  (forall t, P (VDate t)) ->
  forall v, P v.
Proof.
  intros Hp Hf Ha Ho Hd.
  fix IH 1. intros [p|f|l|o|t].
  - apply Hp.
  - apply Hf.
  - apply Ha. induction l as [|x l IHl]; constructor; [apply IH | exact IHl].
  - apply Ho. induction o as [|[k x] o IHo]; constructor; [apply IH | exact IHo].
  - apply Hd.
Qed.

Lemma removeFileObjectsOf_object o : removeFileObjectsOf (VObject o) = fields o.
Proof. induction o as [|[k x] o IH]; [reflexivity|]. simpl in *. rewrite IH. reflexivity. Qed.

Lemma removeFileObjectsOf_array_from i l :
  (fix loop (i : nat) (l : list value) : list (string * value) :=
     match l with
     | [] => []
     | x :: l' =>
         match processField removeFileObjectsOf x with
         | Some y => (pretty i, y) :: loop (S i) l'
         | None => loop (S i) l'
         end
     end) i l = indexed i l.
Proof. revert i. induction l as [|x l IH]; intros i; [reflexivity|]. simpl. rewrite IH. reflexivity. Qed.

Lemma removeFileObjectsOf_array l : removeFileObjectsOf (VArray l) = indexed 0 l.
Proof. apply removeFileObjectsOf_array_from. Qed.

Lemma processField_array l :
  processField removeFileObjectsOf (VArray l)
    = Some (VArray (List.filter (fun y => negb (isFile y)) (List.map item l))).
Proof. reflexivity. Qed.

Lemma isFile_item y : isFile (item y) = isFile y.
Proof. destruct y; reflexivity. Qed.

(** *** No [File] is left *)
Lemma no_file_left (v : value) :
  hasFile (VObject (removeFileObjectsOf v)) = false /\
  (forall y, processField removeFileObjectsOf v = Some y -> hasFile y = false).
Proof.
  induction v as [p|f|l IH|o IH|t] using value_nested_ind.
  - split; [reflexivity|]. intros y [= <-]. reflexivity.
  - split; [reflexivity|]. intros y [=].
  - split.
    + rewrite removeFileObjectsOf_array. generalize 0%nat.
      induction IH as [|x l [_ Hx] _ IHl]; intros i; [reflexivity|].
      simpl in *. destruct (processField removeFileObjectsOf x) as [y|] eqn:Hy.
      * simpl. rewrite (Hx y eq_refl). apply IHl.
      * apply IHl.
    + intros y. rewrite processField_array. intros [= <-]. simpl.
      induction IH as [|x l [Hx _] _ IHl]; [reflexivity|].
      simpl. destruct (isFile (item x)) eqn:Hfile; simpl; [exact IHl|].
      rewrite IHl, orb_false_r.
      destruct x; try reflexivity; try discriminate; exact Hx.
  - assert (hasFile (VObject (removeFileObjectsOf (VObject o))) = false) as Hobj.
    { rewrite removeFileObjectsOf_object.
      induction IH as [|[k x] o [_ Hx] _ IHo]; [reflexivity|].
      simpl in *. destruct (processField removeFileObjectsOf x) as [y|] eqn:Hy.
      - simpl. rewrite (Hx y eq_refl). apply IHo.
      - apply IHo. }
    split; [exact Hobj|]. intros y [= <-]. exact Hobj.
  - split; [reflexivity|]. intros y [= <-]. reflexivity.
Qed.

(** *** Primitives stay *)
Lemma property_fields (k : string) (o : list (string * value)) (x y : value) :
  property k o = Some x ->
  processField removeFileObjectsOf x = Some y ->
  property k (fields o) = Some y.
Proof.
  unfold property. induction o as [|[k' x'] o IH]; simpl; [discriminate|].
  destruct (String.eqb_spec k' k) as [->|Hne]; simpl.
  - intros [= ->] ->. simpl. rewrite String.eqb_refl. reflexivity.
  - intros Hx Hy. destruct (processField removeFileObjectsOf x'); simpl; auto.
    destruct (String.eqb_spec k' k); [contradiction | auto].
Qed.

Lemma property_indexed (j i : nat) (l : list value) (x y : value) :
  l !! i = Some x ->
  processField removeFileObjectsOf x = Some y ->
  property (pretty (j + i)%nat) (indexed j l) = Some y.
Proof.
  unfold property. revert j i. induction l as [|x' l IH]; intros j i; [discriminate|].
  destruct i as [|i]; simpl.
  - intros [= ->] ->. simpl. rewrite Nat.add_0_r, String.eqb_refl. reflexivity.
  - intros Hx Hy. specialize (IH (S j) i Hx Hy).
    rewrite Nat.add_succ_r. simpl in IH.
    destruct (processField removeFileObjectsOf x'); simpl; [|exact IH].
    destruct (String.eqb_spec (pretty j) (pretty (S (j + i)))) as [Heq|_]; [|exact IH].
    apply (inj pretty) in Heq. lia.
Qed.

Lemma filesBefore_le (i : nat) (l : list value) : (filesBefore i l <= i)%nat.
Proof.
  unfold filesBefore.
  etransitivity; [apply List.filter_length_le|].
  rewrite List.length_firstn. lia.
Qed.

Lemma items_lookup (l : list value) (i : nat) (y : value) :
  l !! i = Some y -> isFile y = false ->
  List.filter (fun y => negb (isFile y)) (List.map item l) !! (i - filesBefore i l)%nat
    = Some (item y).
Proof.
  revert i. induction l as [|h l IH]; intros i; [discriminate|].
  destruct i as [|i]; simpl.
  - intros [= ->] Hy. rewrite isFile_item, Hy. reflexivity.
  - intros Hi Hy. specialize (IH i Hi Hy).
    pose proof (filesBefore_le i l) as Hle. unfold filesBefore in *. simpl.
    rewrite isFile_item. destruct (isFile h); simpl.
    + exact IH.
    + replace (S i - length (List.filter isFile (firstn i l)))%nat
        with (S (i - length (List.filter isFile (firstn i l))))%nat by lia.
      exact IH.
Qed.

Lemma relocate_correct (p : list step) (a : prim) :
  (forall v, get p v = Some (VPrim a) -> v <> VPrim a ->
     get (relocate Spread v p) (VObject (removeFileObjectsOf v)) = Some (VPrim a)) /\
  (forall x, get p x = Some (VPrim a) ->
     exists y, processField removeFileObjectsOf x = Some y /\
               get (relocate Field x p) y = Some (VPrim a)).
Proof.
  induction p as [|s p [IHspread IHfield]].
  - split.
    + intros v [= ->] Hne. contradiction.
    + intros x [= ->]. exists (VPrim a). auto.
  - assert (forall v, get (s :: p) v = Some (VPrim a) ->
              get (relocate Spread v (s :: p)) (VObject (removeFileObjectsOf v))
                = Some (VPrim a)) as Hspread.
    { intros v Hv. destruct s as [k|i], v as [q|f|l|o|t]; try discriminate; simpl in Hv.
      - destruct (property k o) as [x|] eqn:Hx; [|discriminate].
        destruct (IHfield x Hv) as (y & Hy & Hget).
        cbn [relocate get]. rewrite Hx, removeFileObjectsOf_object.
        rewrite (property_fields k o x y Hx Hy). exact Hget.
      - destruct (l !! i) as [x|] eqn:Hx; [|discriminate].
        destruct (IHfield x Hv) as (y & Hy & Hget).
        cbn [relocate get]. rewrite Hx, removeFileObjectsOf_array.
        pose proof (property_indexed 0 i l x y Hx Hy) as Hprop.
        simpl in Hprop. rewrite Hprop. exact Hget. }
    split; [intros v Hv _; exact (Hspread v Hv)|].
    intros x Hx. destruct s as [k|i], x as [q|f|l|o|t]; try discriminate.
    + exists (VObject (removeFileObjectsOf (VObject o))). split; [reflexivity|].
      apply (Hspread (VObject o) Hx).
    + simpl in Hx. destruct (l !! i) as [y0|] eqn:Hy0; [|discriminate].
      eexists. split; [apply processField_array|].
      cbn [relocate get]. rewrite Hy0.
      assert (isFile y0 = false) as Hnot
        by (destruct y0; try reflexivity; destruct p as [|[k|j] p']; discriminate).
      rewrite (items_lookup l i y0 Hy0 Hnot).
      destruct y0 as [q|f|l'|o'|t]; try discriminate.
      * destruct p as [|[k|j] p']; [exact Hx | discriminate | discriminate].
      * apply IHspread; [exact Hx | discriminate].
      * apply IHspread; [exact Hx | discriminate].
      * destruct p as [|[k|j] p']; discriminate.
Qed.

Lemma relocate_keys (m : place) (keys : list string) (v w : value) :
  get (List.map Key keys) v = Some w ->
  relocate m v (List.map Key keys) = List.map Key keys.
Proof.
  revert m v. induction keys as [|k keys IH]; intros m v; [reflexivity|].
  simpl. destruct v as [q|f|l|o|t]; try discriminate.
  destruct (property k o) as [x|] eqn:Hx; [|discriminate].
  intros Hw. destruct m; f_equal; eauto.
Qed.

(** C10. The object [removeFileObjects] returns holds no [File] at any
    depth. Every primitive of the input reached through property names only
    is found, unchanged, under the same names. Every primitive reached
    through arrays is found, unchanged, where [relocate] says: under the same
    names, and in an array at its index less the number of [File] elements
    filtered out before it (an array directly inside an array has been
    spread into an object and keeps its indices as keys). *)
Theorem removeFileObjects_drops_files_keeps_primitives
    (obj : list (string * value)) :
  hasFile (VObject (removeFileObjects obj)) = false /\
  (forall (keys : list string) (a : prim),
     get (List.map Key keys) (VObject obj) = Some (VPrim a) ->
     get (List.map Key keys) (VObject (removeFileObjects obj)) = Some (VPrim a)) /\
  (forall (p : list step) (a : prim),
     get p (VObject obj) = Some (VPrim a) ->
     get (relocate Spread (VObject obj) p) (VObject (removeFileObjects obj))
       = Some (VPrim a)).
Proof.
  unfold removeFileObjects. split; [apply no_file_left|]. split.
  - intros keys a H.
    rewrite <- (relocate_keys Spread keys (VObject obj) (VPrim a) H) at 1.
    apply (proj1 (relocate_correct _ a)); [exact H | discriminate].
  - intros p a H. apply (proj1 (relocate_correct p a)); [exact H | discriminate].
Qed.

(** The theorem on a form with a [File] field, an array mixing [File]s and
    values, and a nested section. *)
Lemma removeFileObjects_witness :
  let pdf := mkFile "sheet.pdf" "application/pdf" 3 "PDF" in
  let form :=
    [ ("title", VPrim (PString "Radio"));
      ("datasheet", VFile pdf);
      ("gallery", VArray [VFile pdf; VPrim (PString "kept"); VFile pdf;
                          VObject [("image", VFile pdf); ("alt", VPrim (PNumber 7))]]);
      ("section", VObject [("image", VFile pdf); ("heading", VPrim PNull)]) ] in
  get [Key "section"; Key "heading"] (VObject (removeFileObjects form))
    = Some (VPrim PNull) /\
  get (relocate Spread (VObject form) [Key "gallery"; Index 3; Key "alt"])
      (VObject (removeFileObjects form))
    = Some (VPrim (PNumber 7)) /\
  relocate Spread (VObject form) [Key "gallery"; Index 3; Key "alt"]
    = [Key "gallery"; Index 1; Key "alt"].
Proof.
  intros pdf form.
  destruct (removeFileObjects_drops_files_keeps_primitives form) as (_ & Hkeys & Hpath).
  split; [|split].
  - apply (Hkeys ["section"; "heading"] PNull). reflexivity.
  - apply (Hpath [Key "gallery"; Index 3; Key "alt"] (PNumber 7)). reflexivity.
  - reflexivity.
Defined.

End FormObjects.

(** ** The upload rate limiter *)
Module RateLimiter.
Import UploadRoute RateSpec.

Lemma liveRecord_live key now (store : gmap string RateRecord) r :
  store !! key = Some r -> now <= resetTime r ->
  liveRecord key now store = (r, store).
Proof.
  intros Hr Hnow. unfold liveRecord. rewrite Hr.
  destruct (Z.ltb_spec (resetTime r) now); [lia | reflexivity].
Qed.

Lemma liveRecord_fresh key now (store : gmap string RateRecord) :
  match store !! key with Some r => resetTime r < now | None => True end ->
  exists store',
    liveRecord key now store = (mkRecord 0 (now + windowMs) 0, store').
Proof.
  intros H. unfold liveRecord. destruct (store !! key) as [r|].
  - destruct (Z.ltb_spec (resetTime r) now); [eauto | lia].
  - eauto.
Qed.

(** A request leaves the records of the other keys alone. *)
Lemma check_other key k now (store : gmap string RateRecord) :
  k <> key ->
  snd (checkUploadRateLimit k now store) !! key = store !! key.
Proof.
  intros Hne. unfold checkUploadRateLimit, liveRecord.
  destruct (store !! k) as [r|] eqn:Hk.
  - destruct (resetTime r <? now); simpl.
    + destruct (maxRequests <=? 0); simpl;
        rewrite !lookup_insert_ne, ?lookup_delete_ne by assumption; reflexivity.
    + destruct (maxRequests <=? count r); simpl;
        rewrite lookup_insert_ne by assumption; reflexivity.
  - simpl. destruct (maxRequests <=? 0); simpl;
      rewrite !lookup_insert_ne by assumption; reflexivity.
Qed.

(** Inside its window a request is allowed exactly while the counter is
    below 20; it then counts; the reset time never comes closer. *)
Lemma check_live key now (store : gmap string RateRecord) r :
  store !! key = Some r -> now <= resetTime r ->
  exists r',
    snd (checkUploadRateLimit key now store) !! key = Some r' /\
    success (fst (checkUploadRateLimit key now store)) = (count r <? maxRequests) /\
    count r' = (if count r <? maxRequests then count r + 1 else count r) /\
    resetTime r <= resetTime r'.
Proof.
  intros Hr Hnow. unfold checkUploadRateLimit.
  rewrite (liveRecord_live key now store r Hr Hnow).
  destruct (Z.leb_spec maxRequests (count r)) as [Hfull|Hroom].
  - eexists. simpl. rewrite lookup_insert_eq. split; [reflexivity|].
    destruct (Z.ltb_spec (count r) maxRequests); [lia|].
    split; [reflexivity | split; [reflexivity|]]. simpl.
    destruct (3 <=? violations r + 1); lia.
  - eexists. simpl. rewrite lookup_insert_eq. split; [reflexivity|].
    destruct (Z.ltb_spec (count r) maxRequests); [|lia].
    split; [reflexivity | split; [reflexivity|]]. simpl. lia.
Qed.

Lemma serve_cons (store : gmap string RateRecord) key now rest :
  serve store ((key, now) :: rest)
    = (success (fst (checkUploadRateLimit key now store))
         :: fst (serve (snd (checkUploadRateLimit key now store)) rest),
       snd (serve (snd (checkUploadRateLimit key now store)) rest)).
Proof.
  simpl. destruct (checkUploadRateLimit key now store) as [r store']. simpl.
  destruct (serve store' rest). reflexivity.
Qed.

Lemma allowedFor_cons key k (t : Z) rest (d : bool) ds :
  allowedFor key ((k, t) :: rest) (d :: ds)
    = ((if String.eqb k key && d then 1 else 0) + allowedFor key rest ds)%nat.
Proof.
  unfold allowedFor. simpl. destruct (String.eqb k key && d); reflexivity.
Qed.

Lemma requestsFor_cons key k (t : Z) rest :
  requestsFor key ((k, t) :: rest)
    = ((if String.eqb k key then 1 else 0) + requestsFor key rest)%nat.
Proof. unfold requestsFor. simpl. destruct (String.eqb k key); reflexivity. Qed.

(** Requests made while the window of [key] is open: the first
    [maxRequests - count] of those for [key] are allowed, the others are not. *)
Lemma serve_in_window (key : string) (trace : list (string * Z)) :
  forall (store : gmap string RateRecord) (r : RateRecord),
    store !! key = Some r ->
    (forall t, In (key, t) trace -> t <= resetTime r) ->
    (forall i t, trace !! i = Some (key, t) ->
       fst (serve store trace) !! i
         = Some (count r + Z.of_nat (allowedFor key (firstn i trace)
                                       (firstn i (fst (serve store trace))))
                 <? maxRequests)) /\
    Z.of_nat (allowedFor key trace (fst (serve store trace)))
      = Z.max 0 (Z.min (Z.of_nat (requestsFor key trace)) (maxRequests - count r)).
Proof.
  induction trace as [|[k t] rest IH]; intros store r Hr Hin.
  { split; [intros i t Hi; discriminate|]. unfold allowedFor, requestsFor. simpl. lia. }
  rewrite serve_cons. cbn [fst].
  set (c := checkUploadRateLimit k t store).
  assert (exists r',
            snd c !! key = Some r' /\
            resetTime r <= resetTime r' /\
            count r' = count r
                       + (if String.eqb k key && success (fst c) then 1 else 0) /\
            (String.eqb k key = true -> success (fst c) = (count r <? maxRequests)))
    as (r' & Hr' & Hreset & Hcount & Hdec).
  { destruct (String.eqb_spec k key) as [->|Hne].
    - destruct (check_live key t store r Hr) as (r' & H1 & H2 & H3 & H4).
      { apply Hin. left. reflexivity. }
      exists r'. subst c. rewrite H2. simpl.
      destruct (count r <? maxRequests); repeat split; auto; lia.
    - exists r. subst c. rewrite (check_other key k t store Hne). simpl.
      split; [assumption|]. split; [lia|]. split; [lia | discriminate]. }
  destruct (IH (snd c) r' Hr') as [IHdec IHsum].
  { intros t' Ht'. transitivity (resetTime r); [|assumption]. apply Hin. right. exact Ht'. }
  split.
  - intros [|i] t' Hi.
    + injection Hi as -> ->. simpl. rewrite Z.add_0_r, Hdec; [reflexivity|].
      apply String.eqb_refl.
    + simpl in Hi. cbn [firstn]. rewrite allowedFor_cons.
      change ((success (fst c) :: fst (serve (snd c) rest)) !! S i)
        with (fst (serve (snd c) rest) !! i).
      rewrite (IHdec i t' Hi). do 2 f_equal. rewrite Hcount.
      destruct (String.eqb k key && success (fst c)); lia.
  - rewrite allowedFor_cons, requestsFor_cons, Nat2Z.inj_add, IHsum, Nat2Z.inj_add, Hcount.
    destruct (String.eqb k key) eqn:Hk; simpl.
    + rewrite (Hdec eq_refl).
      destruct (Z.ltb_spec (count r) maxRequests); simpl; lia.
    + lia.
Qed.

(** C2, as stated, fails: with one request at time 0, nineteen at 59 s and
    two just after 60 s, the last request is allowed although twenty requests
    were allowed in the 60 s before it; 21 requests are allowed within
    1.002 s. *)
Lemma limiter_is_not_a_sliding_window :
  let trace :=
    (("k", 0) :: List.repeat ("k", 59000) 19 ++ [("k", 60001); ("k", 60002)])%list in
  time_ordered trace = true /\
  decisions trace !! 21%nat = Some true /\
  allowedBetween "k" (60002 - windowMs) 60002
    (firstn 21 trace) (firstn 21 (decisions trace)) = 20%nat /\
  allowedBetween "k" 59000 60002 trace (decisions trace) = 21%nat /\
  ~ sliding_window trace.
Proof.
  intros trace.
  assert (decisions trace !! 21%nat = Some true) as Hlast by (vm_compute; reflexivity).
  assert (allowedBetween "k" (60002 - windowMs) 60002
            (firstn 21 trace) (firstn 21 (decisions trace)) = 20%nat) as Hcount
    by (vm_compute; reflexivity).
  split; [vm_compute; reflexivity|]. split; [exact Hlast|]. split; [exact Hcount|].
  split; [vm_compute; reflexivity|].
  intros Hsliding.
  specialize (Hsliding 21%nat "k" 60002 eq_refl).
  apply proj1 in Hsliding. specialize (Hsliding Hlast).
  rewrite Hcount in Hsliding. lia.
Qed.

(** C2, amended. The limiter counts in fixed windows. The first request for
    a key that has no record, or whose record's reset time has passed, opens
    a window of 60 s and is allowed. Of the requests made up to the end of
    that window, one for the key is allowed exactly when fewer than 20
    requests for it have been allowed since the window opened: the first 20
    are allowed and no other. *)
Theorem limiter_allows_twenty_per_window
    (store : gmap string RateRecord) (key : string) (t0 : Z)
    (trace : list (string * Z)) :
  match store !! key with Some r => resetTime r < t0 | None => True end ->
  (forall t, In (key, t) trace -> t <= t0 + windowMs) ->
  let ds := fst (serve store ((key, t0) :: trace)) in
  ds !! 0%nat = Some true /\
  (forall i t, ((key, t0) :: trace) !! i = Some (key, t) ->
     ds !! i = Some (Z.of_nat (allowedFor key (firstn i ((key, t0) :: trace))
                                 (firstn i ds)) <? 20)) /\
  allowedFor key ((key, t0) :: trace) ds
    = Nat.min (1 + requestsFor key trace) 20.
Proof.
  intros Hfresh Hwindow ds. subst ds. rewrite serve_cons. cbn [fst].
  set (c := checkUploadRateLimit key t0 store).
  assert (success (fst c) = true /\
          snd c !! key = Some (mkRecord 1 (t0 + windowMs) 0)) as [Hfirst Hrec].
  { subst c. unfold checkUploadRateLimit.
    destruct (liveRecord_fresh key t0 store Hfresh) as [store' ->]. simpl.
    rewrite lookup_insert_eq. auto. }
  destruct (serve_in_window key trace (snd c) _ Hrec Hwindow) as [Hdec Hsum].
  simpl in Hdec, Hsum. rewrite Hfirst.
  split; [reflexivity|]. split.
  - intros [|i] t Hi; [reflexivity|].
    simpl in Hi. cbn [firstn]. rewrite allowedFor_cons, String.eqb_refl. simpl.
    rewrite (Hdec i t Hi). do 2 f_equal. lia.
  - rewrite allowedFor_cons, String.eqb_refl. simpl.
    unfold maxRequests in Hsum. lia.
Qed.

(** The theorem at a key whose window has lapsed, with 25 requests in the
    new window: 20 are allowed. *)
Lemma limiter_window_witness :
  let stale : gmap string RateRecord := {[ "k" := mkRecord 20 5000 2 ]} in
  let trace := List.repeat ("k", 7000) 24 in
  allowedFor "k" (("k", 6000) :: trace) (fst (serve stale (("k", 6000) :: trace)))
    = 20%nat.
Proof.
  intros stale trace.
  assert (match stale !! "k" with Some r => resetTime r < 6000 | None => True end)
    as Hfresh by (vm_compute; reflexivity).
  assert (forall t, In ("k", t) trace -> t <= 6000 + windowMs) as Hwindow.
  { intros t Ht. apply List.repeat_spec in Ht. injection Ht as ->.
    vm_compute. discriminate. }
  exact (proj2 (proj2 (limiter_allows_twenty_per_window stale "k" 6000 trace
                         Hfresh Hwindow))).
Defined.

End RateLimiter.

(** ** The admin upload endpoint *)
Module UploadEndpoint.
Import FileUploadSecurity UploadRoute.

(** The limiter refuses a request exactly when the live record of its key
    has reached [maxRequests]. *)
Lemma limiter_refuses_iff (key : string) (now : Z) (store : gmap string RateRecord) :
  success (fst (checkUploadRateLimit key now store)) = false <->
  maxRequests <= count (fst (liveRecord key now store)).
Proof.
  unfold checkUploadRateLimit. destruct (liveRecord key now store) as [record store'].
  simpl. destruct (Z.leb_spec maxRequests (count record)); simpl.
  - tauto.
  - split; [discriminate | lia].
Qed.

(** C6. When the upload rate limit of the key made of the client's IP and
    the user's uid is exceeded (the live record of the key has counted 20
    requests), the endpoint answers the authenticated user with 429 and a
    [Retry-After] header, whatever the handler is: the handler is not run,
    the object store is as it was, and the only change of state is the
    limiter's own update of its store. *)
Theorem rate_limited_upload_is_refused (env : Env)
    (handler : nat -> NextRequest -> AuthenticatedUser -> Server -> Response * Server)
    (request : NextRequest) (sv : Server) (user : AuthenticatedUser) :
  validateFirebaseToken env request = Ok (Some user) ->
  let key := "upload_" ++ getClientIP env request ++ "_" ++ uid user in
  let now := Date_now env 1%nat in
  maxRequests <= count (fst (liveRecord key now (uploadRateLimitStore sv))) ->
  let check := checkUploadRateLimit key now (uploadRateLimitStore sv) in
  let served := secureUploadWrapper env handler request sv in
  status (fst served) = 429 /\
  headers (fst served) !! "Retry-After"
    = Some (pretty (retryAfter (reset (fst check)) (Date_now env 3%nat))) /\
  storage (snd served) = storage sv /\
  uploadRateLimitStore (snd served) = snd check.
Proof.
  intros Hauth key now Hexceeded check served. subst served.
  apply limiter_refuses_iff in Hexceeded. fold check in Hexceeded.
  unfold secureUploadWrapper. rewrite Hauth. fold key. fold now. fold check.
  destruct check as [rateLimitResult store']. simpl in Hexceeded |- *.
  rewrite Hexceeded. simpl. rewrite lookup_insert_eq. auto.
Qed.

(** The theorem at the 21st upload of a user within a window, with the real
    handler and a store that would take the file. *)
Lemma rate_limited_upload_witness :
  let user := mkUser "u1" "admin@example.com" in
  let env :=
    mkEnv (fun _ => Ok (Some user)) (fun _ => "10.0.0.7") (fun n => 5000 + Z.of_nat n)
      (mkSecurity (fun _ => Ok (mkValidation true [] [] None)) (fun _ => ".webp"))
      (fun _ => true) ["portfolio"] [] (fun _ _ => None) (fun p => Ok p) in
  let request :=
    mkRequest (Some 4) (Ok (Some (mkFile "a.webp" "image/webp" 4 "RIFF"),
                            Some "portfolio/p1")) in
  let sv := mkServer {[ "upload_10.0.0.7_u1" := mkRecord 20 60000 0 ]} ∅ in
  status (fst (POST env request sv)) = 429 /\
  headers (fst (POST env request sv)) !! "Retry-After" = Some "55" /\
  storage (snd (POST env request sv)) = ∅.
Proof.
  intros user env request sv.
  assert (maxRequests
          <= count (fst (liveRecord "upload_10.0.0.7_u1" (Date_now env 1%nat)
                           (uploadRateLimitStore sv)))) as Hexceeded
    by (vm_compute; discriminate).
  destruct (rate_limited_upload_is_refused env (handleFileUpload env) request sv user
              eq_refl Hexceeded) as (Hstatus & Hretry & Hstorage & _).
  split; [exact Hstatus|]. split; [exact Hretry | exact Hstorage].
Defined.

End UploadEndpoint.

(** ** The middleware: CORS and security headers *)
Module MiddlewareHeaders.
Import Middleware MiddlewareSpec StringFacts.

Lemma array_includes_In (l : list string) (x : string) :
  array_includes l x = true <-> In x l.
Proof.
  unfold array_includes. rewrite existsb_exists. split.
  - intros (y & Hy & Heq). apply String.eqb_eq in Heq. congruence.
  - intros H. exists x. split; [assumption | apply String.eqb_refl].
Qed.

Lemma eqb_method (m : string) : m <> "OPTIONS" -> String.eqb m "OPTIONS" = false.
Proof. intros H. destruct (String.eqb_spec m "OPTIONS"); [contradiction | reflexivity]. Qed.

(** C7. On a request that is not OPTIONS for a route under /api/admin/ or
    /api/auth/, the middleware sets [Access-Control-Allow-Origin] to the
    request's origin when it is in the allowed list (the two consortdigital.com
    origins in production, the two localhost origins otherwise) and to
    ['null'] for any other or no origin, and sets
    [Access-Control-Allow-Credentials] to ['true']. *)
Theorem api_routes_get_cors_headers (env : Env) (request : NextRequest) :
  method request <> "OPTIONS" ->
  startsWith (pathname request) "/api/admin/" = true \/
  startsWith (pathname request) "/api/auth/" = true ->
  let response := middleware env request in
  responseHeaders response !! "Access-Control-Allow-Origin"
    = Some match headers request !! "origin" with
           | Some origin =>
               if decide (origin ∈ allowedList env) then origin else "null"
           | None => "null"
           end /\
  responseHeaders response !! "Access-Control-Allow-Credentials" = Some "true".
Proof.
  intros Hmethod Hroute response. subst response.
  assert (middleware env request = withCors env (headers request !! "origin")) as ->.
  { unfold middleware. rewrite (eqb_method _ Hmethod).
    destruct Hroute as [H|H]; apply prefix_spec in H as [r ->].
    - replace (startsWith ("/api/admin/" ++ r) "/api/") with true by reflexivity.
      replace (startsWith ("/api/admin/" ++ r) "/admin") with false by reflexivity.
      rewrite startsWith_app, andb_false_r. reflexivity.
    - replace (startsWith ("/api/auth/" ++ r) "/api/") with true by reflexivity.
      replace (startsWith ("/api/auth/" ++ r) "/admin") with false by reflexivity.
      replace (startsWith ("/api/auth/" ++ r) "/api/admin/") with false by reflexivity.
      rewrite startsWith_app, andb_false_r. reflexivity. }
  unfold withCors. cbn [responseHeaders]. split.
  - rewrite lookup_insert_ne by discriminate. rewrite lookup_insert_eq. f_equal.
    unfold allowOrigin, allowedOrigins, allowedList, production.
    destruct (headers request !! "origin") as [origin|]; simpl.
    + destruct (decide _) as [Hin|Hout].
      * apply list_elem_of_In, array_includes_In in Hin. rewrite Hin. reflexivity.
      * destruct (array_includes _ origin) eqn:Hinc; [|reflexivity].
        apply array_includes_In, list_elem_of_In in Hinc. contradiction.
    + destruct (String.eqb (NODE_ENV env) "production"); reflexivity.
  - apply lookup_insert_eq.
Qed.

(** The theorem at a production upload request from the site and from
    another origin. *)
Lemma api_routes_cors_witness :
  let env := mkEnv "production" (Some "consort-digital") 1700000000000 (fun _ => None) in
  let from origin :=
    mkRequest "/api/admin/upload" "POST" {[ "origin" := origin ]} ∅
      "https://consortdigital.com" in
  responseHeaders (middleware env (from "https://www.consortdigital.com"))
    !! "Access-Control-Allow-Origin" = Some "https://www.consortdigital.com" /\
  responseHeaders (middleware env (from "https://evil.example"))
    !! "Access-Control-Allow-Origin" = Some "null" /\
  responseHeaders (middleware env (from "https://evil.example"))
    !! "Access-Control-Allow-Credentials" = Some "true".
Proof.
  intros env from.
  assert ("POST" <> "OPTIONS") as Hpost by discriminate.
  destruct (api_routes_get_cors_headers env (from "https://www.consortdigital.com")
              Hpost (or_introl eq_refl)) as [Hsite _].
  destruct (api_routes_get_cors_headers env (from "https://evil.example")
              Hpost (or_introl eq_refl)) as [Hother Hcred].
  split; [exact Hsite | split; [exact Hother | exact Hcred]].
Defined.

End MiddlewareHeaders.

(** ** The middleware: token structure *)
Module TokenStructure.
Import Middleware MiddlewareSpec StringFacts.

Lemma truthy_false (x : option json) : truthy x = false <-> falsy x.
Proof.
  unfold falsy. split.
  - destruct x as [[| [] | n | s | l | o]|]; simpl; try discriminate; auto.
    + destruct (Z.eqb_spec n 0) as [->|]; [auto 6 | discriminate].
    + destruct (String.eqb_spec s "") as [->|]; [auto 6 | discriminate].
  - intros [-> | [-> | [-> | [-> | ->]]]]; reflexivity.
Qed.

Lemma stringOfLength_spec (n : nat) (x : option json) :
  stringOfLength (S n) x = true <->
  exists s, x = Some (JString s) /\ (S n <= String.length s)%nat.
Proof.
  unfold stringOfLength. split.
  - destruct x as [[| | | s | |]|]; try discriminate.
    intros H. apply andb_true_iff in H as [_ H]. apply Nat.leb_le in H. eauto.
  - intros (s & -> & Hlen). apply andb_true_iff. split.
    + destruct s; [simpl in Hlen; lia | reflexivity].
    + apply Nat.leb_le. exact Hlen.
Qed.

Lemma firebase_check (x : option json) :
  truthy x && negb match x with
                   | Some (JObject _) | Some (JArray _) | Some JNull => true
                   | _ => false
                   end = false <->
  falsy x \/ isObject x.
Proof.
  rewrite andb_false_iff, truthy_false, negb_false_iff. unfold isObject.
  split; (intros [H|H]; [left; exact H|]).
  - destruct x as [[| | | | l | o]|]; try discriminate; [left; right; left | |]; eauto.
  - destruct H as [[o ->] | [l ->]]; right; reflexivity.
Qed.

Lemma auth_time_check (now : Z) (x : option json) :
  truthy x && match x with
              | Some (JNumber t) => now <? t
              | _ => true
              end = false <->
  falsy x \/ exists t, x = Some (JNumber t) /\ t <= now.
Proof.
  rewrite andb_false_iff, truthy_false.
  split; (intros [H|H]; [left; exact H|]).
  - destruct x as [[| | t | | |]|]; try discriminate.
    apply Z.ltb_ge in H. eauto.
  - destruct H as (t & -> & Ht). right. apply Z.ltb_ge. exact Ht.
Qed.

Lemma project_check (env : Env) (issuer aud : string) :
  match projectId env with
  | Some project =>
      if negb (String.eqb issuer ("https://securetoken.google.com/" ++ project))
      then Some "Token issuer does not match project"
      else if negb (String.eqb aud project)
           then Some "Token audience does not match project"
           else None
  | None => None
  end = None <->
  (forall project, projectId env = Some project ->
     issuer = issuerPrefix ++ project /\ aud = project).
Proof.
  unfold issuerPrefix. destruct (projectId env) as [project|].
  - destruct (String.eqb_spec issuer ("https://securetoken.google.com/" ++ project));
      simpl.
    + destruct (String.eqb_spec aud project); simpl.
      * split; [|reflexivity]. intros _ p [= <-]. auto.
      * split; [discriminate|]. intros H. destruct (H project eq_refl). contradiction.
    + split; [discriminate|]. intros H. destruct (H project eq_refl). contradiction.
  - split; [|reflexivity]. intros _ p [=].
Qed.

Ltac crunch H :=
  repeat (match type of H with
          | context [match ?x with _ => _ end] =>
              first [ is_var x; destruct x | destruct x eqn:? ]
          end; cbn [bind invalid accepted isValid] in H; try discriminate H).

Lemma validateHeader_accepts (header : json) :
  validateHeader header = Ok None <-> headerAccepted header.
Proof.
  unfold validateHeader, headerAccepted.
  destruct header as [| | | | |o];
    try (split; [discriminate | intros [H _]; discriminate]).
  cbn [prop bind]. unfold member.
  generalize (snd <$> List.find (fun kv : string * json => String.eqb (fst kv) "alg") o).
  generalize (snd <$> List.find (fun kv : string * json => String.eqb (fst kv) "kid") o).
  intros kid alg. split.
  - intros H. destruct alg as [[| b | n | a | l | o']|];
      try (cbn [negb bind] in H; discriminate H).
    destruct (String.eqb_spec a "RS256") as [Ha|Ha]; cbn [negb bind] in H;
      [subst a | discriminate H].
    destruct (stringOfLength 10 kid) eqn:Hkid; [|discriminate H].
    split; [reflexivity|]. apply stringOfLength_spec. exact Hkid.
  - intros [-> Hkid]. apply stringOfLength_spec in Hkid. rewrite Hkid. reflexivity.
Qed.

Lemma validatePayload_accepts (env : Env) (payload : json) :
  accepted (validatePayload env payload) = true <-> payloadAccepted env payload.
Proof.
  unfold validatePayload, payloadAccepted.
  destruct payload as [| | | | |o];
    try (split; [discriminate | intros (? & ? & ? & ? & ? & H & _); discriminate]).
  cbn [prop bind]. unfold member.
  generalize (snd <$> List.find (fun kv : string * json => String.eqb (fst kv) "iss") o).
  generalize (snd <$> List.find (fun kv : string * json => String.eqb (fst kv) "aud") o).
  generalize (snd <$> List.find (fun kv : string * json => String.eqb (fst kv) "sub") o).
  generalize (snd <$> List.find (fun kv : string * json => String.eqb (fst kv) "exp") o).
  generalize (snd <$> List.find (fun kv : string * json => String.eqb (fst kv) "iat") o).
  generalize (snd <$> List.find (fun kv : string * json => String.eqb (fst kv) "firebase") o).
  generalize (snd <$> List.find (fun kv : string * json => String.eqb (fst kv) "auth_time") o).
  intros auth_time firebase iat exp sub aud iss.
  set (now := Date_now env / 1000). split.
  - intros H. cbn [bind invalid accepted isValid] in H. crunch H.
    apply negb_false_iff in Heqb0, Heqb1, Heqb2.
    apply stringOfLength_spec in Heqb1 as (a & -> & Haud).
    apply stringOfLength_spec in Heqb2 as (u & -> & Hsub).
    apply orb_false_iff in Heqb3 as [Hexp Hiat].
    apply Z.eqb_neq in Hexp, Hiat.
    apply Z.leb_gt in Heqb4. apply Z.ltb_ge in Heqb5, Heqb6.
    pose proof (proj1 (project_check env s a) Heqo0) as Hproject.
    apply (proj1 (firebase_check firebase)) in Heqb7.
    apply (proj1 (auth_time_check now auth_time)) in Heqb8.
    exists s, a, u, n, n0. repeat (split; [first [reflexivity | assumption]|]).
    assumption.
  - intros (issuer & a & u & e & i & -> & Hprefix & -> & Haud & -> & Hsub
            & -> & Hexp & -> & Hiat & Hfresh & Hskew & Hage & Hproject & Hfb & Hat).
    assert (truthy (Some (JString issuer)) = true) as ->
      by (destruct issuer; [discriminate | reflexivity]).
    fold issuerPrefix. rewrite Hprefix.
    rewrite (proj2 (stringOfLength_spec 2 _)) by eauto.
    rewrite (proj2 (stringOfLength_spec 9 _)) by eauto.
    apply Z.eqb_neq in Hexp, Hiat. rewrite Hexp, Hiat.
    apply Z.leb_gt in Hfresh. apply Z.ltb_ge in Hskew, Hage.
    fold now. rewrite Hfresh, Hskew, Hage.
    pose proof (proj2 (project_check env issuer a) Hproject) as Hcheck.
    apply (proj2 (firebase_check firebase)) in Hfb.
    apply (proj2 (auth_time_check now auth_time)) in Hat.
    cbn [negb orb bind invalid accepted isValid].
    unfold issuerPrefix. rewrite Hcheck, Hfb. cbn [bind]. rewrite Hat. reflexivity.
Qed.

(** The validation accepts exactly the tokens described by [tokenAccepted]. *)
Lemma validateFirebaseTokenStructure_accepts (env : Env) (token : string) :
  isValid (validateFirebaseTokenStructure env token) = true <->
  tokenAccepted env token.
Proof.
  unfold validateFirebaseTokenStructure, tokenAccepted.
  match goal with
  | |- isValid (match ?attempt with _ => _ end) = true <-> _ =>
      replace (isValid (match attempt with
                        | Ok v => v
                        | Throw e =>
                            mkValidation false
                              (Some ("Token validation error: " ++ message_or "undefined" e))
                        end))
        with (accepted attempt) by (destruct attempt; reflexivity)
  end.
  destruct (split "." token) as [|p0 [|p1 [|p2 [|p3 rest]]]];
    try (split; [discriminate | intros (? & ? & ? & ? & ? & H & _); discriminate]).
  destruct (JSON_parse_atob env (base64 p0)) as [header|] eqn:Hheader.
  2:{ split; [discriminate|].
      intros (? & ? & ? & ? & ? & [= <- <- <-] & H & _). congruence. }
  destruct (validateHeader header) as [[why|]|e] eqn:Hh; cbn [bind].
  1,3: (split; [discriminate|];
        intros (? & ? & ? & h & ? & [= <- <- <-] & H & Hacc & _);
        assert (h = header) as -> by congruence;
        apply validateHeader_accepts in Hacc; congruence).
  apply validateHeader_accepts in Hh.
  destruct (JSON_parse_atob env (base64 p1)) as [payload|] eqn:Hpayload.
  2:{ split; [discriminate|].
      intros (? & ? & ? & ? & ? & [= <- <- <-] & _ & _ & H & _). congruence. }
  rewrite validatePayload_accepts. split.
  - intros Hp. exists p0, p1, p2, header, payload. auto.
  - intros (? & ? & ? & ? & pl & [= <- <- <-] & _ & _ & H & Hacc).
    assert (pl = payload) as -> by congruence. exact Hacc.
Qed.

End TokenStructure.

(** ** The middleware: admin pages and early responses *)
Module AdminGate.
Import Middleware MiddlewareSpec StringFacts TokenStructure.

Lemma setAll_lookup (h : list (string * string)) :
  NoDup (List.map fst h) ->
  forall (m : gmap string string) name value,
    In (name, value) h -> setAll h m !! name = Some value.
Proof.
  unfold setAll. induction h as [|[k v] h IH]; intros Hnodup m name value Hin.
  - destruct Hin.
  - simpl in *. apply NoDup_cons in Hnodup as [Hfresh Hnodup].
    destruct Hin as [[= -> ->] | Hin]; [|apply IH; assumption].
    clear IH. revert m. induction h as [|[k' v'] h IH]; intros m; simpl.
    + apply lookup_insert_eq.
    + apply NoDup_cons in Hnodup as [_ Hnodup].
      assert (k' <> name) as Hne
        by (intros ->; apply Hfresh; simpl; apply list_elem_of_In; left; reflexivity).
      rewrite insert_insert_ne by congruence.
      apply IH; [|assumption].
      intros Hin. apply Hfresh. simpl. apply list_elem_of_In. right.
      apply list_elem_of_In. exact Hin.
Qed.

Lemma securityHeaders_distinct (env : Env) :
  NoDup (List.map fst (securityHeaders env)).
Proof.
  unfold securityHeaders. simpl.
  repeat (apply NoDup_cons_2;
          [rewrite list_elem_of_In; simpl; intuition discriminate|]).
  apply NoDup_nil_2.
Qed.

(** What a request that passes every gate gets: the route goes on, with the
    security headers. *)
Lemma passed_request_carries_security_headers (env : Env) :
  carriesSecurityHeaders env
    (mkResponse (body next) (status next)
       (setAll (securityHeaders env) (responseHeaders next))).
Proof.
  intros name value Hin. cbn [responseHeaders].
  apply setAll_lookup; [apply securityHeaders_distinct | exact Hin].
Qed.

(** The middleware on a request the bot filter blocks. *)
Lemma middleware_blocked (env : Env) (request : NextRequest) :
  blockedBot env request = true ->
  middleware env request
    = mkResponse (Text (Some "Access Denied")) 403
        {[ "content-type" := "text/plain;charset=UTF-8" ]}.
Proof.
  unfold middleware, blockedBot. intros Hbot.
  apply andb_true_iff in Hbot as [Hbot ->].
  apply andb_true_iff in Hbot as [-> ->]. reflexivity.
Qed.

(** The middleware on an admin page that the bot filter lets through. *)
Lemma middleware_admin_page (env : Env) (request : NextRequest) :
  startsWith (pathname request) "/admin" = true ->
  blockedBot env request = false ->
  middleware env request =
    match cookies request !! "firebaseToken" with
    | None => redirectToAuth request
    | Some token =>
        if String.eqb token "" then redirectToAuth request
        else if isValid (validateFirebaseTokenStructure env token)
             then mkResponse (body next) (status next)
                    (setAll (securityHeaders env) (responseHeaders next))
             else redirectToAuth request
    end.
Proof.
  intros Hadmin Hbot. unfold middleware, blockedBot in *.
  apply prefix_spec in Hadmin as [r Hr]. rewrite Hr in *.
  replace (startsWith ("/admin" ++ r) "/api/") with false in * by reflexivity.
  replace (startsWith ("/admin" ++ r) "/api/admin") with false by reflexivity.
  replace (startsWith ("/admin" ++ r) "/api/admin/") with false by reflexivity.
  replace (startsWith ("/admin" ++ r) "/api/auth/") with false by reflexivity.
  replace (startsWith ("/admin" ++ r) "/api/public/") with false by reflexivity.
  rewrite startsWith_app. simpl negb in *. rewrite andb_true_r in *.
  rewrite andb_comm in Hbot. rewrite Hbot. unfold FIREBASE_TOKEN_COOKIE.
  destruct (cookies request !! "firebaseToken") as [token|]; [|reflexivity].
  destruct (String.eqb token ""); [reflexivity|].
  destruct (isValid (validateFirebaseTokenStructure env token)); reflexivity.
Qed.

Lemma empty_token_not_accepted (env : Env) : ~ tokenAccepted env "".
Proof. intros (p0 & p1 & p2 & header & payload & Hsplit & _). discriminate. Qed.

(** C5, as stated, fails twice. In production a request to /admin from a
    client the bot filter knows gets 403, not the redirect, though it has no
    token. And a token with every property the claim lists, whose key id has
    fewer than 10 characters, is redirected. The decoder is given on the two
    segments of that token. *)
Lemma admin_gate_is_not_as_claimed :
  let header := "eyJhbGciOiJSUzI1NiIsImtpZCI6ImFiYyJ9" in
  let payload :=
    "eyJpc3MiOiJodHRwczovL3NlY3VyZXRva2VuLmdvb2dsZS5jb20vY29uc29ydC1kaWdpdGFsIiwiYXVkIjoiY29uc29ydC1kaWdpdGFsIiwic3ViIjoidXNlci0wMTIzNDU2Nzg5IiwiZXhwIjoxNzAwMDAwNjAwLCJpYXQiOjE2OTk5OTk5MDB9" in
  let decode s :=
    if String.eqb s header then
      Some (JObject [("alg", JString "RS256"); ("kid", JString "abc")])
    else if String.eqb s payload then
      Some (JObject [("iss", JString "https://securetoken.google.com/consort-digital");
                     ("aud", JString "consort-digital");
                     ("sub", JString "user-0123456789");
                     ("exp", JNumber 1700000600);
                     ("iat", JNumber 1699999900)])
    else None in
  let env := mkEnv "production" (Some "consort-digital") 1700000000000 decode in
  let bot :=
    mkRequest "/admin" "GET" {[ "user-agent" := "curl/8.4.0" ]} ∅
      "https://consortdigital.com" in
  let token := header ++ "." ++ payload ++ ".c2ln" in
  let visitor :=
    mkRequest "/admin/products" "GET" {[ "user-agent" := "Mozilla/5.0" ]}
      {[ "firebaseToken" := token ]} "https://consortdigital.com" in
  (cookies bot !! "firebaseToken" = None /\
   status (middleware env bot) = 403 /\
   middleware env bot <> redirectToAuth bot) /\
  (claimedStructure env token /\
   middleware env visitor = redirectToAuth visitor).
Proof.
  intros header payload decode env bot token visitor. split; [split; [|split]|split].
  - reflexivity.
  - vm_compute. reflexivity.
  - intros H. apply (f_equal status) in H. vm_compute in H. discriminate.
  - exists header, payload, "c2ln".
    exists (JObject [("alg", JString "RS256"); ("kid", JString "abc")]).
    exists (JObject [("iss", JString "https://securetoken.google.com/consort-digital");
                     ("aud", JString "consort-digital");
                     ("sub", JString "user-0123456789");
                     ("exp", JNumber 1700000600);
                     ("iat", JNumber 1699999900)]).
    exists "abc", "consort-digital", "consort-digital", "user-0123456789".
    exists 1700000600, 1699999900.
    repeat (split; [first [vm_compute; reflexivity | discriminate]|]).
    vm_compute. discriminate.
  - vm_compute. reflexivity.
Qed.

(** C5, amended. For a request to a path starting with /admin that the
    production bot filter does not block (a blocked one gets 403), the
    middleware redirects to /auth exactly when the token cookie is absent or
    its value is not accepted by the validation: three parts separated by
    dots; a header and a payload that decode; algorithm RS256 and a key id of
    at least 10 characters; an issuer starting with
    https://securetoken.google.com/, an audience of at least 3 characters
    and a subject of at least 10; [exp] and [iat] numbers other than 0, with
    [exp] after now, [iat] at most 300 s after now and at most 3600 s before
    it; the issuer and audience those of the project when a project id is
    configured; a [firebase] claim that is falsy or an object and an
    [auth_time] that is falsy or a number not after now. Otherwise the
    request goes on to the page, with the security headers. *)
Theorem admin_page_redirects_unless_token_accepted
    (env : Env) (request : NextRequest) :
  startsWith (pathname request) "/admin" = true ->
  let token := cookies request !! "firebaseToken" in
  let response := middleware env request in
  (blockedBot env request = true -> status response = 403) /\
  (blockedBot env request = false ->
     (response = redirectToAuth request <->
        token = None \/ exists t, token = Some t /\ ~ tokenAccepted env t) /\
     ((exists t, token = Some t /\ tokenAccepted env t) ->
        body response = Next /\ carriesSecurityHeaders env response)).
Proof.
  intros Hadmin token response. subst token response. split.
  { intros Hbot. rewrite (middleware_blocked env request Hbot). reflexivity. }
  intros Hbot.
  rewrite (middleware_admin_page env request Hadmin Hbot).
  destruct (cookies request !! "firebaseToken") as [t|].
  2:{ split; [tauto|]. intros (t & [=] & _). }
  destruct (String.eqb_spec t "") as [->|Hne].
  { split.
    - split; [|reflexivity]. intros _. right. exists "".
      split; [reflexivity | apply empty_token_not_accepted].
    - intros (t & [= <-] & Hacc). destruct (empty_token_not_accepted env Hacc). }
  pose proof (validateFirebaseTokenStructure_accepts env t) as Hiff.
  destruct (isValid (validateFirebaseTokenStructure env t)).
  - assert (tokenAccepted env t) as Hacc by (apply Hiff; reflexivity). split.
    + split; [discriminate|].
      intros [[=] | (t' & [= <-] & Hnot)]. contradiction.
    + intros _. split; [reflexivity | apply passed_request_carries_security_headers].
  - assert (~ tokenAccepted env t) as Hnot
      by (intros Hacc; apply Hiff in Hacc; discriminate).
    split.
    + split; [eauto | reflexivity].
    + intros (t' & [= <-] & Hacc). contradiction.
Qed.

(** The theorem at a visitor without a cookie, outside production, and in
    production at a visitor whose token is accepted (the decoder is given on
    the two segments of the token). *)
Lemma admin_page_gate_witness :
  let header := "eyJhbGciOiJSUzI1NiIsImtpZCI6IjAxMjM0NTY3ODlhYmNkZWYifQ" in
  let payload :=
    "eyJpc3MiOiJodHRwczovL3NlY3VyZXRva2VuLmdvb2dsZS5jb20vY29uc29ydC1kaWdpdGFsIiwiYXVkIjoiY29uc29ydC1kaWdpdGFsIiwic3ViIjoidXNlci0wMTIzNDU2Nzg5IiwiZXhwIjoxNzAwMDAwNjAwLCJpYXQiOjE2OTk5OTk5MDB9" in
  let decode s :=
    if String.eqb s header then
      Some (JObject [("alg", JString "RS256"); ("kid", JString "0123456789abcdef")])
    else if String.eqb s payload then
      Some (JObject [("iss", JString "https://securetoken.google.com/consort-digital");
                     ("aud", JString "consort-digital");
                     ("sub", JString "user-0123456789");
                     ("exp", JNumber 1700000600);
                     ("iat", JNumber 1699999900)])
    else None in
  let development := mkEnv "development" None 1700000000000 (fun _ => None) in
  let anonymous :=
    mkRequest "/admin/products" "GET" {[ "user-agent" := "curl/8.4.0" ]} ∅
      "http://localhost:3000" in
  let production := mkEnv "production" (Some "consort-digital") 1700000000000 decode in
  let token := header ++ "." ++ payload ++ ".c2ln" in
  let signedIn :=
    mkRequest "/admin/products" "GET" {[ "user-agent" := "Mozilla/5.0" ]}
      {[ "firebaseToken" := token ]} "https://consortdigital.com" in
  middleware development anonymous = redirectToAuth anonymous /\
  body (middleware production signedIn) = Next /\
  responseHeaders (middleware production signedIn) !! "X-Frame-Options"
    = Some "SAMEORIGIN".
Proof.
  intros header payload decode development anonymous production token signedIn.
  split.
  - apply (proj1 (proj2 (admin_page_redirects_unless_token_accepted
                           development anonymous eq_refl) eq_refl)).
    left. reflexivity.
  - destruct (proj2 (proj2 (admin_page_redirects_unless_token_accepted
                              production signedIn eq_refl) eq_refl))
      as [Hnext Hheaders].
    + exists token. split; [reflexivity|].
      apply validateFirebaseTokenStructure_accepts. vm_compute. reflexivity.
    + split; [exact Hnext|]. apply Hheaders. simpl. auto.
Defined.

Lemma bare_response_has_no_security_header (name value : string) :
  ~ In name namedSecurityHeaders ->
  Forall (fun header => ({[ name := value ]} : gmap string string) !! header = None)
    namedSecurityHeaders.
Proof.
  intros Hname. apply Forall_forall. intros header Hin.
  apply lookup_singleton_ne. intros ->. apply Hname, list_elem_of_In, Hin.
Qed.

(** What the middleware itself puts on its two early answers. The response
    that blocks a bot is the bare 403, and the redirect of a visitor to an
    admin page without a token is the bare 307 to /auth: both are returned
    before the middleware sets its security headers, and the objects it
    returns hold none of the named headers. On these two answers the
    headers come from next.config.js alone. *)
Theorem early_responses_carry_no_security_header
    (env : Env) (request : NextRequest) :
  let response := middleware env request in
  (blockedBot env request = true ->
     status response = 403 /\
     Forall (fun header => responseHeaders response !! header = None)
       namedSecurityHeaders) /\
  (blockedBot env request = false ->
   startsWith (pathname request) "/admin" = true ->
   cookies request !! "firebaseToken" = None ->
     response = redirectToAuth request /\
     Forall (fun header => responseHeaders response !! header = None)
       namedSecurityHeaders).
Proof.
  intros response. subst response. split.
  - intros Hbot. rewrite (middleware_blocked env request Hbot).
    split; [reflexivity|]. apply bare_response_has_no_security_header.
    simpl. intuition discriminate.
  - intros Hbot Hadmin Hcookie.
    rewrite (middleware_admin_page env request Hadmin Hbot), Hcookie.
    split; [reflexivity|]. apply bare_response_has_no_security_header.
    simpl. intuition discriminate.
Qed.

(** The two early answers in production, at a crawler on a public page and
    at a visitor of an admin page who has no token. *)
Lemma early_responses_witness :
  let env := mkEnv "production" (Some "consort-digital") 1700000000000 (fun _ => None) in
  let bot :=
    mkRequest "/products" "GET" {[ "user-agent" := "curl/8.4.0" ]} ∅
      "https://consortdigital.com" in
  let visitor :=
    mkRequest "/admin/products" "GET" {[ "user-agent" := "Mozilla/5.0" ]} ∅
      "https://consortdigital.com" in
  (status (middleware env bot) = 403 /\
   responseHeaders (middleware env bot) !! "X-Content-Type-Options" = None /\
   responseHeaders (middleware env bot) !! "Content-Security-Policy" = None) /\
  (middleware env visitor
     = mkResponse (Redirect "https://consortdigital.com/auth") 307
         {[ "Location" := "https://consortdigital.com/auth" ]} /\
   responseHeaders (middleware env visitor) !! "X-Content-Type-Options" = None /\
   responseHeaders (middleware env visitor) !! "Content-Security-Policy" = None).
Proof.
  intros env bot visitor.
  destruct (proj1 (early_responses_carry_no_security_header env bot) eq_refl)
    as [Hstatus Hbare].
  destruct (proj2 (early_responses_carry_no_security_header env visitor)
              eq_refl eq_refl eq_refl) as [Hredirect Hbare'].
  rewrite Forall_forall in Hbare, Hbare'.
  split; (split; [assumption|]); split.
  - apply Hbare, list_elem_of_In. simpl. auto.
  - apply Hbare, list_elem_of_In. simpl. auto 10.
  - apply Hbare', list_elem_of_In. simpl. auto.
  - apply Hbare', list_elem_of_In. simpl. auto 10.
Defined.

End AdminGate.

(** ** Where an upload is stored *)
Module StoredPaths.
Import FirebaseAuth FileUploadSecurity SlotBasedUpload StringFacts PathComponents.

(** [uploadDoc] stores the object under the path it is given, in a file
    named after the uploaded file and the time: the reading of the clock is
    part of the object's path. *)
Lemma fullPath_depends_on_clock (env1 env2 : Env) (path : string) (file : File) :
  Date_now env1 path <> Date_now env2 path ->
  fullPath env1 path file <> fullPath env2 path file.
Proof.
  intros Hclock Heq. unfold fullPath, uniqueFileName in Heq.
  do 4 apply app_inv_head in Heq.
  apply app_inv_tail in Heq. apply (inj pretty) in Heq. contradiction.
Qed.

Lemma uploadDoc_stores_at_fullPath (env : Env) (path : string) (file : File)
    (st st' : Storage) (url : string) :
  uploadDoc env path file st = (Ok url, st') ->
  st' = <[fullPath env path file := file]> st.
Proof.
  unfold uploadDoc. destruct (currentUser env); [|discriminate].
  destruct (uploadBytes env (fullPath env path file) file); [discriminate|].
  intros [= _ <-]. reflexivity.
Qed.

(** Two uploads to one path at different times leave two objects. *)
Lemma second_upload_leaves_the_first (env1 env2 : Env) (path : string)
    (file1 file2 : File) (st st1 st2 : Storage) (url1 url2 : string) :
  uploadDoc env1 path file1 st = (Ok url1, st1) ->
  uploadDoc env2 path file2 st1 = (Ok url2, st2) ->
  name file1 = name file2 ->
  Date_now env1 path <> Date_now env2 path ->
  st2 !! fullPath env1 path file1 = Some file1 /\
  st2 !! fullPath env2 path file2 = Some file2.
Proof.
  intros H1 H2 Hname Hclock.
  apply uploadDoc_stores_at_fullPath in H1, H2. subst st1 st2.
  split; [|apply lookup_insert_eq].
  rewrite lookup_insert_ne; [apply lookup_insert_eq|].
  intros Heq. apply (fullPath_depends_on_clock env1 env2 path file1 Hclock).
  rewrite <- Heq. unfold fullPath, uniqueFileName. rewrite Hname. reflexivity.
Qed.

(** *** Slot paths of the gallery are directories to [uploadDoc] *)
Lemma all_app (class : ascii -> bool) (s t : string) :
  all class (s ++ t) = all class s && all class t.
Proof. unfold all. rewrite chars_app. apply forallb_app. Qed.

Lemma all_weaken (P Q : ascii -> bool) (s : string) :
  (forall c, P c = true -> Q c = true) -> all P s = true -> all Q s = true.
Proof.
  unfold all. intros HPQ H. apply forallb_forall. intros c Hc.
  apply HPQ. revert c Hc. apply forallb_forall. exact H.
Qed.

Lemma word_not_slash (c : ascii) : is_word c = true -> not_slash c = true.
Proof.
  intros H. unfold not_slash. destruct (Ascii.eqb_spec c "/") as [->|]; [|reflexivity].
  vm_compute in H. discriminate.
Qed.

Lemma word_segment_char (c : ascii) : is_word c = true -> is_segment_char c = true.
Proof. unfold is_segment_char. intros ->. reflexivity. Qed.

Lemma safe_all_word (s : string) : safe s -> all is_word s = true.
Proof. intros (_ & _ & H). apply forallb_forall. exact H. Qed.

Lemma pretty_digit_word (d : N) : is_word (pretty_N_char d) = true.
Proof. unfold pretty_N_char. repeat case_match; reflexivity. Qed.

Lemma pretty_N_go_word (x : N) :
  forall s, all is_word s = true -> all is_word (pretty_N_go x s) = true.
Proof.
  induction (N.lt_wf_0 x) as [x _ IH]. intros s Hs.
  destruct (N.eq_dec x 0%N) as [->|Hx]; [exact Hs|].
  rewrite pretty_N_go_step by lia. apply IH.
  - apply N.div_lt; lia.
  - unfold all in *. simpl. rewrite pretty_digit_word. exact Hs.
Qed.

(** A slot number is written with digits. *)
Lemma pretty_nat_word (n : nat) : all is_word (pretty n) = true.
Proof.
  unfold pretty, pretty_nat, pretty, pretty_N.
  destruct (decide _); [reflexivity|]. apply pretty_N_go_word. reflexivity.
Qed.

Lemma split_none (s : string) : all not_slash s = true -> split "/" s = [s].
Proof.
  unfold all, not_slash. induction s as [|c s IH]; [reflexivity|].
  simpl. intros H. apply andb_true_iff in H as [Hc Hs].
  apply negb_true_iff in Hc. rewrite Hc, (IH Hs). reflexivity.
Qed.

Lemma split_segment (s t : string) :
  all not_slash s = true -> split "/" (s ++ String "/" t) = s :: split "/" t.
Proof.
  unfold all, not_slash. induction s as [|c s IH]; intros H.
  - reflexivity.
  - simpl in H. apply andb_true_iff in H as [Hc Hs]. apply negb_true_iff in Hc.
    rewrite app_cons. cbn [split]. rewrite Hc, (IH Hs). reflexivity.
Qed.

Lemma replace_outside_id (class : ascii -> bool) (by_ : ascii) (s : string) :
  all class s = true -> replace_outside class by_ s = s.
Proof.
  unfold all. induction s as [|c s IH]; [reflexivity|].
  simpl. intros H. apply andb_true_iff in H as [Hc Hs]. rewrite Hc, (IH Hs). reflexivity.
Qed.

Lemma eqb_empty (s : string) : s <> "" -> String.eqb s "" = false.
Proof. intros H. destruct (String.eqb_spec s ""); [contradiction | reflexivity]. Qed.

(** [uploadDoc] leaves a gallery slot path as it is, and appends to it. *)
Lemma sanitizedPath_gallery (dir productId : string) (n : nat) :
  safe productId -> all is_word dir = true -> dir <> "" ->
  let slotPath :=
    "portfolio/" ++ productId ++ "/gallery/" ++ dir ++ "/slot_" ++ pretty n ++ ".webp" in
  sanitizedPath slotPath = slotPath.
Proof.
  intros Hsafe Hdir Hne slotPath. subst slotPath.
  pose proof (safe_all_word _ Hsafe) as Hid. destruct Hsafe as (Hid_ne & _ & _).
  set (last := "slot_" ++ pretty n ++ ".webp").
  assert (all is_word (pretty n) = true) as Hn by apply pretty_nat_word.
  assert (all is_segment_char last = true) as Hlast.
  { unfold last. rewrite !all_app.
    rewrite (all_weaken is_word is_segment_char (pretty n) word_segment_char Hn).
    reflexivity. }
  assert (all not_slash last = true) as Hlast'.
  { unfold last. rewrite !all_app.
    rewrite (all_weaken is_word not_slash (pretty n) word_not_slash Hn).
    reflexivity. }
  assert (last <> "") as Hlast_ne by discriminate.
  change ("portfolio/" ++ productId ++ "/gallery/" ++ dir ++ "/slot_" ++ pretty n ++ ".webp")
    with ("portfolio" ++ String "/" (productId ++ String "/"
            ("gallery" ++ String "/" (dir ++ String "/" last)))).
  unfold sanitizedPath.
  rewrite (split_segment "portfolio") by reflexivity.
  rewrite (split_segment productId) by (exact (all_weaken _ _ _ word_not_slash Hid)).
  rewrite (split_segment "gallery") by reflexivity.
  rewrite (split_segment dir) by (exact (all_weaken _ _ _ word_not_slash Hdir)).
  rewrite (split_none last Hlast').
  cbn [List.filter]. rewrite (eqb_empty _ Hid_ne), (eqb_empty _ Hne), (eqb_empty _ Hlast_ne).
  cbn [negb String.eqb Ascii.eqb Bool.eqb andb List.map].
  rewrite (replace_outside_id is_segment_char "_" productId)
    by (exact (all_weaken _ _ _ word_segment_char Hid)).
  rewrite (replace_outside_id is_segment_char "_" dir)
    by (exact (all_weaken _ _ _ word_segment_char Hdir)).
  rewrite (replace_outside_id is_segment_char "_" last Hlast).
  reflexivity.
Qed.

(** For every product id that passes [sanitizePathComponent], every slot
    number and every file: an upload to a gallery slot path that succeeds
    stores the object one level below the slot path, in a file named after
    the uploaded file and the time, and leaves what is at the slot path
    itself as it was. *)
Lemma gallery_slot_object_is_stored_below (sec : Security) (env : Env)
    (productId : string) (n : nat) (file : File) (st st' : Storage)
    (slotPath url : string) :
  safe productId ->
  slotPath = mainPath productId n \/ slotPath = thumbnailPath productId n ->
  uploadSingleFileWithTimeout sec env file slotPath st = (Ok url, st') ->
  st' = <[slotPath ++ "/" ++ uniqueFileName file (Date_now env slotPath) := file]> st /\
  st' !! slotPath = st !! slotPath.
Proof.
  intros Hsafe Hslot Hupload.
  assert (sanitizedPath slotPath = slotPath) as Hsame.
  { destruct Hslot as [-> | ->].
    - apply (sanitizedPath_gallery "main" productId n Hsafe); [reflexivity | discriminate].
    - apply (sanitizedPath_gallery "thumbnails" productId n Hsafe);
        [reflexivity | discriminate]. }
  unfold uploadSingleFileWithTimeout in Hupload.
  destruct (validateFile sec file) as [r|]; [|discriminate].
  destruct (isValid r); [|discriminate]. simpl in Hupload.
  apply uploadDoc_stores_at_fullPath in Hupload. subst st'.
  unfold fullPath. rewrite Hsame. split; [reflexivity|].
  apply lookup_insert_ne. intros Heq.
  apply (f_equal String.length) in Heq. rewrite !length_app in Heq. simpl in Heq. lia.
Qed.

(** C1 fails on the code. The gallery of product p1 is uploaded twice, one
    image each time, a second apart: the second upload does not replace the
    object of the first. Both are kept, under two paths that differ in the
    time stamp [uploadDoc] puts in the file name. *)
Lemma second_gallery_upload_does_not_overwrite :
  let sec := mkSecurity (fun _ => Ok (mkValidation true [] [] None)) (fun _ => ".webp") in
  let env now := mkEnv (Some "uid-1") (fun _ => now) (fun _ _ => None) (fun p => Ok p) in
  let before := mkFile "hero-720.webp" "image/webp" 4 "OLD." in
  let after := mkFile "hero-720.webp" "image/webp" 4 "NEW." in
  let st1 := snd (uploadGallery sec (env 1000) [before] "p1" "radio" ∅) in
  let st2 := snd (uploadGallery sec (env 2000) [after] "p1" "radio" st1) in
  st2 = {[ "portfolio/p1/gallery/main/slot_1.webp/hero-720_1000.webp" := before;
           "portfolio/p1/gallery/main/slot_1.webp/hero-720_2000.webp" := after ]}.
Proof. vm_compute. reflexivity. Qed.

(** C3 fails on the code. The first main image and the first thumbnail of
    product p1 are uploaded: the uploader names the slot paths
    portfolio/p1/gallery/main/slot_1.webp and
    portfolio/p1/gallery/thumbnails/slot_1.webp, and no object is stored at
    either. [uploadDoc] stores each one level below, in a file named after
    the uploaded file and the time. *)
Lemma gallery_objects_are_not_at_their_slot_paths :
  let sec := mkSecurity (fun _ => Ok (mkValidation true [] [] None)) (fun _ => ".webp") in
  let env := mkEnv (Some "uid-1") (fun _ => 1000) (fun _ _ => None) (fun p => Ok p) in
  let main := mkFile "hero-720.webp" "image/webp" 4 "MAIN" in
  let thumbnail := mkFile "hero-320.webp" "image/webp" 4 "THUM" in
  let served := uploadGallery sec env [main; thumbnail] "p1" "radio" ∅ in
  mainPath "p1" 1 = "portfolio/p1/gallery/main/slot_1.webp" /\
  thumbnailPath "p1" 1 = "portfolio/p1/gallery/thumbnails/slot_1.webp" /\
  snd served !! mainPath "p1" 1 = None /\
  snd served !! thumbnailPath "p1" 1 = None /\
  snd served
    = {[ "portfolio/p1/gallery/main/slot_1.webp/hero-720_1000.webp" := main;
         "portfolio/p1/gallery/thumbnails/slot_1.webp/hero-320_1000.webp" := thumbnail ]} /\
  fst served = Ok ["portfolio/p1/gallery/main/slot_1.webp/hero-720_1000.webp"].
Proof. repeat split; vm_compute; reflexivity. Qed.

End StoredPaths.

(** ** The limiter's store *)
Module LimiterStore.
Import UploadRoute RateSpec UploadRouteTimer LimiterSpec RateLimiter.

(** The decision on a request and the record it leaves depend on the store
    through the record of the key only. *)
Lemma check_local key now (s1 s2 : gmap string RateRecord) :
  s1 !! key = s2 !! key ->
  fst (checkUploadRateLimit key now s1) = fst (checkUploadRateLimit key now s2) /\
  snd (checkUploadRateLimit key now s1) !! key
    = snd (checkUploadRateLimit key now s2) !! key.
Proof.
  intros H. unfold checkUploadRateLimit, liveRecord. rewrite H.
  destruct (s2 !! key) as [r|].
  - destruct (resetTime r <? now); simpl.
    + destruct (maxRequests <=? 0); simpl; rewrite !lookup_insert_eq; auto.
    + destruct (maxRequests <=? count r); simpl; rewrite !lookup_insert_eq; auto.
  - simpl. destruct (maxRequests <=? 0); simpl; rewrite !lookup_insert_eq; auto.
Qed.

(** A record whose window is over counts as no record. *)
Lemma check_stale key now (s1 s2 : gmap string RateRecord) r :
  s1 !! key = None -> s2 !! key = Some r -> resetTime r < now ->
  fst (checkUploadRateLimit key now s1) = fst (checkUploadRateLimit key now s2) /\
  snd (checkUploadRateLimit key now s1) !! key
    = snd (checkUploadRateLimit key now s2) !! key.
Proof.
  intros H1 H2 Hr. unfold checkUploadRateLimit, liveRecord. rewrite H1, H2.
  destruct (Z.ltb_spec (resetTime r) now); [|lia]. simpl.
  destruct (maxRequests <=? 0); simpl; rewrite !lookup_insert_eq; auto.
Qed.

Lemma decisionsFor_cons key k (t : Z) rest (d : bool) ds :
  decisionsFor key ((k, t) :: rest) (d :: ds)
    = ((if String.eqb k key then [d] else []) ++ decisionsFor key rest ds)%list.
Proof. unfold decisionsFor. simpl. destruct (String.eqb k key); reflexivity. Qed.

Lemma serve_requestsOf (key : string) (trace : list (string * Z)) :
  forall s1 s2 : gmap string RateRecord,
    s1 !! key = s2 !! key ->
    decisionsFor key trace (fst (serve s1 trace))
      = fst (serve s2 (requestsOf key trace)).
Proof.
  induction trace as [|[k t] rest IH]; intros s1 s2 H; [reflexivity|].
  rewrite serve_cons. cbn [fst]. rewrite decisionsFor_cons.
  unfold requestsOf. cbn [List.filter fst].
  destruct (String.eqb_spec k key) as [->|Hne].
  - fold (requestsOf key rest). rewrite serve_cons. cbn [fst app].
    destruct (check_local key t s1 s2 H) as [Hd Hs]. rewrite Hd. f_equal.
    apply IH. exact Hs.
  - cbn [app]. apply IH. rewrite check_other by assumption. exact H.
Qed.

(** X1. The decisions on the requests for a key are those the limiter would
    make if it were sent the requests for that key alone: what is asked
    under other keys neither uses up nor restores the allowance of a key. *)
Theorem limiter_keys_are_independent (store : gmap string RateRecord)
    (key : string) (trace : list (string * Z)) :
  decisionsFor key trace (fst (serve store trace))
    = fst (serve store (requestsOf key trace)).
Proof. apply serve_requestsOf. reflexivity. Qed.

Lemma cleanup_agree (now : Z) (store : gmap string RateRecord) :
  agree_from now (cleanup now store) store.
Proof.
  intros k. unfold cleanup. destruct (store !! k) as [r|] eqn:Hk.
  - destruct (decide (resetTime r + 300000 < now)) as [Hold|Hlive].
    + right. split; [|exists r; split; [reflexivity | lia]].
      apply map_lookup_filter_None. right. intros r' Hr'. simpl.
      assert (r' = r) as -> by congruence. tauto.
    + left. apply map_lookup_filter_Some. split; [assumption | exact Hlive].
  - left. apply map_lookup_filter_None. left. assumption.
Qed.

Lemma check_agree (now : Z) key t (s1 s2 : gmap string RateRecord) :
  agree_from now s1 s2 -> now <= t ->
  fst (checkUploadRateLimit key t s1) = fst (checkUploadRateLimit key t s2) /\
  agree_from now (snd (checkUploadRateLimit key t s1))
    (snd (checkUploadRateLimit key t s2)).
Proof.
  intros H Ht.
  assert (fst (checkUploadRateLimit key t s1) = fst (checkUploadRateLimit key t s2) /\
          snd (checkUploadRateLimit key t s1) !! key
            = snd (checkUploadRateLimit key t s2) !! key) as [Hd Hs].
  { destruct (H key) as [Heq | (Hnone & r & Hr & Hold)].
    - apply check_local. exact Heq.
    - apply (check_stale key t s1 s2 r); [assumption | assumption | lia]. }
  split; [exact Hd|]. intros k. destruct (decide (key = k)) as [<-|Hne].
  - left. exact Hs.
  - rewrite !check_other by assumption. apply H.
Qed.

Lemma serve_agree (now : Z) (trace : list (string * Z)) :
  forall s1 s2 : gmap string RateRecord,
    agree_from now s1 s2 ->
    (forall k t, In (k, t) trace -> now <= t) ->
    fst (serve s1 trace) = fst (serve s2 trace).
Proof.
  induction trace as [|[k t] rest IH]; intros s1 s2 H Hin; [reflexivity|].
  rewrite !serve_cons. cbn [fst].
  destruct (check_agree now k t s1 s2 H) as [Hd Hs].
  { apply (Hin k). left. reflexivity. }
  rewrite Hd. f_equal. apply IH; [exact Hs|].
  intros k' t' Hin'. apply (Hin k'). right. exact Hin'.
Qed.

(** X2. The timer that empties the limiter's store changes no decision:
    whatever the store, the requests made from the time the timer ran are
    decided as they would have been without it. *)
Theorem cleanup_changes_no_decision (now : Z) (store : gmap string RateRecord)
    (trace : list (string * Z)) :
  (forall k t, In (k, t) trace -> now <= t) ->
  fst (serve (cleanup now store) trace) = fst (serve store trace).
Proof. apply serve_agree, cleanup_agree. Qed.

Lemma cleanup_changes_no_decision_witness :
  let store : gmap string RateRecord :=
    {[ "a" := mkRecord 20 1000 1; "b" := mkRecord 20 400000 3 ]} in
  let trace := [("a", 400000); ("b", 400000); ("b", 400001)] in
  cleanup 400000 store = {[ "b" := mkRecord 20 400000 3 ]} /\
  fst (serve (cleanup 400000 store) trace) = [true; false; false] /\
  fst (serve store trace) = [true; false; false].
Proof.
  intros store trace.
  assert (forall k t, In (k, t) trace -> 400000 <= t) as Hlater.
  { intros k t Hin. simpl in Hin.
    destruct Hin as [[= <- <-]|[[= <- <-]|[[= <- <-]|[]]]]; lia. }
  pose proof (cleanup_changes_no_decision 400000 store trace Hlater) as Hsame.
  assert (fst (serve store trace) = [true; false; false]) as Hds
    by (vm_compute; reflexivity).
  split; [vm_compute; reflexivity|].
  split; [rewrite Hsame; exact Hds | exact Hds].
Defined.

Lemma check_bounded key now (store : gmap string RateRecord) :
  counts_bounded store ->
  counts_bounded (snd (checkUploadRateLimit key now store)) /\
  0 <= count (fst (liveRecord key now store)) <= maxRequests.
Proof.
  intros H.
  assert (0 <= count (fst (liveRecord key now store)) <= maxRequests) as Hlive.
  { unfold liveRecord. destruct (store !! key) as [r|] eqn:Hk.
    - destruct (resetTime r <? now); simpl; [unfold maxRequests; lia | eauto].
    - simpl. unfold maxRequests. lia. }
  split; [|exact Hlive]. intros k r Hr.
  destruct (decide (key = k)) as [<-|Hne].
  - unfold checkUploadRateLimit in Hr.
    destruct (liveRecord key now store) as [record store']. simpl in Hlive.
    destruct (Z.leb_spec maxRequests (count record)); simpl in Hr;
      rewrite lookup_insert_eq in Hr; injection Hr as <-; simpl; lia.
  - rewrite check_other in Hr by assumption. eauto.
Qed.

Lemma serve_bounded (trace : list (string * Z)) :
  forall store : gmap string RateRecord,
    counts_bounded store -> counts_bounded (snd (serve store trace)).
Proof.
  induction trace as [|[k t] rest IH]; intros store H; [exact H|].
  rewrite serve_cons. cbn [snd]. apply IH, check_bounded, H.
Qed.

(** The reset time of the record in use is not before the request. *)
Lemma liveRecord_reset key now (store : gmap string RateRecord) :
  now <= resetTime (fst (liveRecord key now store)).
Proof.
  unfold liveRecord. destruct (store !! key) as [r|].
  - destruct (Z.ltb_spec (resetTime r) now); simpl; [unfold windowMs|]; lia.
  - simpl. unfold windowMs. lia.
Qed.

(** X3. What the limiter reports, after any requests served from an empty
    store: the limit is 20; an allowed request is told how many of the 20
    are left, a number from 0 to 19; a refused one is told 0; and the reset
    time reported is never before the request. *)
Theorem limiter_reports_are_in_range (trace : list (string * Z))
    (key : string) (now : Z) :
  let report := fst (checkUploadRateLimit key now (snd (serve ∅ trace))) in
  limit report = 20 /\
  0 <= remaining report <= 19 /\
  (success report = false <-> remaining report = 0 /\
     maxRequests <= count (fst (liveRecord key now (snd (serve ∅ trace))))) /\
  now <= reset report.
Proof.
  intros report. subst report.
  assert (counts_bounded (snd (serve ∅ trace))) as Hb.
  { apply serve_bounded. intros k r Hr. rewrite lookup_empty in Hr. discriminate. }
  destruct (check_bounded key now _ Hb) as [_ Hcount].
  pose proof (liveRecord_reset key now (snd (serve ∅ trace))) as Hreset.
  unfold checkUploadRateLimit.
  destruct (liveRecord key now (snd (serve ∅ trace))) as [record store'].
  simpl in Hcount, Hreset. unfold maxRequests in *.
  destruct (Z.leb_spec 20 (count record)); simpl.
  - split; [reflexivity|]. split; [lia|]. split; [intuition lia|].
    destruct (3 <=? violations record + 1); lia.
  - split; [reflexivity|]. split; [lia|]. split; [|lia].
    split; [discriminate | lia].
Qed.

(** X4. The penalty. When a request is refused and the record of its key
    already counts two refusals, the reset time reported is at least three
    minutes after the request, and every request for the key up to three
    minutes after it is refused, whatever is asked under other keys. *)
Theorem third_refusal_blocks_three_minutes (store : gmap string RateRecord)
    (key : string) (now : Z) (trace : list (string * Z)) :
  let record := fst (liveRecord key now store) in
  let check := checkUploadRateLimit key now store in
  maxRequests <= count record ->
  2 <= violations record ->
  (forall t, In (key, t) trace -> t <= now + 3 * windowMs) ->
  success (fst check) = false /\
  now + 3 * windowMs <= reset (fst check) /\
  forall i t, trace !! i = Some (key, t) ->
    fst (serve (snd check) trace) !! i = Some false.
Proof.
  intros record check Hfull Hviol Hin. subst record check.
  unfold checkUploadRateLimit in *.
  destruct (liveRecord key now store) as [record store']. simpl in Hfull, Hviol.
  destruct (Z.leb_spec maxRequests (count record)); [|lia]. cbn [fst snd success reset].
  destruct (Z.leb_spec 3 (violations record + 1)); [|lia].
  split; [reflexivity|]. split; [lia|].
  intros i t Hi.
  set (r' := mkRecord (count record)
               (Z.max (resetTime record) (now + windowMs * 3)) (violations record + 1)).
  destruct (serve_in_window key trace (<[key := r']> store') r') as [Hdec _].
  { apply lookup_insert_eq. }
  { intros t' Ht'. specialize (Hin t' Ht'). subst r'. simpl. lia. }
  rewrite (Hdec i t Hi). f_equal. subst r'. simpl.
  apply Z.ltb_ge. lia.
Qed.

Lemma third_refusal_witness :
  let store : gmap string RateRecord := {[ "k" := mkRecord 20 60000 2 ]} in
  let trace := [("k", 61000); ("other", 70000); ("k", 230000)] in
  reset (fst (checkUploadRateLimit "k" 50000 store)) = 230000 /\
  fst (serve (snd (checkUploadRateLimit "k" 50000 store)) trace) !! 0%nat = Some false /\
  fst (serve (snd (checkUploadRateLimit "k" 50000 store)) trace) !! 2%nat = Some false.
Proof.
  intros store trace.
  assert (maxRequests <= count (fst (liveRecord "k" 50000 store))) as Hfull
    by (vm_compute; discriminate).
  assert (2 <= violations (fst (liveRecord "k" 50000 store))) as Hviol
    by (vm_compute; discriminate).
  assert (forall t, In ("k", t) trace -> t <= 50000 + 3 * windowMs) as Hin.
  { intros t Ht. simpl in Ht.
    destruct Ht as [[= <-]|[[=]|[[= <-]|[]]]]; vm_compute; discriminate. }
  destruct (third_refusal_blocks_three_minutes store "k" 50000 trace Hfull Hviol Hin)
    as (_ & _ & Hrefused).
  split; [vm_compute; reflexivity|].
  split; [exact (Hrefused 0%nat 61000 eq_refl) | exact (Hrefused 2%nat 230000 eq_refl)].
Defined.

End LimiterStore.

(** ** Sanitized paths and the directory of a document *)
Module SanitizedPaths.
Import FirebaseAuth FileUploadSecurity SlotBasedUpload StringFacts PathComponents.
Import StoredPaths SegmentSpec.

Lemma segment_char_not_slash (c : ascii) :
  is_segment_char c = true -> not_slash c = true.
Proof.
  intros H. unfold not_slash. destruct (Ascii.eqb_spec c "/") as [->|]; [|reflexivity].
  vm_compute in H. discriminate.
Qed.

Lemma replace_outside_all (class Q : ascii -> bool) (by_ : ascii) (s : string) :
  (forall c, class c = true -> Q c = true) -> Q by_ = true ->
  all Q (replace_outside class by_ s) = true.
Proof.
  intros Hclass Hby. unfold all. induction s as [|c s IH]; [reflexivity|].
  simpl. rewrite IH, andb_true_r. destruct (class c) eqn:Hc; auto.
Qed.

Lemma segments_clean (path : string) : Forall clean (segments path).
Proof.
  unfold segments. apply Forall_forall. intros s Hs.
  apply list_elem_of_In, in_map_iff in Hs as (x & <- & Hx).
  apply filter_In in Hx as [_ Hne]. split.
  - destruct x; [discriminate | discriminate].
  - apply replace_outside_all; auto.
Qed.

Lemma split_not_nil (s : string) : split "/" s <> [].
Proof.
  destruct s as [|c s]; simpl; [discriminate|].
  destruct (Ascii.eqb c "/"); [discriminate|]. destruct (split "/" s); discriminate.
Qed.

Lemma split_app (a b : string) :
  split "/" (a ++ "/" ++ b) = (split "/" a ++ split "/" b)%list.
Proof.
  induction a as [|c a IH]; [reflexivity|].
  rewrite app_cons. cbn [split]. rewrite IH.
  destruct (Ascii.eqb c "/"); [reflexivity|].
  pose proof (split_not_nil a). destruct (split "/" a); [contradiction | reflexivity].
Qed.

Lemma segments_app (a b : string) :
  segments (a ++ "/" ++ b) = (segments a ++ segments b)%list.
Proof. unfold segments. rewrite split_app, List.filter_app, List.map_app. reflexivity. Qed.

Lemma split_join (l : list string) :
  l <> [] -> Forall clean l -> split "/" (join "/" l) = l.
Proof.
  intros Hne Hl. induction Hl as [|x l [_ Hx] Hl IH]; [contradiction|].
  assert (all not_slash x = true) as Hslash
    by (apply (all_weaken is_segment_char); [apply segment_char_not_slash | exact Hx]).
  destruct l as [|y l].
  - apply split_none. exact Hslash.
  - change (join "/" (x :: y :: l)) with (x ++ String "/" (join "/" (y :: l))).
    rewrite split_segment by exact Hslash. rewrite IH by discriminate. reflexivity.
Qed.

Lemma clean_kept (l : list string) :
  Forall clean l ->
  List.map (replace_outside is_segment_char "_")
    (List.filter (fun segment => negb (String.eqb segment "")) l) = l.
Proof.
  induction 1 as [|x l [Hne Hx] _ IH]; [reflexivity|].
  simpl. rewrite (eqb_empty x Hne). simpl.
  rewrite IH, (replace_outside_id _ _ x Hx). reflexivity.
Qed.

Lemma segments_join (l : list string) :
  Forall clean l -> segments (join "/" l) = l.
Proof.
  intros Hl. destruct l as [|x l]; [reflexivity|].
  unfold segments. rewrite split_join by (discriminate || assumption).
  apply clean_kept. exact Hl.
Qed.

(** X5. The path [uploadDoc] and the upload endpoint store under is made of
    segments that are not empty and hold only letters, digits, [-], [_] and
    [.], joined by single slashes (so it neither starts nor ends with a
    slash); sanitizing it again changes nothing. *)
Theorem sanitizedPath_is_clean_and_stable (path : string) :
  sanitizedPath path = join "/" (segments path) /\
  Forall clean (segments path) /\
  segments (sanitizedPath path) = segments path /\
  sanitizedPath (sanitizedPath path) = sanitizedPath path.
Proof.
  assert (segments (sanitizedPath path) = segments path) as Hsame
    by (apply segments_join, segments_clean).
  split; [reflexivity|]. split; [apply segments_clean|]. split; [exact Hsame|].
  change (join "/" (segments (sanitizedPath path)) = sanitizedPath path).
  rewrite Hsame. reflexivity.
Qed.

(** X6. A path made of clean segments is returned as it is. In particular
    sanitizing does not remove dot segments: [..] is a clean segment. *)
Theorem sanitizedPath_keeps_clean_paths (l : list string) :
  Forall clean l -> sanitizedPath (join "/" l) = join "/" l.
Proof.
  intros Hl. change (sanitizedPath ?p) with (join "/" (segments p)).
  rewrite segments_join by exact Hl. reflexivity.
Qed.

Lemma clean_paths_witness :
  sanitizedPath "portfolio/../../secrets" = "portfolio/../../secrets".
Proof.
  assert (Forall clean ["portfolio"; ".."; ".."; "secrets"]) as Hl
    by (repeat constructor; discriminate).
  exact (sanitizedPath_keeps_clean_paths ["portfolio"; ".."; ".."; "secrets"] Hl).
Defined.

Lemma segments_word (s : string) :
  s <> "" -> all is_word s = true -> segments s = [s].
Proof.
  intros Hne Hs. unfold segments.
  rewrite split_none by (apply (all_weaken is_word); [apply word_not_slash | exact Hs]).
  simpl. rewrite (eqb_empty s Hne). simpl.
  rewrite replace_outside_id
    by (apply (all_weaken is_word); [apply word_segment_char | exact Hs]).
  reflexivity.
Qed.

Lemma join_app_prefix (l1 l2 : list string) (u : string) :
  l1 <> [] ->
  exists r, join "/" (l1 ++ l2) ++ "/" ++ u = (join "/" l1 ++ "/") ++ r.
Proof.
  intros Hne. induction l1 as [|x l1 IH]; [contradiction|].
  destruct l1 as [|y l1].
  - destruct l2 as [|z l2].
    + exists u. simpl. rewrite app_assoc. reflexivity.
    + exists (join "/" (z :: l2) ++ "/" ++ u).
      change (join "/" ([x] ++ z :: l2)%list) with (x ++ "/" ++ join "/" (z :: l2)).
      change (join "/" [x]) with x. rewrite !app_assoc. reflexivity.
  - destruct IH as [r Hr]; [discriminate|]. exists r.
    change (join "/" ((x :: y :: l1) ++ l2)%list)
      with (x ++ "/" ++ join "/" ((y :: l1) ++ l2)%list).
    change (join "/" (x :: y :: l1)) with (x ++ "/" ++ join "/" (y :: l1)).
    rewrite !app_assoc. rewrite Hr. rewrite !app_assoc. reflexivity.
Qed.

(** An object stored for a path below [base/documentId/] is stored below
    that directory. *)
Lemma fullPath_below (env : Env) (base documentId rest : string) (file : File) :
  base <> "" -> all is_word base = true -> safe documentId ->
  startsWith (fullPath env (base ++ "/" ++ documentId ++ "/" ++ rest) file)
    (base ++ "/" ++ documentId ++ "/") = true.
Proof.
  intros Hbase Hword Hsafe. unfold fullPath.
  change (sanitizedPath ?p) with (join "/" (segments p)).
  replace (base ++ "/" ++ documentId ++ "/" ++ rest)
    with ((base ++ "/" ++ documentId) ++ "/" ++ rest) by (rewrite !app_assoc; reflexivity).
  rewrite segments_app, segments_app, (segments_word base Hbase Hword).
  rewrite (segments_word documentId (proj1 Hsafe) (safe_all_word _ Hsafe)).
  destruct (join_app_prefix ([base] ++ [documentId]) (segments rest)
              (uniqueFileName file (Date_now env ((base ++ "/" ++ documentId) ++ "/" ++ rest))))
    as [r Hr]; [discriminate|].
  rewrite Hr. apply prefix_spec. exists r.
  change (join "/" ([base] ++ [documentId])%list) with (base ++ "/" ++ documentId).
  rewrite !app_assoc. reflexivity.
Qed.

Section Slots.
Context (sec : Security) (env : Env) (config : SlotConfig)
  (documentId slug fileType : string) (subPath : option string) (startIndex : nat).

Lemma generateSlotPath_below (filename slotPath : string) :
  generateSlotPath config documentId filename subPath = Ok slotPath ->
  safe documentId /\
  exists rest, slotPath = basePath config ++ "/" ++ documentId ++ "/" ++ rest.
Proof.
  unfold generateSlotPath.
  destruct (sanitizePathComponent documentId "documentId") as [d|e] eqn:Hd;
    [|discriminate].
  apply sanitize_inv in Hd as [-> Hsafe]. cbn [bind]. intros H. split; [exact Hsafe|].
  destruct (truthy subPath) as [sub|].
  - destruct (sanitizePathComponent sub "subPath") as [s|e]; [|discriminate].
    injection H as <-. eauto.
  - injection H as <-. eauto.
Qed.

(** What one slot upload does to the store. *)
Lemma uploadSlot_storage (file : option File) (index : nat) (errs : list string)
    (st : Storage) :
  let st' :=
    snd (snd (uploadSlot sec env config documentId slug fileType subPath startIndex
                file index (errs, st))) in
  st' = st \/
  exists f filename slotPath,
    file = Some f /\
    generateSlotPath config documentId filename subPath = Ok slotPath /\
    st' = <[fullPath env slotPath f := f]> st.
Proof.
  intros st'. subst st'. unfold uploadSlot.
  destruct file as [f|]; [|left; reflexivity].
  destruct (validateFile sec f) as [validation|e] eqn:Hvalid; [|left; reflexivity].
  destruct (isValid validation) eqn:Hok; cbn [negb]; [|left; reflexivity].
  destruct (generateCustomFilename sec slug fileType f (Some index) _)
    as [filename|e]; [|left; reflexivity].
  destruct (generateSlotPath config documentId filename subPath)
    as [slotPath|e] eqn:Hpath; [|left; reflexivity].
  unfold uploadSingleFileWithTimeout. rewrite Hvalid, Hok. cbn [negb].
  unfold uploadDoc.
  destruct (currentUser env); [|left; reflexivity].
  destruct (uploadBytes env (fullPath env slotPath f) f); [left; reflexivity|].
  right. exists f, filename, slotPath.
  split; [reflexivity|]. split; [exact Hpath|].
  destruct (getDownloadURL env (fullPath env slotPath f)); reflexivity.
Qed.

Lemma mapAsync_uploadSlot_outside (p : string) :
  basePath config <> "" -> all is_word (basePath config) = true ->
  startsWith p (basePath config ++ "/" ++ documentId ++ "/") = false ->
  forall files index errs st,
    snd (snd (mapAsync
                (uploadSlot sec env config documentId slug fileType subPath startIndex)
                files index (errs, st))) !! p = st !! p.
Proof.
  intros Hbase Hword Hout. induction files as [|file files IH]; intros index errs st.
  - reflexivity.
  - cbn [mapAsync].
    pose proof (uploadSlot_storage file index errs st) as Hstep. cbv zeta in Hstep.
    destruct (uploadSlot sec env config documentId slug fileType subPath startIndex
                file index (errs, st)) as [r [errs1 st1]].
    specialize (IH (S index) errs1 st1).
    destruct (mapAsync _ files (S index) (errs1, st1)) as [rs [errs2 st2]].
    cbn [snd] in *. rewrite IH.
    destruct Hstep as [-> | (f & filename & slotPath & _ & Hpath & ->)]; [reflexivity|].
    apply generateSlotPath_below in Hpath as [Hsafe [rest ->]].
    apply lookup_insert_ne. intros <-.
    rewrite (fullPath_below env _ _ rest f Hbase Hword Hsafe) in Hout. discriminate.
Qed.

(** X7. [uploadToSlots] stays in the directory of its document: when the
    base path of the configuration is one word (as it is for the product,
    solution, resource and post configurations), every object of the store
    whose path does not start with [basePath/documentId/] is after the call
    what it was before, whether the call returns or throws. *)
Theorem uploadToSlots_stays_in_document_directory (files : list (option File))
    (st : Storage) (p : string) :
  basePath config <> "" -> all is_word (basePath config) = true ->
  startsWith p (basePath config ++ "/" ++ documentId ++ "/") = false ->
  snd (uploadToSlots sec env files config documentId slug fileType subPath
         startIndex st) !! p = st !! p.
Proof.
  intros Hbase Hword Hout. unfold uploadToSlots.
  destruct (maxSlots config <? length files)%nat; [reflexivity|].
  pose proof (mapAsync_uploadSlot_outside p Hbase Hword Hout files 0%nat [] st) as H.
  destruct (mapAsync _ files 0%nat ([], st)) as [rs [errs st']]. exact H.
Qed.

End Slots.

Lemma uploadToSlots_directory_witness :
  let sec := mkSecurity (fun _ => Ok (mkValidation true [] [] None)) (fun _ => ".webp") in
  let env := mkEnv (Some "u1") (fun _ => 1700000000000) (fun _ _ => None) (fun p => Ok p) in
  let other := mkFile "logo.webp" "image/webp" 9 "RIFF" in
  let st : Storage := {[ "portfolio/p2/photo_1.webp" := other ]} in
  let files := [Some (mkFile "a.webp" "image/webp" 4 "RIFF"); None] in
  let st' :=
    snd (uploadToSlots sec env files productGallery "p1" "radio" "photo" None 0%nat st) in
  st' !! "portfolio/p2/photo_1.webp" = Some other /\
  st' !! "portfolio/p1/radio_photo_1.webp/a_1700000000000.webp"
    = Some (mkFile "a.webp" "image/webp" 4 "RIFF").
Proof.
  intros sec env other st files st'. split.
  - subst st'.
    rewrite (uploadToSlots_stays_in_document_directory sec env productGallery
               "p1" "radio" "photo" None 0%nat files st "portfolio/p2/photo_1.webp");
      [reflexivity | discriminate | reflexivity | reflexivity].
  - vm_compute. reflexivity.
Defined.

End SanitizedPaths.

(** ** What the upload endpoint does to its state *)
Module UploadEffects.
Import FileUploadSecurity UploadRoute StringFacts PathSpec SanitizedPaths.

(** The handler leaves the limiter's store alone. *)
Lemma handleFileUpload_limiter (env : Env) (tick : nat) (request : NextRequest)
    (user : AuthenticatedUser) (sv : Server) :
  uploadRateLimitStore (snd (handleFileUpload env tick request user sv))
    = uploadRateLimitStore sv.
Proof.
  unfold handleFileUpload.
  repeat (case_match; try reflexivity).
Qed.

(** X8. Every request of an authenticated user is counted by the limiter
    under the key of its IP and uid, whatever the answer (also one refused
    for its size, its form data, its file or its path, and one whose upload
    fails); a request that is not authenticated is not counted. *)
Theorem authenticated_requests_are_counted (env : Env) (request : NextRequest)
    (sv : Server) :
  uploadRateLimitStore (snd (POST env request sv))
    = match validateFirebaseToken env request with
      | Ok (Some user) =>
          snd (checkUploadRateLimit
                 ("upload_" ++ getClientIP env request ++ "_" ++ uid user)
                 (Date_now env 1%nat) (uploadRateLimitStore sv))
      | _ => uploadRateLimitStore sv
      end.
Proof.
  unfold POST, secureUploadWrapper.
  destruct (validateFirebaseToken env request) as [[user|]|e]; try reflexivity.
  destruct (checkUploadRateLimit _ _ _) as [rateLimitResult store']. cbn [snd].
  destruct (negb (success rateLimitResult)); [reflexivity|].
  destruct (match contentLength request with Some n => _ | None => _ end);
    [reflexivity|].
  rewrite handleFileUpload_limiter. reflexivity.
Qed.

(** What the handler does to the object store. *)
Lemma handleFileUpload_storage (env : Env) (tick : nat) (request : NextRequest)
    (user : AuthenticatedUser) (sv : Server) :
  let served := handleFileUpload env tick request user sv in
  (storage (snd served) = storage sv /\ status (fst served) <> 200) \/
  exists file path validation,
    formData request = Ok (Some file, Some path) /\ path <> "" /\
    size file <> 0 /\ size file <= 10 * 1024 * 1024 /\
    validateFile (security env) file = Ok validation /\
    isValid validation = true /\
    isPathAllowed env path = true /\
    let fullPath :=
      "admin-uploads/" ++ replace_outside is_alnum "_" (uid user) ++ "/"
        ++ FirebaseAuth.sanitizedPath path ++ "/"
        ++ FirebaseAuth.uniqueFileName file (Date_now env (tick + 1)%nat) in
    uploadBytes env fullPath file = None /\
    storage (snd served) = <[fullPath := file]> (storage sv).
Proof.
  intros served. subst served. unfold handleFileUpload.
  destruct (formData request) as [[[file|] [path|]]|e];
    try (left; split; [reflexivity | discriminate]).
  destruct (String.eqb_spec path "") as [|Hpath];
    [left; split; [reflexivity | discriminate]|].
  destruct (Z.ltb_spec (10 * 1024 * 1024) (size file)) as [|Hsize];
    [left; split; [reflexivity | discriminate]|].
  destruct (Z.eqb_spec (size file) 0) as [|Hempty];
    [left; split; [reflexivity | discriminate]|].
  destruct (validateFile (security env) file) as [validation|e] eqn:Hvalid;
    [|left; split; [reflexivity | discriminate]].
  destruct (isValid validation) eqn:Hok; cbn [negb];
    [|left; split; [reflexivity | discriminate]].
  destruct (isPathAllowed env path) eqn:Hallowed; cbn [negb];
    [|left; split; [reflexivity | discriminate]].
  destruct (uploadBytes env _ file) as [e|] eqn:Hupload;
    [left; split; [reflexivity | discriminate]|].
  right. exists file, path, validation.
  do 7 (split; [first [assumption | reflexivity]|]).
  cbv zeta. split; [exact Hupload|].
  destruct (getDownloadURL env _); reflexivity.
Qed.

(** X9. The endpoint changes the object store in one way only: it stores
    the file of the form, once, at a path under [admin-uploads/], then a
    directory named after the user's uid with every character outside
    [[a-zA-Z0-9]] replaced (so without a slash), then the sanitized path of
    the form. It does so only for an authenticated user whom the limiter
    allows, when the declared length is not above 10 MB, the file is not
    empty and not above 10 MB, the validator accepts it and the path is
    allowed. In every other case the store is as it was and the answer is
    not 200. *)
Theorem upload_stores_only_checked_files (env : Env) (request : NextRequest)
    (sv : Server) :
  let served := POST env request sv in
  (storage (snd served) = storage sv /\ status (fst served) <> 200) \/
  exists user file path validation,
    validateFirebaseToken env request = Ok (Some user) /\
    success (fst (checkUploadRateLimit
                    ("upload_" ++ getClientIP env request ++ "_" ++ uid user)
                    (Date_now env 1%nat) (uploadRateLimitStore sv))) = true /\
    (forall n, contentLength request = Some n -> n <= 10 * 1024 * 1024) /\
    formData request = Ok (Some file, Some path) /\ path <> "" /\
    size file <> 0 /\ size file <= 10 * 1024 * 1024 /\
    validateFile (security env) file = Ok validation /\
    isValid validation = true /\
    isPathAllowed env path = true /\
    let userIdentifier := replace_outside is_alnum "_" (uid user) in
    let fullPath :=
      "admin-uploads/" ++ userIdentifier ++ "/"
        ++ FirebaseAuth.sanitizedPath path ++ "/"
        ++ FirebaseAuth.uniqueFileName file (Date_now env 3%nat) in
    all is_word userIdentifier = true /\
    storage (snd served) = <[fullPath := file]> (storage sv).
Proof.
  intros served. subst served. unfold POST, secureUploadWrapper.
  destruct (validateFirebaseToken env request) as [[user|]|e];
    try (left; split; [reflexivity | discriminate]).
  destruct (checkUploadRateLimit _ _ _) as [rateLimitResult store'] eqn:Hcheck.
  destruct (success rateLimitResult) eqn:Hallowed; cbn [negb];
    [|left; split; [reflexivity | discriminate]].
  destruct (match contentLength request with Some n => _ | None => _ end) eqn:Hlength;
    [left; split; [reflexivity | discriminate]|].
  destruct (handleFileUpload_storage env 2 request user
              (mkServer store' (storage sv)))
    as [Hsame | (file & path & validation & H)]; [left; exact Hsame|].
  right. exists user, file, path, validation.
  split; [reflexivity|]. split; [rewrite Hcheck; exact Hallowed|].
  split.
  { intros n Hn. rewrite Hn in Hlength. apply Z.ltb_ge. exact Hlength. }
  destruct H as (H1 & H2 & H3 & H4 & H5 & H6 & H7 & _ & H9).
  do 7 (split; [assumption|]). cbv zeta. split; [|exact H9].
  apply replace_outside_all; [|reflexivity].
  intros c Hc. unfold is_word. rewrite Hc. reflexivity.
Qed.

End UploadEffects.

(** ** The answers of the middleware *)
Module MiddlewareAnswers.
Import Middleware MiddlewareSpec StringFacts TokenStructure AdminGate MiddlewareHeaders.

Lemma setAll_lookup_other (h : list (string * string)) (name : string) :
  ~ In name (List.map fst h) ->
  forall m : gmap string string, setAll h m !! name = m !! name.
Proof.
  unfold setAll. induction h as [|[k v] h IH]; intros Hout m; [reflexivity|].
  simpl in *. rewrite IH by tauto. apply lookup_insert_ne. tauto.
Qed.

Lemma not_a_security_header (env : Env) (name : string) :
  existsb (String.eqb name) (List.map fst (securityHeaders env)) = false ->
  ~ In name (List.map fst (securityHeaders env)).
Proof.
  intros H Hin. apply array_includes_In in Hin. unfold array_includes in Hin.
  congruence.
Qed.

Ltac skip_cors_header Hname :=
  (rewrite lookup_insert_ne;
          [|intros Heq; subst;
            refine (not_a_security_header _ _ _ Hname); reflexivity]).

Lemma preflight_carries (env : Env) (origin : option string)
    (methods allowHeaders : string) :
  carriesSecurityHeaders env (preflight env origin methods allowHeaders).
Proof.
  intros name value Hin. pose proof (in_map fst _ _ Hin) as Hname. cbn [fst] in Hname.
  unfold preflight. cbn [responseHeaders]. do 6 skip_cors_header Hname.
  apply setAll_lookup; [apply securityHeaders_distinct | exact Hin].
Qed.

Lemma withCors_carries (env : Env) (origin : option string) :
  carriesSecurityHeaders env (withCors env origin).
Proof.
  intros name value Hin. pose proof (in_map fst _ _ Hin) as Hname. cbn [fst] in Hname.
  unfold withCors. cbn [responseHeaders]. do 2 skip_cors_header Hname.
  apply setAll_lookup; [apply securityHeaders_distinct | exact Hin].
Qed.

Lemma blockedBot_false (env : Env) (request : NextRequest) :
  blockedBot env request = false ->
  isSuspiciousBot (default "" (headers request !! "user-agent"))
  && negb (startsWith (pathname request) "/api/") && production env = false.
Proof.
  unfold blockedBot. intros H.
  destruct (production env), (isSuspiciousBot _), (startsWith _ _);
    simpl in *; congruence.
Qed.

Lemma startsWith_weaken (s p q : string) :
  startsWith s (p ++ q) = true -> startsWith s p = true.
Proof.
  intros H. apply prefix_spec in H as [r ->]. rewrite app_assoc.
  apply startsWith_app.
Qed.

(** The responses of the middleware to a request the bot filter lets
    through. *)
Lemma middleware_shape (env : Env) (request : NextRequest) :
  blockedBot env request = false ->
  let response := middleware env request in
  let origin := headers request !! "origin" in
  (startsWith (pathname request) "/admin" = true /\
   response = redirectToAuth request) \/
  (startsWith (pathname request) "/api/" = true /\
   ((exists methods allowHeaders,
       response = preflight env origin methods allowHeaders) \/
    response = withCors env origin)) \/
  response = mkResponse (body next) (status next)
               (setAll (securityHeaders env) (responseHeaders next)).
Proof.
  intros Hbot response origin. subst response origin.
  unfold middleware. rewrite (blockedBot_false env request Hbot).
  assert (forall response : NextResponse,
            match
              (if startsWith (pathname request) "/admin"
                  && negb (startsWith (pathname request) "/api/admin")
               then
                 match cookies request !! FIREBASE_TOKEN_COOKIE with
                 | Some firebaseToken =>
                     if String.eqb firebaseToken "" then Some (redirectToAuth request)
                     else if negb (isValid (validateFirebaseTokenStructure env firebaseToken))
                          then Some (redirectToAuth request) else None
                 | None => Some (redirectToAuth request)
                 end
               else None)
            with
            | Some r => r
            | None => response
            end = response \/
            (startsWith (pathname request) "/admin" = true /\
             match
              (if startsWith (pathname request) "/admin"
                  && negb (startsWith (pathname request) "/api/admin")
               then
                 match cookies request !! FIREBASE_TOKEN_COOKIE with
                 | Some firebaseToken =>
                     if String.eqb firebaseToken "" then Some (redirectToAuth request)
                     else if negb (isValid (validateFirebaseTokenStructure env firebaseToken))
                          then Some (redirectToAuth request) else None
                 | None => Some (redirectToAuth request)
                 end
               else None)
            with
            | Some r => r
            | None => response
            end = redirectToAuth request)) as Hgate.
  { intros response.
    destruct (startsWith (pathname request) "/admin") eqn:Hadmin; cbn [andb];
      [|left; reflexivity].
    destruct (negb (startsWith (pathname request) "/api/admin")); [|left; reflexivity].
    destruct (cookies request !! FIREBASE_TOKEN_COOKIE) as [token|]; [|right; auto].
    destruct (String.eqb token ""); [right; auto|].
    destruct (negb (isValid (validateFirebaseTokenStructure env token)));
      [right; auto | left; reflexivity]. }
  match goal with
  | |- context [match ?gate with Some r => r | None => ?response end] =>
      destruct (Hgate response) as [-> | [Hadmin ->]]; [|left; auto]
  end.
  clear Hgate. right.
  destruct (startsWith (pathname request) "/api/admin/") eqn:Hupload; cbn [orb andb].
  { left. split; [apply (startsWith_weaken _ "/api/" "admin/"); exact Hupload|].
    destruct (String.eqb (method request) "OPTIONS"); eauto. }
  destruct (startsWith (pathname request) "/api/auth/") eqn:Hauth; cbn [orb].
  { left. split; [apply (startsWith_weaken _ "/api/" "auth/"); exact Hauth|].
    destruct (String.eqb (method request) "OPTIONS"); eauto. }
  destruct (startsWith (pathname request) "/api/public/") eqn:Hpublic.
  { left. split; [apply (startsWith_weaken _ "/api/" "public/"); exact Hpublic|].
    destruct (String.eqb (method request) "OPTIONS"); eauto. }
  right. reflexivity.
Qed.

(** A request the bot filter lets through is sent to the sign-in page, which
    happens on admin pages only, or goes on with status 200 and the security
    headers. *)
Lemma middleware_not_blocked (env : Env) (request : NextRequest) :
  blockedBot env request = false ->
  (startsWith (pathname request) "/admin" = true /\
   middleware env request = redirectToAuth request) \/
  (status (middleware env request) = 200 /\
   carriesSecurityHeaders env (middleware env request)).
Proof.
  intros Hbot.
  destruct (middleware_shape env request Hbot)
    as [H | [(_ & [(methods & allowHeaders & ->) | ->]) | ->]].
  - left. exact H.
  - right. split; [reflexivity | apply preflight_carries].
  - right. split; [reflexivity | apply withCors_carries].
  - right. split; [reflexivity | apply passed_request_carries_security_headers].
Qed.

(** X10. The middleware has three answers. A request the bot filter blocks
    (in production, from a listed user agent, outside /api/) gets the bare
    403. Any other request is either sent to the sign-in page with a 307,
    which happens only on a path under /admin, or goes on to its route with
    status 200 and every security header. *)
Theorem middleware_has_three_answers (env : Env) (request : NextRequest) :
  let response := middleware env request in
  (blockedBot env request = true /\
   status response = 403 /\ body response = Text (Some "Access Denied")) \/
  (blockedBot env request = false /\
   startsWith (pathname request) "/admin" = true /\
   status response = 307 /\
   body response = Redirect (urlOrigin request ++ "/auth")) \/
  (blockedBot env request = false /\
   status response = 200 /\
   carriesSecurityHeaders env response).
Proof.
  intros response. subst response.
  destruct (blockedBot env request) eqn:Hbot.
  - left. rewrite (middleware_blocked env request Hbot). auto.
  - right. destruct (middleware_not_blocked env request Hbot)
      as [(Hadmin & ->) | [Hstatus Hcarries]].
    + left. auto.
    + right. auto.
Qed.

(** X11. A request for a path under /api/ is never refused and never
    redirected by the middleware, whatever its user agent and whether or not
    it has a token: it goes on with status 200 and the security headers. *)
Theorem api_requests_always_pass (env : Env) (request : NextRequest) :
  startsWith (pathname request) "/api/" = true ->
  status (middleware env request) = 200 /\
  carriesSecurityHeaders env (middleware env request).
Proof.
  intros Hapi.
  assert (blockedBot env request = false) as Hbot.
  { unfold blockedBot. rewrite Hapi. apply andb_false_r. }
  destruct (middleware_not_blocked env request Hbot) as [(Hadmin & _) | H];
    [|exact H].
  apply prefix_spec in Hapi as [r Hr]. rewrite Hr in Hadmin. discriminate.
Qed.

Lemma api_requests_pass_witness :
  let env := mkEnv "production" (Some "consort-digital") 1700000000000 (fun _ => None) in
  let request :=
    mkRequest "/api/admin/upload" "POST" {[ "user-agent" := "curl/8.4.0" ]} ∅
      "https://consortdigital.com" in
  isSuspiciousBot (default "" (headers request !! "user-agent")) = true /\
  cookies request !! "firebaseToken" = None /\
  status (middleware env request) = 200 /\
  responseHeaders (middleware env request) !! "X-Frame-Options" = Some "SAMEORIGIN".
Proof.
  intros env request.
  destruct (api_requests_always_pass env request eq_refl) as [Hstatus Hcarries].
  split; [vm_compute; reflexivity|]. split; [reflexivity|].
  split; [exact Hstatus|].
  apply Hcarries. simpl. tauto.
Defined.

Lemma allowOrigin_cases (env : Env) (origin : option string) :
  allowOrigin env origin = "null" \/ In (allowOrigin env origin) (allowedOrigins env).
Proof.
  unfold allowOrigin.
  destruct (array_includes (allowedOrigins env) (default "" origin)) eqn:H;
    [right; apply array_includes_In; exact H | left; reflexivity].
Qed.

(** X12. The middleware never names an origin outside its list: when a
    response has an [Access-Control-Allow-Origin] header, the request was for
    a path under /api/ and the header is ['null'] or one of the allowed
    origins; this holds for preflight requests too. *)
Theorem allow_origin_is_listed_or_null (env : Env) (request : NextRequest)
    (value : string) :
  responseHeaders (middleware env request) !! "Access-Control-Allow-Origin"
    = Some value ->
  startsWith (pathname request) "/api/" = true /\
  (value = "null" \/ In value (allowedOrigins env)).
Proof.
  assert (forall origin methods allowHeaders,
            responseHeaders (preflight env origin methods allowHeaders)
              !! "Access-Control-Allow-Origin" = Some (allowOrigin env origin))
    as Hpreflight.
  { intros. unfold preflight. cbn [responseHeaders].
    rewrite !lookup_insert_ne by discriminate. apply lookup_insert_eq. }
  assert (forall origin,
            responseHeaders (withCors env origin)
              !! "Access-Control-Allow-Origin" = Some (allowOrigin env origin))
    as Hcors.
  { intros. unfold withCors. cbn [responseHeaders].
    rewrite lookup_insert_ne by discriminate. apply lookup_insert_eq. }
  intros Hvalue.
  destruct (blockedBot env request) eqn:Hbot.
  { rewrite (middleware_blocked env request Hbot) in Hvalue. discriminate Hvalue. }
  destruct (middleware_shape env request Hbot)
    as [[_ Heq] | [(Hapi & [(methods & allowHeaders & Heq) | Heq]) | Heq]];
    rewrite Heq in Hvalue.
  - discriminate Hvalue.
  - rewrite Hpreflight in Hvalue. injection Hvalue as <-.
    split; [exact Hapi | apply allowOrigin_cases].
  - rewrite Hcors in Hvalue. injection Hvalue as <-.
    split; [exact Hapi | apply allowOrigin_cases].
  - cbn [responseHeaders] in Hvalue.
    rewrite setAll_lookup_other in Hvalue
      by (apply not_a_security_header; reflexivity).
    discriminate Hvalue.
Qed.

Lemma allow_origin_witness :
  let env := mkEnv "production" (Some "consort-digital") 1700000000000 (fun _ => None) in
  let request :=
    mkRequest "/api/auth/session" "OPTIONS" {[ "origin" := "https://evil.example" ]} ∅
      "https://consortdigital.com" in
  responseHeaders (middleware env request) !! "Access-Control-Allow-Origin"
    = Some "null" /\
  startsWith (pathname request) "/api/" = true.
Proof.
  intros env request.
  assert (responseHeaders (middleware env request) !! "Access-Control-Allow-Origin"
          = Some "null") as Hvalue by (vm_compute; reflexivity).
  split; [exact Hvalue|].
  exact (proj1 (allow_origin_is_listed_or_null env request "null" Hvalue)).
Defined.

(** X13. Whatever its [exp] claim says, a token is accepted over a span of
    at most 3900 seconds: if the structure check accepts the same token at
    two times, the two times (in whole seconds) are no more than 3900 apart,
    since both lie between 300 s before [iat] and 3600 s after it. *)
Theorem token_is_accepted_for_at_most_3900_seconds (env1 env2 : Env)
    (token : string) :
  (forall s, JSON_parse_atob env1 s = JSON_parse_atob env2 s) ->
  isValid (validateFirebaseTokenStructure env1 token) = true ->
  isValid (validateFirebaseTokenStructure env2 token) = true ->
  Z.abs (Date_now env1 / 1000 - Date_now env2 / 1000) <= 3900.
Proof.
  intros Hdecode H1 H2.
  apply validateFirebaseTokenStructure_accepts in H1, H2.
  destruct H1 as (p0 & p1 & p2 & header & payload & Hsplit & _ & _ & Hpayload & Hacc).
  destruct H2 as (q0 & q1 & q2 & header' & payload' & Hsplit' & _ & _ & Hpayload' & Hacc').
  rewrite Hsplit in Hsplit'. injection Hsplit' as <- <- <-.
  rewrite Hdecode, Hpayload' in Hpayload. injection Hpayload as <-.
  destruct Hacc as (iss & aud & sub & exp & iat & _ & _ & _ & _ & _ & _
                    & _ & _ & Hiat & _ & _ & Hnot_early & Hnot_old & _).
  destruct Hacc' as (iss' & aud' & sub' & exp' & iat' & _ & _ & _ & _ & _ & _
                     & _ & _ & Hiat' & _ & _ & Hnot_early' & Hnot_old' & _).
  cbv zeta in *. rewrite Hiat in Hiat'. injection Hiat' as <-. lia.
Qed.

Lemma token_span_witness :
  let header := "eyJhbGciOiJSUzI1NiIsImtpZCI6IjAxMjM0NTY3ODlhYmNkZWYifQ" in
  let payload :=
    "eyJpc3MiOiJodHRwczovL3NlY3VyZXRva2VuLmdvb2dsZS5jb20vY29uc29ydC1kaWdpdGFsIiwiYXVkIjoiY29uc29ydC1kaWdpdGFsIiwic3ViIjoidXNlci0wMTIzNDU2Nzg5IiwiZXhwIjoxNzAwMDAwNjAwLCJpYXQiOjE2OTk5OTk5MDB9" in
  let decode s :=
    if String.eqb s header then
      Some (JObject [("alg", JString "RS256"); ("kid", JString "0123456789abcdef")])
    else if String.eqb s payload then
      Some (JObject [("iss", JString "https://securetoken.google.com/consort-digital");
                     ("aud", JString "consort-digital");
                     ("sub", JString "user-0123456789");
                     ("exp", JNumber 1700000600);
                     ("iat", JNumber 1699999900)])
    else None in
  let early := mkEnv "production" (Some "consort-digital") 1699999700000 decode in
  let late := mkEnv "production" (Some "consort-digital") 1700000500999 decode in
  let token := header ++ "." ++ payload ++ ".c2ln" in
  isValid (validateFirebaseTokenStructure early token) = true /\
  isValid (validateFirebaseTokenStructure late token) = true /\
  Z.abs (Date_now early / 1000 - Date_now late / 1000) <= 3900.
Proof.
  intros header payload decode early late token.
  assert (isValid (validateFirebaseTokenStructure early token) = true) as Hearly
    by (vm_compute; reflexivity).
  assert (isValid (validateFirebaseTokenStructure late token) = true) as Hlate
    by (vm_compute; reflexivity).
  split; [exact Hearly|]. split; [exact Hlate|].
  exact (token_is_accepted_for_at_most_3900_seconds early late token
           (fun s => eq_refl) Hearly Hlate).
Defined.

End MiddlewareAnswers.

(** ** [removeFileObjects] on plain values *)
Module PlainObjects.
Import FirebaseAuth FormSpec FormObjects PlainSpec.

(** [removeFileObjects] changes nothing in a plain value. *)
Lemma plain_fixed (v : value) :
  plain v = true ->
  processField removeFileObjectsOf v = Some v /\
  (forall o, v = VObject o -> removeFileObjectsOf v = o).
Proof.
  induction v as [p|f|l IH|o IH|t] using value_nested_ind; intros Hplain.
  - split; [reflexivity | discriminate].
  - discriminate.
  - split; [|discriminate]. rewrite processField_array. do 2 f_equal.
    simpl in Hplain. induction IH as [|x l Hx _ IHl]; [reflexivity|].
    simpl in Hplain. apply andb_true_iff in Hplain as [Hhead Htail].
    apply andb_true_iff in Hhead as [Harray Hxplain].
    specialize (Hx Hxplain) as [_ Hobj].
    assert (item x = x) as Hitem.
    { destruct x as [p|f|l'|o'|t]; try reflexivity; try discriminate.
      unfold item. rewrite (Hobj o' eq_refl). reflexivity. }
    simpl. rewrite Hitem.
    destruct x; try discriminate; simpl; rewrite (IHl Htail); reflexivity.
  - assert (removeFileObjectsOf (VObject o) = o) as Hobj.
    { rewrite removeFileObjectsOf_object. simpl in Hplain.
      induction IH as [|[k x] o Hx _ IHo]; [reflexivity|].
      simpl in Hplain, Hx. apply andb_true_iff in Hplain as [Hxplain Htail].
      simpl. rewrite (proj1 (Hx Hxplain)), (IHo Htail). reflexivity. }
    split.
    + unfold processField. rewrite Hobj. reflexivity.
    + intros o' [= <-]. exact Hobj.
  - discriminate.
Qed.

(** What [removeFileObjects] returns is plain. *)
Lemma output_plain (v : value) :
  plain (VObject (removeFileObjectsOf v)) = true /\
  (forall y, processField removeFileObjectsOf v = Some y -> plain y = true).
Proof.
  induction v as [p|f|l IH|o IH|t] using value_nested_ind.
  - split; [reflexivity|]. intros y [= <-]. reflexivity.
  - split; [reflexivity|]. intros y [=].
  - split.
    + rewrite removeFileObjectsOf_array. generalize 0%nat.
      induction IH as [|x l [_ Hx] _ IHl]; intros i; [reflexivity|].
      simpl in *. destruct (processField removeFileObjectsOf x) as [y|] eqn:Hy.
      * simpl. rewrite (Hx y eq_refl). apply IHl.
      * apply IHl.
    + intros y. rewrite processField_array. intros [= <-]. simpl.
      induction IH as [|x l [Hx _] _ IHl]; [reflexivity|].
      simpl. destruct (isFile (item x)) eqn:Hfile; simpl; [exact IHl|].
      rewrite IHl, andb_true_r.
      destruct x; try reflexivity; try discriminate; exact Hx.
  - assert (plain (VObject (removeFileObjectsOf (VObject o))) = true) as Hobj.
    { rewrite removeFileObjectsOf_object.
      induction IH as [|[k x] o [_ Hx] _ IHo]; [reflexivity|].
      simpl in *. destruct (processField removeFileObjectsOf x) as [y|] eqn:Hy.
      - simpl. rewrite (Hx y eq_refl). apply IHo.
      - apply IHo. }
    split; [exact Hobj|]. intros y [= <-]. exact Hobj.
  - split; [reflexivity|]. intros y [= <-]. reflexivity.
Qed.

(** X14. [removeFileObjects] returns an object as it is exactly when no
    [File] and no [Date] occurs in it at any depth and none of its arrays
    has an array as an element. (A [Date], such as the [createdAt] and
    [updatedAt] the solution forms add, comes back as an empty object.) *)
Theorem removeFileObjects_keeps_plain_objects (obj : list (string * value)) :
  plain (VObject obj) = true <-> removeFileObjects obj = obj.
Proof.
  split.
  - intros H. exact (proj2 (plain_fixed (VObject obj) H) obj eq_refl).
  - intros H. rewrite <- H. exact (proj1 (output_plain (VObject obj))).
Qed.

(** The theorem at a form without files and dates, which is returned as it
    is; the same form with [updatedAt] is not. *)
Lemma removeFileObjects_plain_witness :
  let obj :=
    [ ("title", VPrim (PString "Radio"));
      ("tags", VArray [VPrim (PString "tetra"); VObject [("n", VPrim (PNumber 7))]]);
      ("meta", VObject [("draft", VPrim (PBoolean false)); ("note", VPrim PNull)]) ] in
  let updatedAt := ("updatedAt", VDate 1700000000000) in
  removeFileObjects obj = obj /\
  removeFileObjects (updatedAt :: obj) = ("updatedAt", VObject []) :: obj /\
  removeFileObjects (updatedAt :: obj) <> updatedAt :: obj.
Proof.
  intros obj updatedAt.
  split; [exact (proj1 (removeFileObjects_keeps_plain_objects obj) eq_refl)|].
  split; [reflexivity|].
  intros H. apply (removeFileObjects_keeps_plain_objects (updatedAt :: obj)) in H.
  discriminate H.
Defined.

(** X15. Whatever it is given, [removeFileObjects] returns an object with no
    [File] and no [Date] at any depth and no array inside an array, and
    applying it a second time changes nothing. *)
Theorem removeFileObjects_is_idempotent (obj : list (string * value)) :
  plain (VObject (removeFileObjects obj)) = true /\
  removeFileObjects (removeFileObjects obj) = removeFileObjects obj.
Proof.
  pose proof (proj1 (output_plain (VObject obj))) as Hplain.
  split; [exact Hplain|].
  exact (proj2 (plain_fixed _ Hplain) _ eq_refl).
Qed.

End PlainObjects.

(** ** Clean-up of a document's directory *)
Module SlotCleanup.
Import FirebaseAuth FileUploadSecurity SlotBasedUpload SlotUploaders.
Import StringFacts PathComponents StoredPaths.

(** Deleting the objects of a list: the ones deleted are gone, the others
    are as before. *)
Lemma deleteItems_spec (bucket : Bucket) (items : list Reference) :
  forall (st : Storage) (p : string),
    let st' := List.fold_left (deleteItem bucket) items st in
    (st' !! p = None /\
     exists item, In item items /\ itemFullPath item = p /\
                  deleteObject bucket p = None) \/
    (st' !! p = st !! p /\
     forall item, In item items -> itemFullPath item = p ->
                  deleteObject bucket p <> None).
Proof.
  induction items as [|x items IH]; intros st p; cbn [List.fold_left].
  - right. split; [reflexivity|]. intros item [].
  - destruct (IH (deleteItem bucket st x) p) as [[Hgone Hitem] | [Hsame Hnone]].
    + left. split; [exact Hgone|].
      destruct Hitem as (item & Hin & Hp & Hdel). exists item. simpl. auto.
    + cbv zeta. rewrite Hsame. unfold deleteItem.
      destruct (deleteObject bucket (itemFullPath x)) as [e|] eqn:Hdel.
      * right. split; [reflexivity|].
        intros item [<-|Hin] Hp; [congruence | eauto].
      * destruct (decide (itemFullPath x = p)) as [Hp|Hp].
        -- left. rewrite Hp. rewrite lookup_delete_eq. split; [reflexivity|].
           exists x. simpl. rewrite <- Hp. auto.
        -- right. rewrite lookup_delete_ne by exact Hp. split; [reflexivity|].
           intros item [<-|Hin] Hq; [contradiction | eauto].
Qed.

(** X16. [clearDirectoryFiles] never throws and touches listed objects
    only: after it, an object is gone when it is listed in the directory and
    its deletion succeeded, and every other object of the store is as it was;
    when the listing fails, the store is as it was. *)
Theorem clearDirectoryFiles_deletes_listed_objects (bucket : Bucket)
    (directoryPath : string) (st : Storage) (p : string) :
  let st' := clearDirectoryFiles bucket directoryPath st in
  (st' !! p = None /\
   exists items item,
     listAll bucket directoryPath = Ok items /\ In item items /\
     itemFullPath item = p /\ deleteObject bucket p = None) \/
  (st' !! p = st !! p /\
   forall items item,
     listAll bucket directoryPath = Ok items -> In item items ->
     itemFullPath item = p -> deleteObject bucket p <> None).
Proof.
  intros st'. subst st'. unfold clearDirectoryFiles.
  destruct (listAll bucket directoryPath) as [items|e].
  - destruct (deleteItems_spec bucket items st p) as [[Hgone Hitem] | [Hsame Hnone]].
    + left. split; [exact Hgone|]. destruct Hitem as (item & H). eauto.
    + right. split; [exact Hsame|]. intros items' item [= <-]. apply Hnone.
  - right. split; [reflexivity|]. discriminate.
Qed.

(** *** The pattern of [clearUnusedSlots] and the names of [generateCustomFilename] *)
Lemma startsWith_cancel (a s p : string) :
  startsWith (a ++ s) (a ++ p) = startsWith s p.
Proof.
  unfold startsWith. induction a as [|c a IH]; [reflexivity|].
  rewrite !app_cons. simpl. destruct (Ascii.ascii_dec c c); [exact IH | contradiction].
Qed.

Lemma word_before_dot (a b x y : string) :
  all is_word a = true -> all is_word b = true ->
  a ++ "." ++ x = b ++ "." ++ y -> a = b.
Proof.
  unfold all. revert b. induction a as [|c a IH]; intros [|d b] Ha Hb H.
  - reflexivity.
  - rewrite app_cons in H. injection H as <- _. simpl in Hb. discriminate.
  - rewrite app_cons in H. injection H as -> _. simpl in Ha. discriminate.
  - rewrite !app_cons in H. injection H as -> H. f_equal.
    simpl in Ha, Hb. apply andb_true_iff in Ha as [_ Ha].
    apply andb_true_iff in Hb as [_ Hb]. eauto.
Qed.

Lemma slot_pattern_matches (n m : nat) (e : string) :
  startsWith (pretty m ++ "." ++ e) (pretty n ++ ".") = Nat.eqb n m.
Proof.
  destruct (Nat.eqb_spec n m) as [->|Hne].
  - apply prefix_spec. exists e. rewrite app_assoc. reflexivity.
  - destruct (startsWith _ _) eqn:H; [|reflexivity].
    apply prefix_spec in H as [r Hr]. rewrite app_assoc in Hr.
    apply word_before_dot in Hr; try apply pretty_nat_word.
    apply (inj pretty) in Hr. congruence.
Qed.

Lemma existsb_pointwise {A} (f g : A -> bool) (l : list A) :
  (forall x, f x = g x) -> existsb f l = existsb g l.
Proof. intros H. induction l as [|x l IH]; simpl; congruence. Qed.

Lemma existsb_seq_eqb (m a len : nat) :
  existsb (fun n => Nat.eqb n m) (List.seq a len)
    = ((a <=? m) && (m <? a + len))%nat.
Proof.
  revert a. induction len as [|len IH]; intros a.
  - simpl. destruct (Nat.leb_spec a m), (Nat.ltb_spec m (a + 0)); simpl; lia.
  - cbn [List.seq existsb]. rewrite IH.
    destruct (Nat.eqb_spec a m), (Nat.leb_spec (S a) m), (Nat.leb_spec a m),
      (Nat.ltb_spec m (S a + len)), (Nat.ltb_spec m (a + S len)); simpl; lia.
Qed.

(** X17. The pattern of [clearUnusedSlots] selects the slot files by their
    number: a name [generateCustomFilename] gives to slot [index + 1]
    (without the original name, and with an extension that starts with a
    dot) is selected exactly when the slot number is above [usedSlotCount]
    and at most [maxSlots]. *)
Theorem unused_slot_files_are_selected_by_number (sec : Security)
    (slug fileType : string) (file : File) (index : nat) (fileName : string)
    (usedSlotCount maxSlots : nat) :
  generateCustomFilename sec slug fileType file (Some index) None = Ok fileName ->
  startsWith (getSecureExtension sec (type file)) "." = true ->
  isUnusedSlotFile slug fileType usedSlotCount maxSlots fileName
    = ((usedSlotCount <? index + 1) && (index + 1 <=? maxSlots))%nat.
Proof.
  intros Hname Hext. unfold generateCustomFilename in Hname.
  destruct (sanitizePathComponent slug "slug") as [s|] eqn:Hs; [|discriminate].
  apply sanitize_inv in Hs as [-> _].
  destruct (sanitizePathComponent fileType "fileType") as [t|] eqn:Ht; [|discriminate].
  apply sanitize_inv in Ht as [-> _].
  cbn [bind truthy] in Hname. injection Hname as <-.
  apply prefix_spec in Hext as [e ->].
  unfold isUnusedSlotFile.
  rewrite (existsb_pointwise _ (fun n => Nat.eqb n (index + 1))).
  - rewrite existsb_seq_eqb.
    destruct (Nat.leb_spec (usedSlotCount + 1) (index + 1)),
      (Nat.ltb_spec (index + 1) (usedSlotCount + 1 + (maxSlots - usedSlotCount))),
      (Nat.ltb_spec usedSlotCount (index + 1)),
      (Nat.leb_spec (index + 1) maxSlots); simpl; lia.
  - intros n. unfold slotPattern.
    replace ((slug ++ "_" ++ fileType) ++ "_" ++ pretty (index + 1)%nat ++ "." ++ e)
      with (slug ++ "_" ++ fileType ++ "_" ++ pretty (index + 1)%nat ++ "." ++ e)
      by (rewrite !app_assoc; reflexivity).
    rewrite startsWith_cancel.
    rewrite (startsWith_cancel "_"), startsWith_cancel, (startsWith_cancel "_").
    apply slot_pattern_matches.
Qed.


Lemma unused_slot_files_witness :
  let sec := mkSecurity (fun _ => Ok (mkValidation true [] [] None)) (fun _ => ".webp") in
  let file := mkFile "a.png" "image/png" 4 "PNG" in
  generateCustomFilename sec "radio" "photo" file (Some 4%nat) None
    = Ok "radio_photo_5.webp" /\
  isUnusedSlotFile "radio" "photo" 3 8 "radio_photo_5.webp" = true /\
  isUnusedSlotFile "radio" "photo" 5 8 "radio_photo_5.webp" = false.
Proof.
  intros sec file.
  assert (generateCustomFilename sec "radio" "photo" file (Some 4%nat) None
          = Ok "radio_photo_5.webp") as Hname by reflexivity.
  split; [exact Hname|]. split.
  - exact (unused_slot_files_are_selected_by_number sec "radio" "photo" file 4
             "radio_photo_5.webp" 3 8 Hname eq_refl).
  - exact (unused_slot_files_are_selected_by_number sec "radio" "photo" file 4
             "radio_photo_5.webp" 5 8 Hname eq_refl).
Defined.

(** X18. [clearUnusedSlots] never throws and deletes selected files only:
    with well-formed components, an object is gone after it when it is
    listed in the directory of the document, its name is selected by the
    pattern of the unused slots and its deletion succeeded; every other
    object of the store is as it was. *)
Theorem clearUnusedSlots_deletes_selected_files (bucket : Bucket)
    (config : SlotConfig) (documentId slug fileType : string)
    (usedSlotCount : nat) (subPath : option string) (items : list Reference)
    (st : Storage) (p : string) :
  safe documentId -> safe slug -> safe fileType ->
  match truthy subPath with Some sub => safe sub | None => True end ->
  listAll bucket
    match truthy subPath with
    | Some sub => basePath config ++ "/" ++ documentId ++ "/" ++ sub
    | None => basePath config ++ "/" ++ documentId
    end = Ok items ->
  let selected (item : Reference) :=
    isUnusedSlotFile slug fileType usedSlotCount (maxSlots config) (itemName item) in
  let st' :=
    clearUnusedSlots bucket config documentId slug fileType usedSlotCount subPath st in
  (st' !! p = None /\
   exists item, In item items /\ selected item = true /\
                itemFullPath item = p /\ deleteObject bucket p = None) \/
  (st' !! p = st !! p /\
   forall item, In item items -> selected item = true ->
                itemFullPath item = p -> deleteObject bucket p <> None).
Proof.
  intros Hid Hslug Htype Hsub Hlist selected st'. subst st'.
  unfold clearUnusedSlots.
  rewrite (sanitize_Ok _ _ Hid), (sanitize_Ok _ _ Hslug), (sanitize_Ok _ _ Htype).
  cbn [bind].
  assert (match truthy subPath with
          | Some sub =>
              bind (sanitizePathComponent sub "subPath") (fun safeSubPath =>
              Ok (basePath config ++ "/" ++ documentId ++ "/" ++ safeSubPath))
          | None => Ok (basePath config ++ "/" ++ documentId)
          end
          = Ok match truthy subPath with
               | Some sub => basePath config ++ "/" ++ documentId ++ "/" ++ sub
               | None => basePath config ++ "/" ++ documentId
               end) as ->.
  { destruct (truthy subPath) as [sub|]; [|reflexivity].
    rewrite (sanitize_Ok _ _ Hsub). reflexivity. }
  cbn [bind]. rewrite Hlist.
  destruct (deleteItems_spec bucket (List.filter selected items) st p)
    as [[Hgone (item & Hin & Hp & Hdel)] | [Hsame Hnone]].
  - left. split; [exact Hgone|]. apply filter_In in Hin as [Hin Hsel]. eauto 6.
  - right. split; [exact Hsame|]. intros item Hin Hsel. apply Hnone.
    apply filter_In. auto.
Qed.

Lemma clearUnusedSlots_witness :
  let bucket :=
    mkBucket (fun directory =>
                Ok [ mkReference "radio_photo_2.webp" (directory ++ "/radio_photo_2.webp");
                     mkReference "radio_photo_3.webp" (directory ++ "/radio_photo_3.webp") ])
      (fun _ => None) in
  let file := mkFile "a.webp" "image/webp" 4 "RIFF" in
  let st : Storage :=
    {[ "portfolio/p1/radio_photo_2.webp" := file;
       "portfolio/p1/radio_photo_3.webp" := file ]} in
  let st' := clearUnusedSlots bucket productGallery "p1" "radio" "photo" 2 None st in
  st' !! "portfolio/p1/radio_photo_2.webp" = Some file /\
  st' !! "portfolio/p1/radio_photo_3.webp" = None.
Proof.
  intros bucket file st st'.
  assert (forall s, all is_word s = true -> s <> "" ->
                    (String.length s <= 100)%nat -> safe s) as Hsafe.
  { intros s Hs Hne Hlen. split; [exact Hne|]. split; [exact Hlen|].
    apply forallb_forall. exact Hs. }
  assert (safe "p1") as Hid by (apply Hsafe; [reflexivity | discriminate | simpl; lia]).
  assert (safe "radio") as Hslug by (apply Hsafe; [reflexivity | discriminate | simpl; lia]).
  assert (safe "photo") as Htype by (apply Hsafe; [reflexivity | discriminate | simpl; lia]).
  split.
  - destruct (clearUnusedSlots_deletes_selected_files bucket productGallery
                "p1" "radio" "photo" 2 None _ st "portfolio/p1/radio_photo_2.webp"
                Hid Hslug Htype I eq_refl)
      as [[_ (item & Hin & Hsel & Hp & _)] | [Hsame _]].
    + simpl in Hin. destruct Hin as [<-|[<-|[]]]; vm_compute in Hsel, Hp; discriminate.
    + exact Hsame.
  - destruct (clearUnusedSlots_deletes_selected_files bucket productGallery
                "p1" "radio" "photo" 2 None _ st "portfolio/p1/radio_photo_3.webp"
                Hid Hslug Htype I eq_refl)
      as [[Hgone _] | [_ Hnone]].
    + exact Hgone.
    + exfalso. apply (Hnone (mkReference "radio_photo_3.webp"
                               "portfolio/p1/radio_photo_3.webp"));
        [simpl; auto | reflexivity | reflexivity | reflexivity].
Defined.

End SlotCleanup.

(** ** Uploads of a list of files *)
Module SlotUploadOutcomes.
Import FirebaseAuth FileUploadSecurity SlotBasedUpload SlotUploaders.
Import StringFacts PathComponents SlotUploads UploadSpec.

Section Uploads.
Context (sec : Security) (env : Env).

(** One upload: its outcome, and the store it leaves. *)
Lemma upload_spec (file : File) (path : string) (st : Storage) :
  fst (uploadSingleFileWithTimeout sec env file path st)
    = uploadOutcome sec env file path /\
  (snd (uploadSingleFileWithTimeout sec env file path st) = st \/
   snd (uploadSingleFileWithTimeout sec env file path st)
     = <[fullPath env path file := file]> st) /\
  (is_throw (uploadOutcome sec env file path) = false ->
   snd (uploadSingleFileWithTimeout sec env file path st)
     = <[fullPath env path file := file]> st).
Proof.
  unfold uploadOutcome, uploadSingleFileWithTimeout, uploadDoc.
  destruct (validateFile sec file) as [validation|e]; [|simpl; intuition discriminate].
  destruct (isValid validation); cbn [negb]; [|simpl; intuition discriminate].
  destruct (currentUser env); [|simpl; intuition discriminate].
  destruct (uploadBytes env (fullPath env path file) file);
    [simpl; intuition discriminate|].
  simpl. auto.
Qed.

Lemma uploadGallerySlot_eq (slotPath : nat -> string) (file : File) (index : nat)
    (errs : list string) (st : Storage) :
  uploadGallerySlot sec env slotPath file index (errs, st)
    = (fst (uploadSingleFileWithTimeout sec env file (slotPath (index + 1)%nat) st),
       (errs, snd (uploadSingleFileWithTimeout sec env file (slotPath (index + 1)%nat) st))).
Proof.
  unfold uploadGallerySlot.
  destruct (uploadSingleFileWithTimeout sec env file (slotPath (index + 1)%nat) st).
  reflexivity.
Qed.

(** The uploads of a list of files to the slots of their indices: the
    outcomes in order; stored objects stay; the object of an upload that
    succeeded is in the store. *)
Lemma mapAsync_slots (slotPath : nat -> string) (files : list File) :
  forall (index : nat) (errs : list string) (st : Storage),
    let served := mapAsync (uploadGallerySlot sec env slotPath) files index (errs, st) in
    fst served
      = imap (fun i file => uploadOutcome sec env file (slotPath (index + i + 1)%nat)) files /\
    (forall p, is_Some (st !! p) -> is_Some (snd (snd served) !! p)) /\
    (forall i file,
       files !! i = Some file ->
       is_throw (uploadOutcome sec env file (slotPath (index + i + 1)%nat)) = false ->
       is_Some (snd (snd served)
                  !! fullPath env (slotPath (index + i + 1)%nat) file)).
Proof.
  induction files as [|file files IH]; intros index errs st served; subst served.
  - split; [reflexivity|]. split; [auto|]. intros i file Hi. discriminate.
  - cbn [mapAsync]. rewrite uploadGallerySlot_eq. cbv beta iota.
    destruct (upload_spec file (slotPath (index + 1)%nat) st) as (Hout & Hstore & Hok).
    destruct (uploadSingleFileWithTimeout sec env file (slotPath (index + 1)%nat) st)
      as [r st1]. cbn [fst snd] in Hout, Hstore, Hok |- *.
    specialize (IH (S index) errs st1). cbv zeta in IH.
    destruct (mapAsync (uploadGallerySlot sec env slotPath) files (S index) (errs, st1))
      as [rs [errs2 st2]]. cbn [fst snd] in IH |- *.
    destruct IH as (IHout & IHkeep & IHok).
    assert (forall p, is_Some (st !! p) -> is_Some (st1 !! p)) as Hkeep1.
    { intros p Hp. destruct Hstore as [-> | ->]; [exact Hp|].
      destruct (decide (fullPath env (slotPath (index + 1)%nat) file = p)) as [<-|Hne].
      - rewrite lookup_insert_eq. eauto.
      - rewrite lookup_insert_ne by exact Hne. exact Hp. }
    split; [|split].
    + cbn [imap]. rewrite Nat.add_0_r, Hout, IHout. f_equal.
      apply imap_ext. intros i x _. simpl. do 2 f_equal. lia.
    + intros p Hp. apply IHkeep, Hkeep1, Hp.
    + intros [|i] f Hi Hf.
      * injection Hi as <-. rewrite Nat.add_0_r in *. apply IHkeep.
        rewrite (Hok Hf), lookup_insert_eq. eauto.
      * simpl in Hi. replace (index + S i + 1)%nat with (S index + i + 1)%nat in * by lia.
        apply (IHok i f Hi Hf).
Qed.

Lemma Promise_all_map_Ok {A} (l : list (result A)) :
  is_throw (Promise_all l) = false -> exists vs, Promise_all l = Ok vs.
Proof. destruct (Promise_all l); [eauto | discriminate]. Qed.

(** X19. [uploadSectionImages] for a well-formed solution id: it is
    fulfilled with exactly one URL per file, in the order of the files, each
    the URL of the upload to [solutions/{id}/sections/section_{i+1}]; it
    rejects exactly when one of these uploads fails; and nothing is rolled
    back: the object of every upload that succeeded is in the store, also
    when the call rejects. *)
Theorem uploadSectionImages_outcome (files : list File)
    (solutionId solutionSlug : string) (st : Storage) :
  safe solutionId ->
  let served := uploadSectionImages sec env files solutionId solutionSlug st in
  let outcome (i : nat) (file : File) :=
    uploadOutcome sec env file (sectionPath solutionId (i + 1)%nat) in
  (forall urls, fst served = Ok urls -> imap outcome files = List.map Ok urls) /\
  (is_throw (fst served) = true <->
   exists i file, files !! i = Some file /\ is_throw (outcome i file) = true) /\
  (forall i file,
     files !! i = Some file -> is_throw (outcome i file) = false ->
     is_Some (snd served !! fullPath env (sectionPath solutionId (i + 1)%nat) file)).
Proof.
  intros Hsafe served outcome. subst served outcome.
  unfold uploadSectionImages. rewrite (sanitize_Ok _ _ Hsafe).
  change (uploadToSlotPath sec env) with (uploadGallerySlot sec env).
  pose proof (mapAsync_slots (sectionPath solutionId) files 0%nat [] st) as H.
  cbv zeta in H.
  destruct (mapAsync (uploadGallerySlot sec env (sectionPath solutionId)) files 0%nat
              ([], st)) as [uploadPromises [errs st']].
  cbn [fst snd] in H |- *. destruct H as (Hout & _ & Hok). subst uploadPromises.
  split; [|split].
  - intros urls Hurls. apply Promise_all_Ok in Hurls. exact Hurls.
  - rewrite Promise_all_is_throw. split.
    + intros (i & r & Hi & Hr). rewrite list_lookup_imap in Hi.
      destruct (files !! i) as [file|] eqn:Hfile; [|discriminate].
      injection Hi as <-. eauto.
    + intros (i & file & Hi & Hr). eexists i, _. rewrite list_lookup_imap, Hi.
      split; [reflexivity | exact Hr].
  - exact Hok.
Qed.

Lemma Promise_all_app {A} (l1 l2 : list (result A)) :
  is_throw (Promise_all (l1 ++ l2))
    = is_throw (Promise_all l1) || is_throw (Promise_all l2).
Proof.
  induction l1 as [|[a|e] l1 IH]; [reflexivity | | reflexivity].
  simpl in *. destruct (Promise_all (l1 ++ l2)), (Promise_all l1); simpl in *;
    congruence.
Qed.

Lemma imap_throws {A} (outcome : nat -> A -> result string) (files : list A) :
  is_throw (Promise_all (imap outcome files)) = true <->
  exists i file, files !! i = Some file /\ is_throw (outcome i file) = true.
Proof.
  rewrite Promise_all_is_throw. split.
  - intros (i & r & Hi & Hr). rewrite list_lookup_imap in Hi.
    destruct (files !! i) as [file|] eqn:Hfile; [|discriminate].
    injection Hi as <-. eauto.
  - intros (i & file & Hi & Hr). eexists i, _. rewrite list_lookup_imap, Hi.
    split; [reflexivity | exact Hr].
Qed.

(** X20. [uploadGallery] for a well-formed product id: it is fulfilled with
    one URL per main image, in order, each the URL of the upload to
    [portfolio/{id}/gallery/main/slot_{i+1}.webp], and with no URL of a
    thumbnail; it rejects exactly when the upload of a main image or of a
    thumbnail fails. *)
Theorem uploadGallery_outcome (files : list File)
    (productId productSlug : string) (st : Storage) :
  safe productId ->
  let served := uploadGallery sec env files productId productSlug st in
  let mainFiles := List.filter (fun f => negb (isThumbnail f)) files in
  let thumbnailFiles := List.filter isThumbnail files in
  let main (i : nat) (file : File) :=
    uploadOutcome sec env file (mainPath productId (i + 1)%nat) in
  let thumbnail (i : nat) (file : File) :=
    uploadOutcome sec env file (thumbnailPath productId (i + 1)%nat) in
  (forall urls, fst served = Ok urls -> imap main mainFiles = List.map Ok urls) /\
  (is_throw (fst served) = true <->
   (exists i file, mainFiles !! i = Some file /\ is_throw (main i file) = true) \/
   (exists i file, thumbnailFiles !! i = Some file /\
                   is_throw (thumbnail i file) = true)).
Proof.
  intros Hsafe served mainFiles thumbnailFiles main thumbnail.
  subst served. unfold uploadGallery. rewrite (sanitize_Ok _ _ Hsafe).
  fold mainFiles thumbnailFiles.
  pose proof (mapAsync_slots (mainPath productId) mainFiles 0%nat [] st) as Hmain.
  cbv zeta in Hmain.
  destruct (mapAsync (uploadGallerySlot sec env (mainPath productId)) mainFiles 0%nat
              ([], st)) as [mainUploadPromises [errs1 st1]].
  pose proof (mapAsync_slots (thumbnailPath productId) thumbnailFiles 0%nat errs1 st1)
    as Hthumb.
  cbv zeta in Hthumb.
  destruct (mapAsync (uploadGallerySlot sec env (thumbnailPath productId))
              thumbnailFiles 0%nat (errs1, st1))
    as [thumbnailUploadPromises [errs2 st2]].
  cbn [fst snd] in Hmain, Hthumb |- *.
  destruct Hmain as (-> & _ & _). destruct Hthumb as (-> & _ & _).
  change (imap (fun i file => uploadOutcome sec env file (mainPath productId (0 + i + 1)%nat))
            mainFiles) with (imap main mainFiles).
  change (imap (fun i file => uploadOutcome sec env file (thumbnailPath productId (0 + i + 1)%nat))
            thumbnailFiles) with (imap thumbnail thumbnailFiles).
  pose proof (Promise_all_app (imap main mainFiles) (imap thumbnail thumbnailFiles))
    as Happ.
  split.
  - intros urls H.
    destruct (Promise_all (imap main mainFiles ++ imap thumbnail thumbnailFiles))
      as [all|e]; [|discriminate].
    apply Promise_all_Ok. exact H.
  - rewrite <- !imap_throws.
    destruct (Promise_all (imap main mainFiles ++ imap thumbnail thumbnailFiles))
      as [all|e]; cbn [bind is_throw] in *.
    + symmetry in Happ. apply orb_false_iff in Happ as [-> ->].
      split; [discriminate | intros [H|H]; discriminate].
    + split; [|reflexivity]. intros _. symmetry in Happ.
      apply orb_true_iff in Happ. exact Happ.
Qed.

End Uploads.

Lemma uploadGallery_outcome_witness :
  let sec :=
    mkSecurity (fun f => Ok (mkValidation (negb (String.eqb (type f) "text/html")) ["bad type"] [] None))
      (fun _ => ".webp") in
  let env := mkEnv (Some "u1") (fun _ => 1700000000000) (fun _ _ => None) (fun p => Ok p) in
  let main := mkFile "a-720.webp" "image/webp" 4 "RIFF" in
  let thumb := mkFile "a-320.webp" "text/html" 4 "<x/>" in
  is_throw (fst (uploadGallery sec env [main; thumb] "p1" "radio" ∅)) = true /\
  fst (uploadGallery sec env [main] "p1" "radio" ∅)
    = Ok ["portfolio/p1/gallery/main/slot_1.webp/a-720_1700000000000.webp"].
Proof.
  intros sec env main thumb.
  assert (safe "p1") as Hsafe.
  { split; [discriminate|]. split; [simpl; lia|].
    intros c Hc. simpl in Hc. destruct Hc as [<-|[<-|[]]]; reflexivity. }
  destruct (uploadGallery_outcome sec env [main; thumb] "p1" "radio" ∅ Hsafe)
    as (_ & Hthrow).
  split.
  - apply Hthrow. right. exists 0%nat, thumb. split; reflexivity.
  - vm_compute. reflexivity.
Defined.

Lemma uploadSectionImages_witness :
  let sec :=
    mkSecurity (fun f => Ok (mkValidation (negb (String.eqb (type f) "text/html")) ["bad type"] [] None))
      (fun _ => ".webp") in
  let env := mkEnv (Some "u1") (fun _ => 1700000000000) (fun _ _ => None) (fun p => Ok p) in
  let good := mkFile "a.webp" "image/webp" 4 "RIFF" in
  let bad := mkFile "b.html" "text/html" 4 "<x/>" in
  let served := uploadSectionImages sec env [good; bad] "s1" "tetra" ∅ in
  is_throw (fst served) = true /\
  snd served !! "solutions/s1/sections/section_1/a_1700000000000.webp" = Some good.
Proof.
  intros sec env good bad served.
  assert (safe "s1") as Hsafe.
  { split; [discriminate|]. split; [simpl; lia|].
    intros c Hc. simpl in Hc. destruct Hc as [<-|[<-|[]]]; reflexivity. }
  destruct (uploadSectionImages_outcome sec env [good; bad] "s1" "tetra" ∅ Hsafe)
    as (_ & Hthrow & _).
  split.
  - apply Hthrow. exists 1%nat, bad. split; reflexivity.
  - vm_compute. reflexivity.
Defined.

End SlotUploadOutcomes.

(** ** Directories of the other uploaders *)
Module UploaderDirectories.
Import FirebaseAuth FileUploadSecurity SlotBasedUpload SlotUploaders.
Import StringFacts PathComponents StoredPaths SegmentSpec SanitizedPaths.
Import UploadSpec SlotUploadOutcomes.

Lemma safe_clean (s : string) : safe s -> clean s.
Proof.
  intros Hsafe. split; [exact (proj1 Hsafe)|].
  apply (all_weaken is_word); [apply word_segment_char | apply safe_all_word, Hsafe].
Qed.

(** An object stored for a path below a directory of clean segments is
    stored below that directory. *)
Lemma fullPath_below_directory (env : Env) (directory : list string)
    (rest : string) (file : File) :
  directory <> [] -> Forall clean directory ->
  startsWith (fullPath env (join "/" directory ++ "/" ++ rest) file)
    (join "/" directory ++ "/") = true.
Proof.
  intros Hne Hclean. unfold fullPath.
  change (sanitizedPath ?p) with (join "/" (segments p)).
  rewrite segments_app, (segments_join directory Hclean).
  destruct (join_app_prefix directory (segments rest)
              (uniqueFileName file (Date_now env (join "/" directory ++ "/" ++ rest))) Hne)
    as [r ->].
  apply startsWith_app.
Qed.

Section Uploads.
Context (sec : Security) (env : Env).

(** An upload leaves alone what is outside the directory it stores in. *)
Lemma upload_outside (file : File) (path directory p : string) (st : Storage) :
  startsWith (fullPath env path file) directory = true ->
  startsWith p directory = false ->
  snd (uploadSingleFileWithTimeout sec env file path st) !! p = st !! p.
Proof.
  intros Hin Hout.
  destruct (upload_spec sec env file path st) as (_ & [-> | ->] & _); [reflexivity|].
  apply lookup_insert_ne. intros <-. congruence.
Qed.

(** X21. The hero image and the brochure of a solution have directories of
    their own: [uploadHeroImage] leaves every object outside
    [solutions/{id}/hero/] as it was, and [uploadBrochure] every object
    outside [solutions/{id}/brochure/], whatever the slug, the file and the
    extension the validator gives, and whether the call returns or throws. *)
Theorem solution_files_have_their_own_directories (file : File)
    (solutionId solutionSlug : string) (st : Storage) (p : string) :
  (startsWith p ("solutions/" ++ solutionId ++ "/hero/") = false ->
   snd (uploadHeroImage sec env file solutionId solutionSlug st) !! p = st !! p) /\
  (startsWith p ("solutions/" ++ solutionId ++ "/brochure/") = false ->
   snd (uploadBrochure sec env file solutionId solutionSlug st) !! p = st !! p).
Proof.
  unfold uploadHeroImage, uploadBrochure.
  destruct (sanitizePathComponent solutionId "solutionId") as [id|e] eqn:Hid;
    [|split; reflexivity].
  apply sanitize_inv in Hid as [-> Hsafe].
  destruct (sanitizePathComponent solutionSlug "solutionSlug") as [slug|e];
    [|split; reflexivity].
  cbv zeta. split; intros Hout.
  - apply (upload_outside _ _ ("solutions/" ++ solutionId ++ "/hero/")); [|exact Hout].
    pose proof (fullPath_below_directory env ["solutions"; solutionId; "hero"]
                  (slug ++ "_hero" ++ getSecureExtension sec (type file)) file) as H.
    change (join "/" ["solutions"; solutionId; "hero"])
      with ("solutions/" ++ solutionId ++ "/hero") in H.
    rewrite !app_assoc in H. apply H; [discriminate|].
    repeat constructor; try discriminate; apply safe_clean, Hsafe.
  - apply (upload_outside _ _ ("solutions/" ++ solutionId ++ "/brochure/")); [|exact Hout].
    pose proof (fullPath_below_directory env ["solutions"; solutionId; "brochure"]
                  (slug ++ "_brochure" ++ getSecureExtension sec (type file)) file) as H.
    change (join "/" ["solutions"; solutionId; "brochure"])
      with ("solutions/" ++ solutionId ++ "/brochure") in H.
    rewrite !app_assoc in H. apply H; [discriminate|].
    repeat constructor; try discriminate; apply safe_clean, Hsafe.
Qed.

(** Uploads to slots that lie in a directory leave alone what is outside it. *)
Lemma mapAsync_slots_outside (slotPath : nat -> string) (directory p : string) :
  (forall n file, startsWith (fullPath env (slotPath n) file) directory = true) ->
  startsWith p directory = false ->
  forall (files : list File) (index : nat) (errs : list string) (st : Storage),
    snd (snd (mapAsync (uploadGallerySlot sec env slotPath) files index (errs, st))) !! p
      = st !! p.
Proof.
  intros Hin Hout. induction files as [|file files IH]; intros index errs st;
    [reflexivity|].
  cbn [mapAsync]. rewrite uploadGallerySlot_eq. cbv beta iota.
  specialize (IH (S index) errs
                (snd (uploadSingleFileWithTimeout sec env file (slotPath (index + 1)%nat) st))).
  destruct (mapAsync (uploadGallerySlot sec env slotPath) files (S index) _)
    as [rs [errs2 st2]].
  cbn [snd] in IH |- *. rewrite IH.
  apply (upload_outside _ _ directory); [apply Hin | exact Hout].
Qed.

(** X22. The generic uploader stays in the directory of its item and file
    type: [uploadSingleFile] and [uploadMultipleFiles] leave every object
    whose path does not start with [category/itemId/fileType/] as it was,
    whether they return or throw. *)
Theorem generic_uploads_stay_in_their_directory (file : File) (files : list File)
    (category itemId fileType : string) (itemSlug : option string)
    (st : Storage) (p : string) :
  startsWith p (category ++ "/" ++ itemId ++ "/" ++ fileType ++ "/") = false ->
  snd (uploadSingleFile sec env file category itemId fileType itemSlug st) !! p
    = st !! p /\
  snd (uploadMultipleFiles sec env files category itemId fileType itemSlug st) !! p
    = st !! p.
Proof.
  intros Hout. unfold uploadSingleFile, uploadMultipleFiles.
  destruct (sanitizePathComponent category "category") as [c|e] eqn:Hc;
    [|split; reflexivity].
  apply sanitize_inv in Hc as [-> Hcategory].
  destruct (sanitizePathComponent itemId "itemId") as [i|e] eqn:Hi;
    [|split; reflexivity].
  apply sanitize_inv in Hi as [-> Hitem].
  destruct (sanitizePathComponent fileType "fileType") as [t|e] eqn:Ht;
    [|split; reflexivity].
  apply sanitize_inv in Ht as [-> Htype].
  cbn [bind].
  assert (forall rest f,
            startsWith (fullPath env
                          (category ++ "/" ++ itemId ++ "/" ++ fileType ++ "/" ++ rest) f)
              (category ++ "/" ++ itemId ++ "/" ++ fileType ++ "/") = true) as Hbelow.
  { intros rest f.
    pose proof (fullPath_below_directory env [category; itemId; fileType] rest f) as H.
    change (join "/" [category; itemId; fileType])
      with (category ++ "/" ++ itemId ++ "/" ++ fileType) in H.
    rewrite !app_assoc in H. apply H; [discriminate|].
    repeat constructor; apply safe_clean; assumption. }
  split.
  - destruct (match truthy itemSlug with
              | Some given => sanitizePathComponent given "itemSlug"
              | None => Ok itemId
              end) as [slug|e]; [|reflexivity].
    cbn [bind].
    apply (upload_outside _ _ (category ++ "/" ++ itemId ++ "/" ++ fileType ++ "/"));
      [apply Hbelow | exact Hout].
  - change (uploadToSlotPath sec env) with (uploadGallerySlot sec env).
    pose proof (mapAsync_slots_outside
                  (genericSlotPath category itemId fileType)
                  (category ++ "/" ++ itemId ++ "/" ++ fileType ++ "/") p) as H.
    specialize (H (fun n f => Hbelow ("slot_" ++ pretty n) f) Hout files 0%nat [] st).
    destruct (mapAsync _ files 0%nat ([], st)) as [rs [errs st']]. exact H.
Qed.

End Uploads.

Lemma solution_directories_witness :
  let sec := mkSecurity (fun _ => Ok (mkValidation true [] [] None)) (fun _ => ".webp") in
  let env := mkEnv (Some "u1") (fun _ => 1700000000000) (fun _ _ => None) (fun p => Ok p) in
  let hero := mkFile "hero.webp" "image/webp" 4 "RIFF" in
  let brochure := mkFile "tetra.pdf" "application/pdf" 4 "%PDF" in
  let st := snd (uploadHeroImage sec env hero "s1" "tetra" ∅) in
  let st' := snd (uploadBrochure sec env brochure "s1" "tetra" st) in
  st !! "solutions/s1/hero/tetra_hero.webp/hero_1700000000000.webp" = Some hero /\
  st' !! "solutions/s1/hero/tetra_hero.webp/hero_1700000000000.webp" = Some hero.
Proof.
  intros sec env hero brochure st st'.
  assert (st !! "solutions/s1/hero/tetra_hero.webp/hero_1700000000000.webp" = Some hero)
    as Hstored by (vm_compute; reflexivity).
  split; [exact Hstored|]. rewrite <- Hstored.
  exact (proj2 (solution_files_have_their_own_directories sec env brochure "s1" "tetra" st
                  "solutions/s1/hero/tetra_hero.webp/hero_1700000000000.webp") eq_refl).
Defined.

Lemma generic_uploads_witness :
  let sec := mkSecurity (fun _ => Ok (mkValidation true [] [] None)) (fun _ => ".pdf") in
  let env := mkEnv (Some "u1") (fun _ => 1700000000000) (fun _ _ => None) (fun p => Ok p) in
  let file := mkFile "guide.pdf" "application/pdf" 4 "%PDF" in
  let other := mkFile "cover.webp" "image/webp" 4 "RIFF" in
  let st : Storage := {[ "resources/r2/document/r2_document.pdf" := other ]} in
  snd (uploadSingleFile sec env file "resources" "r1" "document" None st)
    !! "resources/r2/document/r2_document.pdf" = Some other /\
  snd (uploadMultipleFiles sec env [file; file] "resources" "r1" "document" None st)
    !! "resources/r2/document/r2_document.pdf" = Some other.
Proof.
  intros sec env file other st.
  exact (generic_uploads_stay_in_their_directory sec env file [file; file]
           "resources" "r1" "document" None st
           "resources/r2/document/r2_document.pdf" eq_refl).
Defined.

End UploaderDirectories.

(** ** Product resources *)
Module ResourceUploads.
Import FirebaseAuth FileUploadSecurity SlotBasedUpload SlotUploaders.
Import StringFacts PathComponents StoredPaths SegmentSpec SanitizedPaths.
Import UploadSpec SlotUploadOutcomes UploaderDirectories.

Section Uploads.
Context (sec : Security) (env : Env).

Lemma pushResource_spec (safeProductId safeProductSlug kind : string)
    (file : option File) (uploadPromises : list (result (string * string)))
    (st : Storage) :
  exists st',
    pushResource sec env safeProductId safeProductSlug kind file (uploadPromises, st)
      = ((uploadPromises
            ++ match file with
               | Some f =>
                   [bind (uploadOutcome sec env f
                            (resourcePath sec safeProductId safeProductSlug kind f))
                      (fun url => Ok (kind, url))]
               | None => []
               end)%list, st').
Proof.
  unfold pushResource. destruct file as [f|]; [|exists st; rewrite app_nil_r; reflexivity].
  cbv zeta.
  destruct (upload_spec sec env f (resourcePath sec safeProductId safeProductSlug kind f) st)
    as (<- & _).
  destruct (uploadSingleFileWithTimeout sec env f _ st) as [r st']. eauto.
Qed.

(** X23. [uploadResources] for well-formed product id and slug is fulfilled
    exactly when the upload of every file it is given succeeds; the object
    it returns then has a URL for each kind of resource whose file was
    given, the URL of the upload to
    [portfolio/{id}/resources/{slug}_{kind}{extension}], and none for a kind
    whose file is [null]. *)
Theorem uploadResources_outcome (datasheetFile brochureFile caseStudyFile : option File)
    (productId productSlug : string) (st : Storage) (urls : ResourceUrls) :
  safe productId -> safe productSlug ->
  let outcome (kind : string) (file : option File) : option (result string) :=
    (fun f => uploadOutcome sec env f (resourcePath sec productId productSlug kind f))
      <$> file in
  fst (uploadResources sec env datasheetFile brochureFile caseStudyFile
         productId productSlug st) = Ok urls <->
  outcome "datasheet" datasheetFile = Ok <$> datasheetUrl urls /\
  outcome "brochure" brochureFile = Ok <$> brochureUrl urls /\
  outcome "casestudy" caseStudyFile = Ok <$> caseStudyUrl urls.
Proof.
  intros Hid Hslug outcome. subst outcome. unfold uploadResources.
  rewrite (sanitize_Ok _ _ Hid), (sanitize_Ok _ _ Hslug). cbv zeta.
  destruct (pushResource_spec productId productSlug "datasheet" datasheetFile [] st)
    as [st1 ->].
  edestruct (pushResource_spec productId productSlug "brochure" brochureFile)
    as [st2 H2]; rewrite H2; clear H2.
  edestruct (pushResource_spec productId productSlug "casestudy" caseStudyFile)
    as [st3 H3]; rewrite H3; clear H3.
  cbn [fst]. destruct urls as [du bu cu].
  destruct datasheetFile as [d|], brochureFile as [b|], caseStudyFile as [c|];
    cbn [fmap option_fmap option_map app];
    repeat match goal with
           | |- context [uploadOutcome sec env ?f ?path] =>
               destruct (uploadOutcome sec env f path)
           end;
    cbn [bind Promise_all List.fold_left assign String.eqb Ascii.eqb Bool.eqb
           datasheetUrl brochureUrl caseStudyUrl];
    destruct du, bu, cu; cbn [fmap option_fmap option_map];
    split; intros H; try discriminate H;
    try (destruct H as (H1 & H2 & H3); discriminate);
    try (repeat split; congruence);
    try (destruct H as (H1 & H2 & H3);
         repeat match goal with
                | H : Some _ = Some _ |- _ => injection H as H
                | H : Ok _ = Ok _ |- _ => injection H as H
                end; subst; reflexivity).
Qed.

End Uploads.

Lemma uploadResources_witness :
  let sec := mkSecurity (fun _ => Ok (mkValidation true [] [] None)) (fun _ => ".pdf") in
  let env := mkEnv (Some "u1") (fun _ => 1700000000000) (fun _ _ => None) (fun p => Ok p) in
  let sheet := mkFile "sheet.pdf" "application/pdf" 4 "%PDF" in
  let study := mkFile "study.pdf" "application/pdf" 4 "%PDF" in
  fst (uploadResources sec env (Some sheet) None (Some study) "p1" "radio" ∅)
    = Ok (mkResourceUrls
            (Some "portfolio/p1/resources/radio_datasheet.pdf/sheet_1700000000000.pdf")
            None
            (Some "portfolio/p1/resources/radio_casestudy.pdf/study_1700000000000.pdf")).
Proof.
  intros sec env sheet study.
  assert (forall s, all is_word s = true -> s <> "" ->
                    (String.length s <= 100)%nat -> safe s) as Hsafe.
  { intros s Hs Hne Hlen. split; [exact Hne|]. split; [exact Hlen|].
    apply forallb_forall. exact Hs. }
  apply (uploadResources_outcome sec env (Some sheet) None (Some study) "p1" "radio" ∅).
  - apply Hsafe; [reflexivity | discriminate | simpl; lia].
  - apply Hsafe; [reflexivity | discriminate | simpl; lia].
  - split; [reflexivity|]. split; reflexivity.
Defined.

End ResourceUploads.

(** ** One-time passwords *)
Module OneTimePasswords.
Import PhoneAuth.

Section Firebase.
Context {RecaptchaVerifier ConfirmationResult : Type}.
Local Abbreviation Window := (Window RecaptchaVerifier ConfirmationResult).
Local Abbreviation Env := (Env RecaptchaVerifier ConfirmationResult).

(** What a successful [sendOTP] leaves in [window]. *)
Lemma sendOTP_Sent (env : Env) (phoneNumber : string) (now sentAt : Z) (w w' : Window) :
  sendOTP env phoneNumber now sentAt w = (Sent, w') ->
  lastOtpSent w' = Some sentAt /\
  exists appVerifier confirmation,
    signInWithPhoneNumber env ("+91" ++ phoneNumber) appVerifier = Ok confirmation /\
    confirmationResult w' = Some confirmation.
Proof.
  unfold sendOTP.
  destruct (sentAnd w _); [discriminate|].
  destruct (match recaptchaVerifier w with
            | Some verifier => Ok verifier
            | None => new_RecaptchaVerifier env
            end) as [appVerifier|e]; [|discriminate].
  destruct (signInWithPhoneNumber env ("+91" ++ phoneNumber) appVerifier)
    as [confirmation|e] eqn:Hsign; [|discriminate].
  intros [= <-]. simpl. eauto.
Qed.

(** X24. After an OTP was sent at time [sentAt], a request for another one
    made less than 30 s later is refused without asking Firebase (whatever
    Firebase would answer) and leaves [window] as it is; the number of
    seconds it tells the user to wait is between 1 and 30. *)
Theorem second_OTP_within_30_seconds_is_refused (env env' : Env)
    (phoneNumber phoneNumber' : string) (now sentAt now' sentAt' : Z) (w w' : Window) :
  sendOTP env phoneNumber now sentAt w = (Sent, w') ->
  sentAt <> 0 ->
  sentAt <= now' < sentAt + OTP_RATE_LIMIT_MS ->
  exists seconds,
    1 <= seconds <= 30 /\
    sendOTP env' phoneNumber' now' sentAt' w'
      = (Failed (Some ("Please wait " ++ pretty seconds
                         ++ " seconds before requesting another OTP")), w').
Proof.
  intros Hsent Hnonzero Hsoon. apply sendOTP_Sent in Hsent as [Hlast _].
  exists (remainingSeconds now' sentAt). split.
  - unfold remainingSeconds, OTP_RATE_LIMIT_MS in *.
    assert (- 30000 <= - (30000 - (now' - sentAt)) <= - 1) as Hbound by lia.
    pose proof (Z.div_le_mono _ _ 1000 eq_refl (proj1 Hbound)) as Hlow.
    pose proof (Z.div_le_mono _ _ 1000 eq_refl (proj2 Hbound)) as Hhigh.
    change (-30000 / 1000) with (-30) in Hlow. change (-1 / 1000) with (-1) in Hhigh.
    lia.
  - unfold sendOTP, sentAnd. rewrite Hlast.
    destruct (Z.eqb_spec sentAt 0); [contradiction|].
    destruct (Z.ltb_spec (now' - sentAt) OTP_RATE_LIMIT_MS); [|lia].
    reflexivity.
Qed.

(** X25. A code is verified against the confirmation of the OTP sent last,
    and only within five minutes of its sending: after an OTP was sent at
    time [sentAt], [verifyOTP] at a time more than 300 s later fails without
    asking Firebase; and when it succeeds, the confirmation Firebase gave for
    that OTP has confirmed the code. *)
Theorem OTP_is_verified_within_five_minutes (env env' : Env)
    (phoneNumber otp : string) (now sentAt now' : Z) (w w' : Window) :
  sendOTP env phoneNumber now sentAt w = (Sent, w') ->
  sentAt <> 0 ->
  (sentAt + OTP_EXPIRY_MS < now' ->
   verifyOTP env' otp now' w'
     = Failed (Some "OTP has expired. Please request a new OTP.")) /\
  (forall idToken phoneNumber',
     verifyOTP env' otp now' w' = Verified idToken phoneNumber' ->
     now' <= sentAt + OTP_EXPIRY_MS /\
     exists appVerifier confirmation,
       signInWithPhoneNumber env ("+91" ++ phoneNumber) appVerifier = Ok confirmation /\
       confirm env' confirmation otp = Ok (idToken, phoneNumber')).
Proof.
  intros Hsent Hnonzero.
  apply sendOTP_Sent in Hsent as (Hlast & appVerifier & confirmation & Hsign & Hconf).
  unfold verifyOTP, sentAnd. rewrite Hconf, Hlast.
  destruct (Z.eqb_spec sentAt 0); [contradiction|]. cbn [negb andb].
  destruct (Z.ltb_spec OTP_EXPIRY_MS (now' - sentAt)) as [Hlate|Hearly].
  - split; [reflexivity | discriminate].
  - split; [lia|]. intros idToken phone H. split; [lia|].
    exists appVerifier, confirmation. split; [exact Hsign|].
    destruct (confirm env' confirmation otp) as [[t p]|e]; [|discriminate].
    injection H as <- <-. reflexivity.
Qed.

End Firebase.

Lemma second_OTP_witness :
  let env : Env unit nat :=
    mkEnv (Ok tt) (fun _ _ => Ok 7%nat) (fun _ _ => Ok ("token", Some "+919000000000")) in
  let offline : Env unit nat :=
    mkEnv (Throw Thrown) (fun _ _ => Throw Thrown) (fun _ _ => Throw Thrown) in
  let w := mkWindow None None None in
  let w' := mkWindow (Some tt) (Some 7%nat) (Some 1000500) in
  sendOTP env "9000000000" 1000000 1000500 w = (Sent, w') /\
  exists seconds,
    1 <= seconds <= 30 /\
    sendOTP offline "9000000000" 1029000 1029500 w'
      = (Failed (Some ("Please wait " ++ pretty seconds
                         ++ " seconds before requesting another OTP")), w').
Proof.
  intros env offline w w'.
  assert (sendOTP env "9000000000" 1000000 1000500 w = (Sent, w')) as Hsent
    by reflexivity.
  split; [exact Hsent|].
  apply (second_OTP_within_30_seconds_is_refused env offline "9000000000" "9000000000"
           1000000 1000500 1029000 1029500 w w' Hsent).
  - discriminate.
  - unfold OTP_RATE_LIMIT_MS. lia.
Defined.

Lemma OTP_verified_witness :
  let env : Env unit nat :=
    mkEnv (Ok tt) (fun _ _ => Ok 7%nat) (fun _ _ => Ok ("token", Some "+919000000000")) in
  let w := mkWindow None None None in
  let w' := mkWindow (Some tt) (Some 7%nat) (Some 1000500) in
  sendOTP env "9000000000" 1000000 1000500 w = (Sent, w') /\
  verifyOTP env "123456" 1300501 w'
    = Failed (Some "OTP has expired. Please request a new OTP.") /\
  verifyOTP env "123456" 1300500 w' = Verified "token" (Some "+919000000000").
Proof.
  intros env w w'.
  assert (sendOTP env "9000000000" 1000000 1000500 w = (Sent, w')) as Hsent
    by reflexivity.
  split; [exact Hsent|]. split; [|reflexivity].
  apply (OTP_is_verified_within_five_minutes env env "9000000000" "123456"
           1000000 1000500 1300501 w w' Hsent); [discriminate|].
  unfold OTP_EXPIRY_MS. lia.
Defined.

End OneTimePasswords.

(** ** The limiter over any span of 60 seconds *)
Module LimiterWindows.
Import UploadRoute RateSpec LimiterSpec RateLimiter LimiterStore WindowSpec.

Lemma time_ordered_tail (k : string) (t : Z) (rest : list (string * Z)) :
  time_ordered ((k, t) :: rest) = true ->
  time_ordered rest = true /\ forall k' t', In (k', t') rest -> t <= t'.
Proof.
  revert k t. induction rest as [|[k1 t1] rest IH]; intros k t H.
  - split; [reflexivity | intros k' t' []].
  - cbn [time_ordered] in H. apply andb_true_iff in H as [Hle Hrest].
    apply Z.leb_le in Hle. split; [exact Hrest|].
    intros k' t' [[= <- <-] | Hin]; [exact Hle|].
    destruct (IH k1 t1 Hrest) as [_ Hall]. specialize (Hall k' t' Hin). lia.
Qed.

Lemma allowedBetween_cons key lo hi k (t : Z) rest (d : bool) ds :
  allowedBetween key lo hi ((k, t) :: rest) (d :: ds)
    = ((if String.eqb k key && d && (lo <=? t)%Z && (t <=? hi)%Z then 1 else 0)
       + allowedBetween key lo hi rest ds)%nat.
Proof.
  unfold allowedBetween. simpl.
  destruct (String.eqb k key && d && (lo <=? t) && (t <=? hi)); reflexivity.
Qed.

Ltac by_cases :=
  unfold maxRequests, windowMs in *;
  repeat match goal with
         | |- context [Z.ltb ?a ?b] => destruct (Z.ltb_spec a b)
         | |- context [Z.leb ?a ?b] => destruct (Z.leb_spec a b)
         end;
  cbn [andb]; lia.

(** A request for a key with no record, or whose window is over, opens a
    window and is allowed. *)
Lemma check_fresh key t (store : gmap string RateRecord) :
  match store !! key with Some r => resetTime r < t | None => True end ->
  success (fst (checkUploadRateLimit key t store)) = true /\
  snd (checkUploadRateLimit key t store) !! key = Some (mkRecord 1 (t + windowMs) 0).
Proof.
  intros Hfresh. unfold checkUploadRateLimit.
  destruct (liveRecord_fresh key t store Hfresh) as [store' ->]. simpl.
  rewrite lookup_insert_eq. auto.
Qed.

(** One request: what it is allowed, and what it leaves of the budget. *)
Lemma check_budget (key : string) (lo : Z) (k : string) (t earliest : Z)
    (store : gmap string RateRecord) :
  counts_bounded store -> earliest <= t ->
  let served := checkUploadRateLimit k t store in
  (if String.eqb k key && success (fst served) && (lo <=? t) && (t <=? lo + windowMs)
   then 1 else 0)
  + budget key lo (snd served) t <= budget key lo store earliest.
Proof.
  intros Hb Ht served. subst served.
  destruct (String.eqb_spec k key) as [->|Hne].
  - cbn [andb]. unfold budget. cbv zeta.
    destruct (store !! key) as [r|] eqn:Hr.
    + pose proof (Hb key r Hr) as Hcount.
      destruct (Z.lt_ge_cases (resetTime r) t) as [Hold|Hlive].
      * destruct (check_fresh key t store) as [-> ->]; [rewrite Hr; exact Hold|].
        cbn [andb resetTime count]. by_cases.
      * destruct (check_live key t store r Hr Hlive) as (r' & -> & -> & Hc & Hreset).
        destruct (Z.ltb_spec (count r) maxRequests); cbn [andb]; by_cases.
    + destruct (check_fresh key t store) as [-> ->]; [rewrite Hr; exact I|].
      cbn [andb resetTime count]. by_cases.
  - cbn [andb]. unfold budget. rewrite check_other by exact Hne.
    destruct (store !! key) as [r|] eqn:Hr; [pose proof (Hb key r Hr)|]; by_cases.
Qed.

Lemma serve_budget (key : string) (lo : Z) (trace : list (string * Z)) :
  forall (store : gmap string RateRecord) (earliest : Z),
    counts_bounded store ->
    time_ordered trace = true ->
    (forall k t, In (k, t) trace -> earliest <= t) ->
    Z.of_nat (allowedBetween key lo (lo + windowMs) trace (fst (serve store trace)))
      <= budget key lo store earliest.
Proof.
  induction trace as [|[k t] rest IH]; intros store earliest Hb Hord Hin.
  - unfold allowedBetween, budget. simpl.
    destruct (store !! key) as [r|] eqn:Hr; [pose proof (Hb key r Hr)|]; by_cases.
  - rewrite serve_cons. cbn [fst]. rewrite allowedBetween_cons, Nat2Z.inj_add.
    destruct (time_ordered_tail k t rest Hord) as [Hrest Hlater].
    pose proof (check_budget key lo k t earliest store Hb
                  (Hin k t (or_introl eq_refl))) as Hstep.
    cbv zeta in Hstep.
    specialize (IH (snd (checkUploadRateLimit k t store)) t
                  (proj1 (check_bounded k t store Hb)) Hrest Hlater).
    destruct (String.eqb k key && success (fst (checkUploadRateLimit k t store))
              && (lo <=? t) && (t <=? lo + windowMs)); simpl Z.of_nat; lia.
Qed.

(** X26. With a clock that does not go back, the limiter, started with an
    empty store, allows at most 39 requests for a key at times within any
    span of 60 seconds (19 at the end of one window and 20 at the start of
    the next), whatever is requested under other keys. *)
Theorem at_most_39_allowed_in_sixty_seconds (key : string) (lo : Z)
    (trace : list (string * Z)) :
  time_ordered trace = true ->
  (allowedBetween key lo (lo + windowMs) trace (decisions trace) <= 39)%nat.
Proof.
  intros Hord. unfold decisions.
  assert (counts_bounded ∅) as Hb.
  { intros k r Hr. rewrite lookup_empty in Hr. discriminate. }
  destruct trace as [|[k t] rest] eqn:Htrace; [unfold allowedBetween; simpl; lia|].
  rewrite <- Htrace in *.
  pose proof (serve_budget key lo trace ∅ t Hb Hord) as H.
  assert (forall k' t', In (k', t') trace -> t <= t') as Hin.
  { rewrite Htrace. intros k' t' [[= <- <-] | Hin']; [lia|].
    rewrite Htrace in Hord. exact (proj2 (time_ordered_tail k t rest Hord) k' t' Hin'). }
  specialize (H Hin).
  assert (budget key lo ∅ t <= 39) as Hbudget.
  { unfold budget. rewrite lookup_empty. unfold maxRequests.
    destruct (lo + windowMs <? t); lia. }
  lia.
Qed.

Lemma allowed_in_sixty_seconds_witness :
  let trace :=
    (("k", 0) :: List.repeat ("k", 59000) 19
       ++ List.repeat ("k", 60001) 20 ++ [("k", 60002)])%list in
  allowedBetween "k" 59000 (59000 + windowMs) trace (decisions trace) = 39%nat /\
  (allowedBetween "k" 59000 (59000 + windowMs) trace (decisions trace) <= 39)%nat.
Proof.
  intros trace. split; [vm_compute; reflexivity|].
  apply (at_most_39_allowed_in_sixty_seconds "k" 59000 trace).
  vm_compute. reflexivity.
Defined.

End LimiterWindows.

(** ** Highlight visuals *)
Module HighlightUploads.
Import FirebaseAuth FileUploadSecurity SlotBasedUpload SlotUploaders.
Import StringFacts PathComponents SlotUploads UploadSpec SlotUploadOutcomes.

Section Uploads.
Context (sec : Security) (env : Env) (safeProductId : string).

(** The URLs of the visuals of a highlight, or the rejection of the first
    upload that fails. *)
Local Abbreviation visualsOf := (fun (h : nat) (highlight : Visuals) =>
  Promise_all
    (imap (fun v file =>
             uploadOutcome sec env file (highlightPath safeProductId (h + 1) (v + 1))%nat)
       (visualsArray highlight))).

Lemma uploadHighlight_spec (highlight : Visuals) (h : nat) (sh : Shared) :
  fst (uploadHighlight sec env safeProductId highlight h sh)
    = bind (visualsOf h highlight) (fun urls => Ok (h, urls)).
Proof.
  unfold uploadHighlight. destruct sh as [errs st].
  change (uploadToSlotPath sec env) with (uploadGallerySlot sec env).
  pose proof (mapAsync_slots sec env (highlightPath safeProductId (h + 1)%nat)
                (visualsArray highlight) 0%nat errs st) as H.
  cbv zeta in H.
  destruct (mapAsync _ (visualsArray highlight) 0%nat (errs, st))
    as [promises sh']. cbn [fst] in H |- *. destruct H as [-> _]. reflexivity.
Qed.

Lemma mapAsync_highlights (highlights : list Visuals) :
  forall (index : nat) (sh : Shared),
    fst (mapAsync (uploadHighlight sec env safeProductId) highlights index sh)
      = imap (fun i highlight =>
                bind (visualsOf (index + i)%nat highlight)
                  (fun urls => Ok ((index + i)%nat, urls))) highlights.
Proof.
  induction highlights as [|highlight highlights IH]; intros index sh; [reflexivity|].
  cbn [mapAsync].
  pose proof (uploadHighlight_spec highlight index sh) as Hhead.
  destruct (uploadHighlight sec env safeProductId highlight index sh) as [r sh1].
  specialize (IH (S index) sh1).
  destruct (mapAsync _ highlights (S index) sh1) as [rs sh2].
  cbn [fst] in *. subst r rs. cbn [imap]. rewrite Nat.add_0_r. f_equal.
  apply imap_ext. intros i x _. unfold compose. cbv beta.
  replace (S index + i)%nat with (index + S i)%nat by lia. reflexivity.
Qed.

(** The results of the highlights that all succeeded carry their indices in
    order. *)
Lemma Promise_all_indexed (highlights : list Visuals) :
  forall (index : nat) (results : list (nat * list string)),
    Promise_all
      (imap (fun i highlight =>
               bind (visualsOf (index + i)%nat highlight)
                 (fun urls => Ok ((index + i)%nat, urls))) highlights) = Ok results ->
    results = imap (fun i urls => ((index + i)%nat, urls)) (List.map snd results) /\
    imap (fun i highlight => visualsOf (index + i)%nat highlight) highlights
      = List.map Ok (List.map snd results).
Proof.
  induction highlights as [|highlight highlights IH]; intros index results H.
  - injection H as <-. auto.
  - cbn [imap Promise_all] in H. rewrite Nat.add_0_r in H.
    destruct (visualsOf index highlight) as [urls|e] eqn:Hhead; [|discriminate].
    cbn [bind] in H.
    match type of H with
    | context [Promise_all ?l] => destruct (Promise_all l) as [rest|e] eqn:Hrest
    end; [|discriminate].
    injection H as <-.
    destruct (IH (S index) rest) as [Hidx Hout].
    { rewrite <- Hrest. f_equal. apply imap_ext. intros i x _. unfold compose. cbv beta.
      replace (index + S i)%nat with (S index + i)%nat by lia. reflexivity. }
    cbn [List.map snd imap]. rewrite Nat.add_0_r. split.
    + f_equal. rewrite Hidx at 1. apply imap_ext. intros i x _. unfold compose. cbv beta.
      f_equal. lia.
    + rewrite Hhead. f_equal. rewrite <- Hout. apply imap_ext. intros i x _.
      unfold compose. cbv beta.
      replace (index + S i)%nat with (S index + i)%nat by lia. reflexivity.
Qed.

(** Results that carry their indices in order are sorted already. *)
Lemma sortByIndex_indexed (urls : list (list string)) :
  forall index : nat,
    sortByIndex (imap (fun i u => ((index + i)%nat, u)) urls)
      = imap (fun i u => ((index + i)%nat, u)) urls.
Proof.
  induction urls as [|u urls IH]; intros index; [reflexivity|].
  cbn [imap sortByIndex List.fold_right].
  change (List.fold_right insertByIndex [] ?l) with (sortByIndex l).
  rewrite (imap_ext _ (fun i u => ((S index + i)%nat, u)))
    by (intros i x _; unfold compose; cbv beta; f_equal; lia).
  rewrite IH. destruct urls as [|u' urls]; [reflexivity|].
  cbn [imap insertByIndex fst].
  destruct (Nat.leb_spec (index + 0) (S index + 0)); [reflexivity | lia].
Qed.

End Uploads.

Section Call.
Context (sec : Security) (env : Env).

(** X27. [uploadHighlightVisuals] for a well-formed product id is fulfilled
    with one entry per highlight, in the order of the highlights (the sort
    by index changes nothing), each holding one URL per visual of the
    highlight in order, the URL of the upload to
    [portfolio/{id}/highlights/h{i+1}_v{j+1}.webp]; it rejects exactly when
    the upload of some visual fails. *)
Theorem uploadHighlightVisuals_outcome (highlights : list Visuals)
    (productId productSlug : string) (st : Storage) :
  safe productId ->
  let served := uploadHighlightVisuals sec env highlights productId productSlug st in
  let visuals (h : nat) (highlight : Visuals) :=
    Promise_all
      (imap (fun v file =>
               uploadOutcome sec env file (highlightPath productId (h + 1) (v + 1))%nat)
         (visualsArray highlight)) in
  (forall urls, fst served = Ok urls -> imap visuals highlights = List.map Ok urls) /\
  (is_throw (fst served) = true <->
   exists h highlight,
     highlights !! h = Some highlight /\ is_throw (visuals h highlight) = true).
Proof.
  intros Hsafe served visuals. subst served.
  unfold uploadHighlightVisuals. rewrite (sanitize_Ok _ _ Hsafe).
  pose proof (mapAsync_highlights sec env productId highlights 0%nat ([], st)) as Hmap.
  destruct (mapAsync (uploadHighlight sec env productId) highlights 0%nat ([], st))
    as [uploadPromises [errs st']]. cbn [fst] in Hmap |- *. subst uploadPromises.
  split.
  - intros urls H.
    destruct (Promise_all _) as [results|e] eqn:Hresults; [|discriminate].
    apply Promise_all_indexed in Hresults as [Hidx Hout].
    cbn [bind] in H. injection H as <-.
    rewrite Hidx, sortByIndex_indexed, <- Hidx. exact Hout.
  - match goal with
    | |- is_throw (bind ?p _) = true <-> _ =>
        replace (is_throw (bind p (fun results => Ok (List.map snd (sortByIndex results)))))
          with (is_throw p) by (destruct p; reflexivity)
    end.
    rewrite Promise_all_is_throw. split.
    + intros (h & r & Hh & Hr). rewrite list_lookup_imap in Hh.
      destruct (highlights !! h) as [highlight|] eqn:Hl; [|discriminate].
      injection Hh as <-. exists h, highlight. split; [exact Hl|].
      subst visuals. cbv beta. cbn [Nat.add] in Hr.
      destruct (Promise_all _); [discriminate | reflexivity].
    + intros (h & highlight & Hh & Hr). eexists h, _.
      rewrite list_lookup_imap, Hh. split; [reflexivity|].
      subst visuals. cbv beta in Hr. cbn [Nat.add].
      destruct (Promise_all _); [discriminate | reflexivity].
Qed.

End Call.

Lemma uploadHighlightVisuals_witness :
  let sec := mkSecurity (fun _ => Ok (mkValidation true [] [] None)) (fun _ => ".webp") in
  let env := mkEnv (Some "u1") (fun _ => 1700000000000) (fun _ _ => None) (fun p => Ok p) in
  let a := mkFile "a.webp" "image/webp" 4 "RIFF" in
  let b := mkFile "b.webp" "image/webp" 4 "RIFF" in
  fst (uploadHighlightVisuals sec env [Files [a; b]; OneFile b] "p1" "radio" ∅)
    = Ok [ [ "portfolio/p1/highlights/h1_v1.webp/a_1700000000000.webp";
             "portfolio/p1/highlights/h1_v2.webp/b_1700000000000.webp" ];
           [ "portfolio/p1/highlights/h2_v1.webp/b_1700000000000.webp" ] ] /\
  imap (fun h highlight =>
          Promise_all
            (imap (fun v file =>
                     uploadOutcome sec env file (highlightPath "p1" (h + 1) (v + 1))%nat)
               (visualsArray highlight)))
    [Files [a; b]; OneFile b]
    = [ Ok [ "portfolio/p1/highlights/h1_v1.webp/a_1700000000000.webp";
             "portfolio/p1/highlights/h1_v2.webp/b_1700000000000.webp" ];
        Ok [ "portfolio/p1/highlights/h2_v1.webp/b_1700000000000.webp" ] ].
Proof.
  intros sec env a b.
  assert (safe "p1") as Hsafe.
  { split; [discriminate|]. split; [simpl; lia|].
    intros c Hc. simpl in Hc. destruct Hc as [<-|[<-|[]]]; reflexivity. }
  assert (fst (uploadHighlightVisuals sec env [Files [a; b]; OneFile b] "p1" "radio" ∅)
          = Ok [ [ "portfolio/p1/highlights/h1_v1.webp/a_1700000000000.webp";
                   "portfolio/p1/highlights/h1_v2.webp/b_1700000000000.webp" ];
                 [ "portfolio/p1/highlights/h2_v1.webp/b_1700000000000.webp" ] ])
    as Hserved by (vm_compute; reflexivity).
  split; [exact Hserved|].
  exact (proj1 (uploadHighlightVisuals_outcome sec env [Files [a; b]; OneFile b]
                  "p1" "radio" ∅ Hsafe) _ Hserved).
Defined.

End HighlightUploads.

(** ** The security headers of every response *)
Module ServedHeaders.
Import Middleware MiddlewareSpec StringFacts AdminGate MiddlewareAnswers.








End ServedHeaders.
